(** * Claim management pipeline: a shallow embedding of the pipeline core

    The development follows the Python sources of the claim pipeline:
    - [svc_extractor/parsers.py]  (numeric parser, line item reconcilers,
      template matching and field extraction),
    - [svc_extractor/__init__.py] (template selection),
    - [svc_creator/compiler.py]   (claim compiler),
    - [storage/sap/va03.py], [storage/sap/dms.py] (ERP access),
    - [svc_creator/__init__.py]   (credit note recording),
    - [svc_downloader/__init__.py] (document registration).

    Conventions.  Python [str] is [string] (8-bit characters); Python [int]
    is [Z]; Python [float] is an exact rational [Q] in the extractor and the
    compiler (binary rounding is not represented there), and an IEEE 754
    binary64 value ([PyFloat]) where a credit note is recorded; a raised
    exception is the [Raise] branch of [result]. *)

From Stdlib Require Import ZArith QArith Qround Qabs Qminmax String Ascii List Bool Lia.
From Stdlib Require Import SpecFloat.
From stdpp Require Import gmap strings list.

Import ListNotations.
Local Open Scope string_scope.
Local Open Scope Z_scope.

(** ** Exceptions and results *)

Inductive exn : Type :=
  | TemplateNotFoundError
  | PatternMatchError
  | InvalidCategoryAppliedError
  | ValueError (msg : string)
  | TypeError (msg : string)
  | KeyError (key : string)
  | AttributeError
  | IndexError
  | AssertionError (msg : string)
  | ZeroDivisionError
  | UnboundLocalError (var : string)
  | RuntimeError (msg : string)
  | RuntimeWarning (msg : string)
  | DocumentsNotFoundWarning
  | DocumentNotFoundError
  | DeliveryNotFoundError
  | InvoiceNotFoundError
  | OverflowError (msg : string).

Inductive result (A : Type) : Type :=
  | Ok (a : A)
  | Raise (e : exn).

Arguments Ok {A} a.
Arguments Raise {A} e.

Global Instance result_ret : MRet result := fun A a => Ok a.

Global Instance result_bind : MBind result := fun A B k r =>
  match r with
  | Ok a => k a
  | Raise e => Raise e
  end.

Global Instance result_fmap : FMap result := fun A B f r =>
  match r with
  | Ok a => Ok (f a)
  | Raise e => Raise e
  end.

Definition is_ok {A : Type} (r : result A) : bool :=
  match r with Ok _ => true | Raise _ => false end.

(** Monadic map over a list: the first exception aborts the loop. *)
Fixpoint mapM {A B : Type} (f : A -> result B) (l : list A) : result (list B) :=
  match l with
  | [] => Ok []
  | a :: l' => b ← f a; bs ← mapM f l'; Ok (b :: bs)
  end.

(** ** Python string primitives *)

Module PyStr.

Definition is_digit (c : ascii) : bool :=
  ((48 <=? N_of_ascii c) && (N_of_ascii c <=? 57))%N.

Definition digit_val (c : ascii) : Z := Z.of_N (N_of_ascii c) - 48.

Definition digit_char (d : Z) : ascii := ascii_of_N (Z.to_N (d + 48)).

(** [str.isspace] on one character, for the ASCII white space. *)
Definition is_space (c : ascii) : bool :=
  let n := N_of_ascii c in
  ((n =? 32) || ((9 <=? n) && (n <=? 13)) || ((28 <=? n) && (n <=? 31)))%N.

Fixpoint all_chars (p : ascii -> bool) (s : string) : bool :=
  match s with
  | EmptyString => true
  | String c s' => p c && all_chars p s'
  end.

Fixpoint any_char (p : ascii -> bool) (s : string) : bool :=
  match s with
  | EmptyString => false
  | String c s' => p c || any_char p s'
  end.

(** [s.isnumeric()]: non-empty and made of digits only. *)
Definition isnumeric (s : string) : bool :=
  match s with
  | EmptyString => false
  | _ => all_chars is_digit s
  end.

(** [c in s] for a one-character [c]. *)
Definition contains_char (c : ascii) (s : string) : bool :=
  any_char (Ascii.eqb c) s.

(** [s.startswith(p)]. *)
Fixpoint startswith (p s : string) : bool :=
  match p, s with
  | EmptyString, _ => true
  | String a p', String b s' => Ascii.eqb a b && startswith p' s'
  | String _ _, EmptyString => false
  end.

(** [sub in s]. *)
Fixpoint contains (sub s : string) : bool :=
  startswith sub s ||
  match s with
  | EmptyString => false
  | String _ s' => contains sub s'
  end.

(** [s.replace(old, new)] for a non-empty [old]: a left-to-right scan that
    replaces non-overlapping occurrences.  [skip] counts the characters of
    an occurrence still to be dropped. *)
Fixpoint replace_from (old new s : string) (skip : nat) : string :=
  match s with
  | EmptyString => EmptyString
  | String c s' =>
      match skip with
      | S k => replace_from old new s' k
      | O =>
          if startswith old s
          then new +:+ replace_from old new s' (String.length old - 1)
          else String c (replace_from old new s' O)
      end
  end.

Definition replace (old new s : string) : string := replace_from old new s O.

(** [s.lstrip(c)], [s.rstrip(c)], [s.strip(c)] for a set of characters
    given by a predicate. *)
Fixpoint lstrip (p : ascii -> bool) (s : string) : string :=
  match s with
  | EmptyString => EmptyString
  | String c s' => if p c then lstrip p s' else s
  end.

Fixpoint rstrip (p : ascii -> bool) (s : string) : string :=
  match s with
  | EmptyString => EmptyString
  | String c s' =>
      match rstrip p s' with
      | EmptyString => if p c then EmptyString else String c EmptyString
      | r => String c r
      end
  end.

Definition strip (p : ascii -> bool) (s : string) : string :=
  rstrip p (lstrip p s).

(** [re.split(r"\D", s)]: the maximal digit runs between the non-digit
    characters, empty runs included. *)
Fixpoint split_nondigit (s : string) : list string :=
  match s with
  | EmptyString => [EmptyString]
  | String c s' =>
      if is_digit c
      then match split_nondigit s' with
           | t :: ts => String c t :: ts
           | [] => [String c EmptyString]
           end
      else EmptyString :: split_nondigit s'
  end.

(** [int(s)] for a string of digits. *)
Fixpoint int_of_digits_from (acc : Z) (s : string) : Z :=
  match s with
  | EmptyString => acc
  | String c s' => int_of_digits_from (10 * acc + digit_val c) s'
  end.

Definition int_of_digits (s : string) : Z := int_of_digits_from 0 s.

(** [s.lower()] on ASCII letters. *)
Definition lower_char (c : ascii) : ascii :=
  let n := N_of_ascii c in
  if ((65 <=? n) && (n <=? 90))%N then ascii_of_N (n + 32) else c.

Fixpoint lower (s : string) : string :=
  match s with
  | EmptyString => EmptyString
  | String c s' => String (lower_char c) (lower s')
  end.

(** Membership of a string in a tuple or list of strings. *)
Definition str_in (s : string) (l : list string) : bool :=
  existsb (String.eqb s) l.

(** All occurrences of one character removed: what [s.replace(c, "")] computes
    for a one-character [c] (see [replace_char_remove]). *)
Fixpoint remove_char (c : ascii) (s : string) : string :=
  match s with
  | EmptyString => EmptyString
  | String a s' => if Ascii.eqb c a then remove_char c s' else String a (remove_char c s')
  end.

(** The string is not empty and its last character fails [p]. *)
Fixpoint ends_outside (p : ascii -> bool) (s : string) : bool :=
  match s with
  | EmptyString => false
  | String c EmptyString => negb (p c)
  | String _ s' => ends_outside p s'
  end.

(** The characters of a string as one-character strings (iteration over a
    [str]). *)
Fixpoint chars (s : string) : list string :=
  match s with
  | EmptyString => []
  | String c s' => String c EmptyString :: chars s'
  end.

End PyStr.

(** ** Python values handled by the extraction engine *)

Inductive num : Type :=
  | NInt (z : Z)
  | NFloat (q : Q).

(** Numeric value of a number; Python compares [int] and [float] by value. *)
Definition num_val (n : num) : Q :=
  match n with
  | NInt z => inject_Z z
  | NFloat q => q
  end.

(** A scalar cell: [None], a number, a string, or a tuple of regex groups. *)
Inductive atom : Type :=
  | ANone
  | ANum (n : num)
  | AStr (s : string)
  | ATup (l : list string).

Inductive pyval : Type :=
  | VAtom (a : atom)
  | VList (l : list atom)
  | VRows (l : list (list atom)).

(** ** Parser.parse_number (svc_extractor/parsers.py) *)

Module Numbers.
Import PyStr.

Inductive coerce_t := CoerceNone | CoerceInt | CoerceFloat.
Inductive errors_t := ErrRaise | ErrIgnore | ErrDevaluate.

(** [int(x)] on a float truncates toward zero. *)
Definition Qtruncate (q : Q) : Z := Z.quot (Qnum q) (Zpos (Qden q)).

Definition on_error (errors : errors_t) (val : atom) (e : exn) : result atom :=
  match errors with
  | ErrRaise => Raise e
  | ErrIgnore => Ok val
  | ErrDevaluate => Ok ANone
  end.

Definition parse_number (val : atom) (coerce : coerce_t) (errors : errors_t)
  : result atom :=
  match val with
  | AStr s =>
      let repl := replace " " "" s in
      let repl := strip (Ascii.eqb "-") repl in
      let decimals :=
        if any_char (fun c => negb (is_digit c)) repl
        then String.length (List.last (split_nondigit repl) EmptyString)
        else O in
      let repl := replace "." "" repl in
      let repl := replace "," "" repl in
      if negb (isnumeric repl)
      then on_error errors val (TypeError "Only numeric values are accepted!")
      else
        let parsed := NInt (int_of_digits repl) in
        let parsed :=
          match decimals with
          | O => parsed
          | _ => NFloat (num_val parsed / inject_Z (10 ^ Z.of_nat decimals))
          end in
        let parsed :=
          if contains_char "-" s
          then match parsed with
               | NInt z => NInt (z * -1)
               | NFloat q => NFloat (q * inject_Z (-1))
               end
          else parsed in
        let parsed :=
          match coerce with
          | CoerceInt =>
              match parsed with
              | NInt z => NInt z
              | NFloat q => NInt (Qtruncate q)
              end
          | CoerceFloat => NFloat (num_val parsed)
          | CoerceNone => parsed
          end in
        Ok (ANum parsed)
  | _ => on_error errors val (TypeError "Could not parse the value!")
  end.

(** [Parser.parse_numbers]: always called with the default [errors]. *)
Definition parse_numbers (vals : list atom) (coerce : coerce_t)
  : result (list atom) :=
  mapM (fun v => parse_number v coerce ErrRaise) vals.

(** The result is the number [q]. *)
Definition same_num (r : result atom) (q : Q) : bool :=
  match r with
  | Ok (ANum n) => Qeq_bool (num_val n) q
  | _ => false
  end.

End Numbers.

(** ** Formatting of decimal numbers (the round-trip law of the numeric parser)

    The specification states the law [parse_number(format_number(x)) == x]
    for decimals with at most four fractional digits, any sign and any
    thousand separator among ".", "," and " ".  [spec_format_number] follows
    these words: the integer part is grouped in threes, a decimal mark
    precedes the [d] fractional digits, and the sign is a leading or a
    trailing "-" (the parser documents the trailing form).  The German
    [locale.currency] rendering used by [Claim.create_status_sales] is the
    instance with separator ".", mark ",", two fractional digits and a
    leading sign. *)

Module NumberFormat.
Import PyStr.

Record style : Type := {
  thousands_sep : ascii;
  decimal_mark : ascii;
  sign_trailing : bool
}.

(** The [w] low decimal digits of [n], most significant first. *)
Fixpoint digits_w (w : nat) (n : Z) : string :=
  match w with
  | O => EmptyString
  | S w' => digits_w w' (n / 10) +:+ String (digit_char (n mod 10)) EmptyString
  end.

(** Number of decimal digits of [n] (at least one). *)
Fixpoint width_fuel (fuel : nat) (n : Z) : nat :=
  match fuel with
  | O => 1%nat
  | S f => if n <? 10 then 1%nat else S (width_fuel f (n / 10))
  end.

Definition width (n : Z) : nat := width_fuel (Z.to_nat (Z.log2 n) + 1) n.

Definition digits (n : Z) : string := digits_w (width n) n.

(** Thousands grouping: a separator follows a digit whenever a positive
    multiple of three digits remains. *)
Fixpoint group (sep : ascii) (s : string) : string :=
  match s with
  | EmptyString => EmptyString
  | String c s' =>
      if (0 <? String.length s')%nat && (String.length s' mod 3 =? 0)%nat
      then String c (String sep (group sep s'))
      else String c (group sep s')
  end.

(** The decimal [± m / 10^d] written with [d] fractional digits. *)
Definition spec_format_number (st : style) (neg : bool) (m : N) (d : nat) : string :=
  let scale := 10 ^ Z.of_nat d in
  let ip := digits (Z.of_N m / scale) in
  let fp := digits_w d (Z.of_N m mod scale) in
  let body :=
    group (thousands_sep st) ip +:+
    match d with
    | O => EmptyString
    | _ => String (decimal_mark st) fp
    end in
  if neg
  then if sign_trailing st then body +:+ "-" else "-" +:+ body
  else body.

Definition number_value (neg : bool) (m : N) (d : nat) : Q :=
  (if neg then inject_Z (-1) else inject_Z 1) *
  (inject_Z (Z.of_N m) / inject_Z (10 ^ Z.of_nat d)).

Definition is_separator (c : ascii) : Prop :=
  c = "."%char \/ c = ","%char \/ c = " "%char.

Definition is_mark (c : ascii) : Prop :=
  c = "."%char \/ c = ","%char.

(** The rendering of [locale.currency] under de_DE. *)
Definition german : style :=
  {| thousands_sep := "."; decimal_mark := ","; sign_trailing := false |}.

(** The round-trip law at one number and one style: the parser accepts the
    formatted string and returns a number equal to the one formatted. *)
Definition roundtrip_holds (st : style) (neg : bool) (m : N) (d : nat) : Prop :=
  exists n : num,
    Numbers.parse_number (AStr (spec_format_number st neg m d))
      Numbers.CoerceNone Numbers.ErrRaise = Ok (ANum n) /\
    (num_val n == number_value neg m d)%Q.

End NumberFormat.

(** ** Values of the compiler's dictionaries and log records *)

Inductive cval : Type :=
  | CNone
  | CInt (z : Z)
  | CFloat (q : Q)
  | CStr (s : string)
  | CInts (l : list Z)
  | CStrs (l : list string).

Inductive log_entry : Type :=
  | LogInfo (msg : string)
  | LogWarning (msg : string)
  | LogError (msg : string).

(** [d.get(k)]: [None] for a missing key and for a key bound to [None]. *)
Definition dict_get (d : gmap string cval) (k : string) : option cval :=
  match d !! k with
  | Some CNone | None => None
  | Some v => Some v
  end.

(** [k in d]. *)
Definition dict_has (d : gmap string cval) (k : string) : bool :=
  bool_decide (is_Some (d !! k)).

(** [str(z)] for an integer. *)
Definition str_of_int (z : Z) : string :=
  if z <? 0 then "-" +:+ NumberFormat.digits (- z) else NumberFormat.digits z.

(** ** Sales documents in the ERP (storage/sap/va03.py, storage/sap/__init__.py)

    The ERP tables are reached through [RFC_READ_TABLE]; [Erp] holds the
    answers of the four queries the module sends:
    - [vbak_by_po po acc]: [VBELN] of the VBAK rows with [BSTNK = po] (and
      [KUNNR = acc] when an account is given),
    - [vbfa_preceding doc]: [VBELV] of the VBFA rows with [VBELN = doc] and
      [VBELV LIKE '02%'],
    - [vbfa_subsequent sd t]: [VBELN] of the VBFA rows with [VBELV = sd] and
      [VBTYP_N = t] ("M" invoice, "J" delivery),
    - [vbak_sold_to sd]: [KUNNR] of the VBAK rows with [VBELN = sd].
    Document numbers are integers (SAP returns their digit strings). *)

Module Va03.

Record Erp : Type := {
  vbak_by_po : Z -> option Z -> list Z;
  vbfa_preceding : Z -> list Z;
  vbfa_subsequent : Z -> string -> list Z;
  vbak_sold_to : Z -> list Z
}.

Inductive document : Type :=
  | Invoice (v : Z)
  | Delivery (v : Z)
  | PurchaseOrder (v : Z).

(** The constructors of [Invoice], [Delivery] and [PurchaseOrder]. *)
Definition make_Invoice (val : cval) : result document :=
  match val with
  | CInt v =>
      if negb (String.length (str_of_int v) =? 9)%nat
      then Raise (ValueError "Value doesn't represent a valid invoice number!")
      else Ok (Invoice v)
  | _ => Raise (TypeError "Value of type 'int' expected")
  end.

Definition make_Delivery (val : cval) : result document :=
  match val with
  | CInt v =>
      if negb ((String.length (str_of_int v) =? 9)%nat
               && PyStr.startswith "31" (str_of_int v))
      then Raise (ValueError "Value doesn't represent a valid delivery note number!")
      else Ok (Delivery v)
  | _ => Raise (TypeError "Value of type 'int' expected")
  end.

Definition make_PurchaseOrder (val : cval) : result document :=
  match val with
  | CInt v =>
      let n := String.length (str_of_int v) in
      if negb ((5 <=? n)%nat && (n <=? 7)%nat)
      then Raise (ValueError "Value doesn't represent a valid purchase order number!")
      else Ok (PurchaseOrder v)
  | _ => Raise (TypeError "Value of type 'int' expected")
  end.

Record accdoc : Type := {
  sales_document : Z;
  invoice : Z;
  delivery : Z;
  account : Z
}.

(** [va03._get_accounting_docs]: one record per sales document. *)
Fixpoint _get_accounting_docs (erp : Erp) (sales_docs : list Z)
  : result (list accdoc) :=
  match sales_docs with
  | [] => Ok []
  | sales_doc :: rest =>
      let invoice := head (vbfa_subsequent erp sales_doc "M") in
      let delivery := head (vbfa_subsequent erp sales_doc "J") in
      match head (vbak_sold_to erp sales_doc) with
      | None => Raise IndexError
      | Some acc_num =>
          match invoice, delivery with
          | None, None => Raise DocumentsNotFoundWarning
          | Some i, Some d =>
              recs ← _get_accounting_docs erp rest;
              Ok ({| sales_document := sales_doc; invoice := i;
                     delivery := d; account := acc_num |} :: recs)
          | _, _ => Raise (TypeError "int() argument must not be 'NoneType'")
          end
      end
  end.

Definition find_accounting_documents (erp : Erp) (doc : document) (acc : option Z)
  : result (list accdoc) :=
  let found :=
    match doc with
    | PurchaseOrder po => vbak_by_po erp po acc
    | Invoice n | Delivery n => vbfa_preceding erp n
    end in
  let sales_docs := remove_dups found in
  let missing :=
    match sales_docs with
    | [] =>
        match doc, acc with
        | PurchaseOrder _, Some _ => Some DocumentNotFoundError
        | PurchaseOrder _, None => None
        | Invoice _, _ => Some DeliveryNotFoundError
        | Delivery _, _ => Some InvoiceNotFoundError
        end
    | _ => None
    end in
  match missing with
  | Some e => Raise e
  | None =>
      records ← _get_accounting_docs erp sales_docs;
      match records with
      | [] => Raise (AssertionError "No accounting document was found!")
      | _ => Ok records
      end
  end.

Definition is_DocumentsNotFoundWarning (e : exn) : bool :=
  match e with
  | DocumentsNotFoundWarning => true
  | _ => false
  end.

(** [except va03.DocumentNotFoundError] also catches its two subclasses. *)
Definition is_DocumentNotFoundError (e : exn) : bool :=
  match e with
  | DocumentNotFoundError | DeliveryNotFoundError | InvoiceNotFoundError => true
  | _ => false
  end.

End Va03.

(** ** Claim (svc_creator/compiler.py) *)

Module Compiler.
Import PyStr.

Definition categories_QM : list string :=
  ["delivery"; "finance"; "invoice"; "penalty_general"; "penalty_delay";
   "penalty_quote"; "price"; "rebuild"; "return"].

Definition categories_ZQM : list string := ["bonus"; "promo"; "quality"].

(** The keys of [Claim._categories]. *)
Definition transactions : list string := ["QM"; "ZQM"; "DMS"].

(** The document data read by the header: [kind], [category] ([None] for
    credit notes), [issuer], [template_id]; the extracted fields are in
    [fields]. *)
Record DocData : Type := {
  issuer : string;
  kind : string;
  category : option string;
  template_id : string;
  fields : gmap string cval
}.

(** [Claim.__init__]: the category is lower-cased and the blanks of the
    issuer become underscores before compilation. *)
Definition init_data (data : DocData) : DocData :=
  {| issuer := replace " " "_" (issuer data);
     kind := kind data;
     category := lower <$> category data;
     template_id := template_id data;
     fields := fields data |}.

Definition category_in (categ : option string) (l : list string) : bool :=
  match categ with
  | Some c => str_in c l
  | None => false
  end.

Definition _get_transaction_type (data : DocData) : result string :=
  if String.eqb (kind data) "debit" then
    if category_in (category data) categories_QM then Ok "QM"
    else if category_in (category data) categories_ZQM then Ok "ZQM"
    else Raise (ValueError "Unrecognized document category!")
  else if String.eqb (kind data) "credit" then Ok "DMS"
  else Raise (ValueError "Unrecognized document kind!").

(** A processing rule is an ordered dictionary whose values are either plain
    parameters or rulesets (dictionaries of parameters). *)
Inductive rule_param : Type :=
  | Plain (v : cval)
  | Ruleset (params : list (string * cval)).

Definition rule : Type := list (string * rule_param).

Fixpoint rule_lookup (r : rule) (k : string) : option rule_param :=
  match r with
  | [] => None
  | (k', v) :: r' => if String.eqb k k' then Some v else rule_lookup r' k
  end.

(** [data["category"] in rule_categs]. *)
Definition rule_matches (data : DocData) (r : rule) : result bool :=
  match rule_lookup r "template_id" with
  | None => Raise (KeyError "template_id")
  | Some tid =>
      if negb (match tid with
               | Plain (CStr t) => String.eqb (template_id data) t
               | _ => false
               end)
      then Ok false
      else if String.eqb (kind data) "credit" then Ok true
      else if String.eqb (kind data) "debit" then
        match rule_lookup r "category" with
        | None => Raise (KeyError "category")
        | Some (Plain (CStr c)) => Ok (category_in (category data) [c])
        | Some (Plain (CStrs cs)) => Ok (category_in (category data) cs)
        | Some _ => Raise (TypeError "argument is not iterable")
        end
      else Ok false
  end.

Fixpoint matching_rules (data : DocData) (rules : list rule) : result (list rule) :=
  match rules with
  | [] => Ok []
  | r :: rest =>
      b ← rule_matches data r;
      ms ← matching_rules data rest;
      Ok (if (b : bool) then r :: ms else ms)
  end.

Definition _assign_rules (data : DocData) (rules_map : gmap string (list rule))
  : result rule :=
  match rules_map !! issuer data with
  | None => Raise (KeyError (issuer data))
  | Some rules =>
      matched ← matching_rules data rules;
      match matched with
      | [] => Raise (RuntimeError "No rule matched the data!")
      | [r] => Ok r
      | _ => Raise (RuntimeError "A single rule match for the document data expected!")
      end
  end.

(** [float(params)] for the threshold and the tolerance of a rule file. *)
Definition to_float (v : cval) : result cval :=
  match v with
  | CInt z => Ok (CFloat (inject_Z z))
  | CFloat q => Ok (CFloat q)
  | _ => Raise (TypeError "float() argument must be a number")
  end.

(** The plain parameters of the rule enter the header unless the header
    already has the key (first loop branch of [_compile]). *)
Fixpoint merge_plain (r : rule) (header : gmap string cval)
  : result (gmap string cval) :=
  match r with
  | [] => Ok header
  | (ruleset_name, Plain params) :: rest =>
      if negb (bool_decide (is_Some (header !! ruleset_name)))
         && negb (String.eqb ruleset_name "name")
      then
        if str_in ruleset_name ["threshold"; "tolerance"]
        then (v ← to_float params; merge_plain rest (<[ruleset_name := v]> header))
        else merge_plain rest (<[ruleset_name := params]> header)
      else merge_plain rest header
  | (_, Ruleset _) :: rest => merge_plain rest header
  end.

Definition opt_str (o : option string) : cval :=
  match o with
  | Some s => CStr s
  | None => CNone
  end.

(** The header of the claim context, as [_compile] builds it. *)
Definition compile_header (data0 : DocData) (rules_map : gmap string (list rule))
  : result (gmap string cval) :=
  let data := init_data data0 in
  rules ← _assign_rules data rules_map;
  match rule_lookup rules "name" with
  | None => Raise (KeyError "name")
  | Some _ =>
      tr_type ← _get_transaction_type data;
      let header : gmap string cval :=
        <["category" := opt_str (category data)]>
        (<["issuer" := CStr (issuer data)]>
        (<["kind" := CStr (kind data)]>
        (<["template_id" := CStr (template_id data)]>
        (<["transaction" := CStr tr_type]> ∅)))) in
      merge_plain rules header
  end.

(** *** Claim._get_reference *)

Inductive reference_by : Type :=
  | RefInt (z : Z)
  | RefStr (s : string)
  | RefList (l : list string)
  | RefOther.

Definition available_refs : list string :=
  ["invoice_number"; "delivery_number"; "purchase_order_number";
   "account_number"; "head_office_number"].

Definition msg_zqm_reference : string :=
  "Invalid 'reference_by' value! Quality can be referenced by an account or head office number only!".

Definition msg_other_references : string :=
  "Attempts to get a valid value for the dynamic references listed in the 'reference_by' option failed. There are other references with valid values available that could be used, but they aren't included in the 'reference_by' parameter list.".

Definition msg_no_references : string :=
  "Attempts to get a valid value for the dynamic references listed in the 'reference_by' option failed. There aren't any other references with valid values that could be used to create the notification.".

(** The loop over [available_refs]: the referenced fields with a value, split
    into those the rule lists and the others. *)
Fixpoint collect_refs (names used_refs unused_refs : list string)
  (claim_create : gmap string cval)
  (used_valid_refs unused_valid_refs : list (string * cval))
  : list (string * cval) * list (string * cval) :=
  match names with
  | [] => (used_valid_refs, unused_valid_refs)
  | ref_name :: rest =>
      match dict_get claim_create ref_name with
      | None =>
          collect_refs rest used_refs unused_refs claim_create
            used_valid_refs unused_valid_refs
      | Some ref_val =>
          if str_in ref_name used_refs then
            collect_refs rest used_refs unused_refs claim_create
              (used_valid_refs ++ [(ref_name, ref_val)])%list unused_valid_refs
          else if str_in ref_name unused_refs then
            collect_refs rest used_refs unused_refs claim_create
              used_valid_refs (unused_valid_refs ++ [(ref_name, ref_val)])%list
          else
            collect_refs rest used_refs unused_refs claim_create
              used_valid_refs unused_valid_refs
      end
  end.

Definition _get_reference (val : reference_by) (tr_type : string)
  (claim_create : gmap string cval) : result (string * cval) :=
  if negb (str_in tr_type ["QM"; "ZQM"])
  then Raise (AssertionError "Invalid operation!")
  else
    match val with
    | RefInt z => Ok ("account_number", CInt z)
    | _ =>
        if String.eqb tr_type "ZQM"
           && negb (match val with
                    | RefStr s => str_in s ["head_office_number"; "account_number"]
                    | _ => false
                    end)
        then Raise (ValueError msg_zqm_reference)
        else
          match (match val with
                 | RefStr s => Some [s]
                 | RefList l => Some l
                 | _ => None
                 end) with
          | None => Raise (UnboundLocalError "used_refs")
          | Some used_refs =>
              let invalid_ref_flds :=
                List.filter (fun r => negb (str_in r available_refs)) used_refs in
              if negb (length invalid_ref_flds =? 0)%nat
              then Raise (ValueError "Unrecognized 'reference_by' value!")
              else
                let all_refs :=
                  List.filter (dict_has claim_create) available_refs in
                if (length all_refs =? 0)%nat
                then Raise (RuntimeWarning "No valid reference value found for notification creation.")
                else
                  let unused_refs :=
                    List.filter (fun r => negb (str_in r used_refs)) all_refs in
                  let '(used_valid_refs, unused_valid_refs) :=
                    collect_refs available_refs used_refs unused_refs
                      claim_create [] [] in
                  match used_valid_refs, unused_valid_refs with
                  | [], _ :: _ => Raise (RuntimeError msg_other_references)
                  | [], [] => Raise (RuntimeError msg_no_references)
                  | selected_ref :: _, _ => Ok selected_ref
                  end
          end
    end.

(** The reference selection as the specification words it: the first name
    of the rule's own list whose value is not null. *)
Fixpoint spec_first_listed_reference (listed : list string)
  (claim_create : gmap string cval) : option (string * cval) :=
  match listed with
  | [] => None
  | ref_name :: rest =>
      match dict_get claim_create ref_name with
      | Some v => Some (ref_name, v)
      | None => spec_first_listed_reference rest claim_create
      end
  end.

(** *** Claim._get_accounting_docs *)

(** [x if isinstance(x, list) else [x]]. *)
Definition as_list (v : cval) : list cval :=
  match v with
  | CInts l => CInt <$> l
  | CStrs l => CStr <$> l
  | _ => [v]
  end.

Definition invoices_of (acc_docs : list Va03.accdoc) : list cval :=
  CInt <$> remove_dups (Va03.invoice <$> acc_docs).

Definition deliveries_of (acc_docs : list Va03.accdoc) : list cval :=
  CInt <$> remove_dups (Va03.delivery <$> acc_docs).

Definition msg_no_other_parameter : string :=
  "The data does not contain any other parameter that could be used to retrieve these documents from SAP.".

Definition msg_multiple_po : string :=
  "Multiple purchase order numbers were found in the document data, only the first one will be used to obtain the accounting documents.".

Definition msg_multiple_records : string :=
  "Multiple records found without using customer account as a filter!".

Definition msg_not_found (e : exn) : string :=
  match e with
  | DocumentsNotFoundWarning =>
      "Neither a debit note nor an invoice was found."
  | DocumentNotFoundError =>
      "No accounting document found since no sales document exists for the purchase order."
  | DeliveryNotFoundError =>
      "Delivery not found since no sales document exists for the invoice."
  | InvoiceNotFoundError =>
      "Invoice not found since no sales document exists for the delivery."
  | _ => ""
  end.

(** Result: the invoice numbers, the delivery numbers and the warnings and
    errors written to the log. *)
Definition accounting_docs : Type :=
  option (list cval) * option (list cval) * list log_entry.

Definition _get_accounting_docs (erp : Va03.Erp)
  (claim_create : gmap string cval) (data : gmap string cval) (acc : option Z)
  : result accounting_docs :=
  let inv_num := dict_get data "invoice_number" in
  let deliv_num := dict_get data "delivery_number" in
  let po_num := dict_get data "purchase_order_number" in
  match inv_num, deliv_num with
  | Some inv, Some deliv =>
      Ok (Some (as_list inv), Some (as_list deliv), [])
  | None, None =>
      match claim_create !! "reference_from" with
      | None => Ok (None, None, [LogWarning msg_no_other_parameter])
      | Some reference_from =>
          if negb (match reference_from with
                   | CStr s => String.eqb s "purchase_order_number"
                   | _ => false
                   end)
          then Raise (ValueError "Unrecognized 'reference_from' value!")
          else
            let '(po_num, log1) :=
              match po_num with
              | Some (CInts (p :: _ :: _)) =>
                  (Some (CInt p), [LogWarning msg_multiple_po])
              | Some (CStrs (p :: _ :: _)) =>
                  (Some (CStr p), [LogWarning msg_multiple_po])
              | _ => (po_num, [])
              end in
            if negb (dict_has data "purchase_order_number")
            then Raise (AssertionError "Purchase order number is required to create a notification, but not found in the document data!")
            else
              match
                doc ← Va03.make_PurchaseOrder (default CNone po_num);
                Va03.find_accounting_documents erp doc acc
              with
              | Ok acc_docs =>
                  if bool_decide (acc = None) && (1 <? length acc_docs)%nat
                  then Raise (RuntimeError msg_multiple_records)
                  else Ok (Some (invoices_of acc_docs),
                           Some (deliveries_of acc_docs), log1)
              | Raise e =>
                  if Va03.is_DocumentsNotFoundWarning e
                     || Va03.is_DocumentNotFoundError e
                  then
                    (* the exception is logged; [acc_docs] was never bound *)
                    match acc with
                    | None => Raise (UnboundLocalError "acc_docs")
                    | Some _ =>
                        Ok (None, None,
                            (log1 ++ [if Va03.is_DocumentsNotFoundWarning e
                                      then LogWarning (msg_not_found e)
                                      else LogError (msg_not_found e)])%list)
                    end
                  else Raise e
              end
      end
  | None, Some deliv =>
      match doc ← Va03.make_Delivery deliv;
            Va03.find_accounting_documents erp doc None with
      | Ok acc_docs => Ok (Some (invoices_of acc_docs), Some [deliv], [])
      | Raise InvoiceNotFoundError =>
          Ok (None, Some [deliv], [LogError (msg_not_found InvoiceNotFoundError)])
      | Raise e => Raise e
      end
  | Some inv, None =>
      match doc ← Va03.make_Invoice inv;
            Va03.find_accounting_documents erp doc None with
      | Ok acc_docs => Ok (Some [inv], Some (deliveries_of acc_docs), [])
      | Raise DeliveryNotFoundError =>
          Ok (Some [inv], None, [LogError (msg_not_found DeliveryNotFoundError)])
      | Raise e => Raise e
      end
  end.

End Compiler.

(** ** Reading aids for the reference selection *)

Module ReferenceOrder.
Import PyStr Compiler.

(** The first name of [names] that the rule lists and whose value is not
    null: with [names = available_refs] this is the fixed priority order
    invoice, delivery, purchase order, account, head office. *)
Fixpoint first_valid (names listed : list string) (claim_create : gmap string cval)
  : option (string * cval) :=
  match names with
  | [] => None
  | ref_name :: rest =>
      match dict_get claim_create ref_name with
      | Some v =>
          if str_in ref_name listed then Some (ref_name, v)
          else first_valid rest listed claim_create
      | None => first_valid rest listed claim_create
      end
  end.

(** Some name of [names] outside the rule's list has a value. *)
Definition other_valid (names listed : list string) (claim_create : gmap string cval)
  : bool :=
  existsb (fun r => bool_decide (is_Some (dict_get claim_create r))
                    && negb (str_in r listed)) names.

(** What [reference_by] values a ZQM claim accepts. *)
Definition zqm_accepts (val : reference_by) : bool :=
  match val with
  | RefInt _ => true
  | RefStr s => str_in s ["head_office_number"; "account_number"]
  | _ => false
  end.

(** A purchase order whose only sales document has neither an invoice nor a
    delivery (goods sold for own consumption). *)
Definition erp_own_consumption : Va03.Erp :=
  {| Va03.vbak_by_po := fun po _ => if po =? 12345 then [200000001] else [];
     Va03.vbfa_preceding := fun _ => [];
     Va03.vbfa_subsequent := fun _ _ => [];
     Va03.vbak_sold_to := fun _ => [1000001] |}.

Definition data_po_only : gmap string cval :=
  {[ "purchase_order_number" := CInt 12345 ]}.

Definition rule_reference_from_po : gmap string cval :=
  {[ "reference_from" := CStr "purchase_order_number" ]}.

(** A rule file and a document for the header: the rule's own
    [transaction] entry does not reach the header. *)
Definition sample_rule : rule :=
  [("name", Plain (CStr "obi_retoure"));
   ("template_id", Plain (CStr "161001DE007"));
   ("kind", Plain (CStr "debit"));
   ("category", Plain (CStr "return"));
   ("company_code", Plain (CStr "1001"));
   ("transaction", Plain (CStr "DMS"));
   ("threshold", Plain (CInt 500))].

Definition sample_rules : gmap string (list rule) :=
  {[ "OBI_DE" := [sample_rule] ]}.

Definition sample_data : DocData :=
  {| issuer := "OBI DE"; kind := "debit"; category := Some "Return";
     template_id := "161001DE007"; fields := ∅ |}.

Definition sample_header : gmap string cval :=
  <["category" := CStr "return"]>
  (<["issuer" := CStr "OBI_DE"]>
  (<["kind" := CStr "debit"]>
  (<["template_id" := CStr "161001DE007"]>
  (<["transaction" := CStr "QM"]>
  (<["company_code" := CStr "1001"]>
  (<["threshold" := CFloat (inject_Z 500)]> ∅)))))).

Definition claim_both_documents : gmap string cval :=
  <["invoice_number" := CInts [900000001]]>
  (<["delivery_number" := CInts [310000001]]> ∅).

End ReferenceOrder.

(** ** Python floats where their rounding decides (IEEE 754 binary64)

    The operations are those of the reference implementation of the
    Standard Library ([SpecFloat]), at precision 53 and maximal exponent
    1024. *)

Module PyFloat.

Definition prec : Z := 53.
Definition emax : Z := 1024.

(** A Python number: an [int] or a [float]. *)
Inductive number : Type :=
  | PInt (z : Z)
  | PFloat (f : spec_float).

(** The float nearest to [a / b], ties to even; beyond the largest float
    it is an infinity. *)
Definition of_ratio (neg : bool) (a b : positive) : spec_float :=
  let '(m, e, l) := SFdiv_core_binary prec emax (Zpos a) 0 (Zpos b) 0 in
  binary_round_aux prec emax neg m e l.

Definition of_Q (q : Q) : spec_float :=
  match Qnum q with
  | Z0 => S754_zero false
  | Zpos a => of_ratio false a (Qden q)
  | Zneg a => of_ratio true a (Qden q)
  end.

(** The float nearest to an integer. *)
Definition of_int (z : Z) : spec_float := binary_normalize prec emax z 0 false.

Definition is_infinite (f : spec_float) : bool :=
  match f with
  | S754_infinity _ => true
  | _ => false
  end.

(** [float(z)] on an [int], also where an [int] meets a [float] in
    arithmetic. *)
Definition float_of_int (z : Z) : result spec_float :=
  let f := of_int z in
  if is_infinite f then Raise (OverflowError "int too large to convert to float")
  else Ok f.

(** [a / b] on two [int]s, the quotient being [q]: the division rounds
    once. *)
Definition true_divide (q : Q) : result spec_float :=
  let f := of_Q q in
  if is_infinite f
  then Raise (OverflowError "integer division result too large for a float")
  else Ok f.

(** The number [parse_number] returns without coercion: the digits as an
    [int], divided by the power of ten of the decimals when there are
    some; the sign is applied last and changes no digit. *)
Definition of_num (n : num) : result number :=
  match n with
  | NInt z => Ok (PInt z)
  | NFloat q => PFloat <$> true_divide q
  end.

(** The exact value of a finite float. *)
Definition to_Q (f : spec_float) : option Q :=
  match f with
  | S754_zero _ => Some 0%Q
  | S754_finite s m e =>
      let z := if s then Zneg m else Zpos m in
      Some (match e with
            | Zneg p => Qmake z (2 ^ p)
            | _ => inject_Z (z * 2 ^ e)
            end)
  | S754_infinity _ | S754_nan => None
  end.

(** [f < z] between a [float] and an [int]: Python compares the exact
    values. *)
Definition ltb_int (f : spec_float) (z : Z) : bool :=
  match f with
  | S754_nan => false
  | S754_infinity s => s
  | _ => match to_Q f with
         | Some q => negb (Qle_bool (inject_Z z) q)
         | None => false
         end
  end.

(** [x > f]. *)
Definition gtb (x : number) (f : spec_float) : bool :=
  match x with
  | PInt z => ltb_int f z
  | PFloat g => SFltb f g
  end.

(** [x - f]: an [int] is converted first. *)
Definition sub (x : number) (f : spec_float) : result spec_float :=
  match x with
  | PInt z => g ← float_of_int z; Ok (SFsub prec emax g f)
  | PFloat g => Ok (SFsub prec emax g f)
  end.

(** [f < g] on two floats. *)
Definition ltb (f g : spec_float) : bool := SFltb f g.

(** Nearest integer, ties to even. *)
Definition round_half_even (q : Q) : Z :=
  let f := Qfloor q in
  match Qcompare (q - inject_Z f) (1 # 2) with
  | Lt => f
  | Gt => f + 1
  | Eq => if Z.even f then f else f + 1
  end.

(** ['%.2f' % abs(f)] counted in hundredths: the exact binary value is
    rounded to the nearest, ties to even. *)
Definition hundredths (f : spec_float) : option Z :=
  q ← to_Q f; Some (round_half_even (Qabs q * inject_Z 100)).

(** [f < 0]. *)
Definition is_negative (f : spec_float) : bool := SFltb f (S754_zero false).

End PyFloat.

(** ** Disputed cases (storage/sap/dms.py) and credit notes
       (ClaimManager._record_creditnote, Claim.create_status_sales) *)

Module Dms.
Import PyStr.

(** Keyword values passed to [modify_case_params]. *)
Inductive kwval : Type :=
  | KNone
  | KStr (s : string)
  | KInt (z : Z).

(** The calls that reach the ERP, in order. *)
Inductive event : Type :=
  | EvChange (attributes : list (string * kwval))
  | EvAttach (file att_name : string).

(** The case in the ERP: its attributes by [ATTR_ID], the answers of the
    lock ([true]: the next change call finds the case locked by a user) and
    the calls performed so far. *)
Record erp_state : Type := {
  case_attrs : gmap string string;
  locks : list bool;
  trace : list event
}.

Definition _field_map (key : string) : option string :=
  if String.eqb key "processor" then Some "PROCESSOR"
  else if String.eqb key "status_sales" then Some "ZZ_STAT_SL"
  else if String.eqb key "status" then Some "STAT_ORDERNO"
  else if String.eqb key "case_type" then Some "CASE_TYPE"
  else if String.eqb key "root_cause_code" then Some "FIN_ROOT_CCODE"
  else if String.eqb key "status_ac" then Some "ZZ_STAT_AC"
  else if String.eqb key "coordinator" then Some "FIN_COORDINATOR"
  else if String.eqb key "responsible" then Some "RESPONSIBLE"
  else if String.eqb key "company_code" then Some "FIN_BUKRS"
  else if String.eqb key "external_reference" then Some "EXT_REF"
  else if String.eqb key "disputed_amount" then Some "FIN_CUSTDISP_AMT"
  else if String.eqb key "case_id" then Some "EXT_KEY"
  else if String.eqb key "created_by" then Some "CREATED_BY"
  else if String.eqb key "created_on" then Some "CREATE_TIME"
  else if String.eqb key "changed_by" then Some "CHANGED_BY"
  else if String.eqb key "changed_on" then Some "CHANGE_TIME"
  else if String.eqb key "closed_by" then Some "CLOSED_BY"
  else if String.eqb key "closed_on" then Some "CLOSING_TIME"
  else if String.eqb key "title" then Some "CASE_TITLE"
  else if String.eqb key "category" then Some "CATEGORY"
  else if String.eqb key "reason" then Some "REASON_CODE"
  else if String.eqb key "customer_disputed" then Some "FIN_DISPUTED_AMT"
  else if String.eqb key "currency" then Some "FIN_CUSTDISP_CUR"
  else if String.eqb key "customer_account" then Some "FIN_KUNNR"
  else if String.eqb key "notification" then Some "ZZ_QMNUM"
  else if String.eqb key "head_office" then Some "ZZ_ZENTRALE"
  else if String.eqb key "assignment" then Some "ZZ_ZUONR"
  else if String.eqb key "branch" then Some "ZZ_FILIALE"
  else None.

Definition kw_text (v : kwval) : string :=
  match v with
  | KNone => ""
  | KStr s => s
  | KInt z => str_of_int z
  end.

Definition store_attributes (attributes : list (string * kwval))
  (attrs : gmap string string) : gmap string string :=
  fold_left (fun m '(k, v) => <[k := kw_text v]> m) attributes attrs.

(** The retry loop around [BAPI_DISPUTE_ATTRIBUTES_CHANGE]: at most
    [attempts] calls; a locked case consumes one attempt; [true] when a
    call went through. *)
Fixpoint change_attributes (attempts : nat) (attributes : list (string * kwval))
  (st : erp_state) : erp_state * bool :=
  match attempts with
  | O => (st, false)
  | S k =>
      match locks st with
      | true :: rest =>
          change_attributes k attributes
            {| case_attrs := case_attrs st; locks := rest; trace := trace st |}
      | answers =>
          ({| case_attrs := store_attributes attributes (case_attrs st);
              locks := tl answers;
              trace := (trace st ++ [EvChange attributes])%list |}, true)
      end
  end.

Definition n_attempts : nat := 20.

Fixpoint kw_get (kwargs : list (string * kwval)) (key : string) : option kwval :=
  match kwargs with
  | [] => None
  | (k, v) :: rest => if String.eqb key k then Some v else kw_get rest key
  end.

(** The status is raised one step at a time, starting from 1; the step to
    2 also writes the root cause code. *)
Fixpoint raise_status (steps : nat) (curr_status : Z) (root_cause : kwval)
  (st : erp_state) : erp_state * result bool :=
  match steps with
  | O => (st, Ok false)
  | S k =>
      let new_status := curr_status + 1 in
      let attribs_a := [("STAT_ORDERNO", KStr (str_of_int new_status))] in
      let attribs_a :=
        if new_status =? 2
        then (attribs_a ++ [("FIN_ROOT_CCODE",
                             KStr (match root_cause with
                                   | KNone => ""
                                   | v => kw_text v
                                   end))])%list
        else attribs_a in
      match change_attributes n_attempts attribs_a st with
      | (st', false) =>
          (st', Raise (RuntimeError "Attempts to handle the 'CaseLockedError' failed!"))
      | (st', true) =>
          match raise_status k new_status root_cause st' with
          | (st'', Ok updated) => (st'', Ok ((new_status =? 2) || updated))
          | r => r
          end
      end
  end.

(** The attributes of the final change: every keyword with a value, the
    status left out, the root cause left out when the status loop wrote it. *)
Fixpoint attribs_b_of (kwargs : list (string * kwval)) (root_cause_updated : bool)
  : result (list (string * kwval)) :=
  match kwargs with
  | [] => Ok []
  | (key, val) :: rest =>
      if String.eqb key "status" then attribs_b_of rest root_cause_updated
      else if String.eqb key "root_cause_code" && root_cause_updated
      then attribs_b_of rest root_cause_updated
      else
        match val with
        | KNone => attribs_b_of rest root_cause_updated
        | _ =>
            match _field_map key with
            | None => Raise (KeyError key)
            | Some attr_id =>
                bs ← attribs_b_of rest root_cause_updated;
                Ok ((attr_id, val) :: bs)
            end
        end
  end.

Definition modify_case_params (kwargs : list (string * kwval)) (st : erp_state)
  : erp_state * result unit :=
  if negb (match kw_get kwargs "root_cause_code" with
           | None | Some KNone => true
           | Some (KStr c) => str_in c ["L00"; "L01"; "L06"; "L08"; "L14"]
           | Some (KInt _) => false
           end)
  then (st, Raise (ValueError "Invalid root cause code!"))
  else
    let status_part : erp_state * result bool :=
      match kw_get kwargs "status" with
      | None | Some KNone => (st, Ok false)
      | Some (KStr _) => (st, Raise (ValueError "Invalid 'status' value!"))
      | Some (KInt status) =>
          if negb ((1 <=? status) && (status <=? 4))
          then (st, Raise (ValueError "Invalid 'status' value!"))
          else if (1 <? status)
                  && negb (bool_decide (is_Some (kw_get kwargs "root_cause_code")))
          then (st, Raise (ValueError "Status change is requested but root cause code is not provided!"))
          else raise_status (Z.to_nat (status - 1)) 1
                 (default KNone (kw_get kwargs "root_cause_code")) st
      end in
    match status_part with
    | (st1, Raise e) => (st1, Raise e)
    | (st1, Ok root_cause_updated) =>
        match attribs_b_of kwargs root_cause_updated with
        | Raise e => (st1, Raise e)
        | Ok attribs_b =>
            match change_attributes n_attempts attribs_b st1 with
            | (st2, true) => (st2, Ok tt)
            | (st2, false) =>
                (st2, Raise (RuntimeError "Attempts to handle the 'CaseLockedError' failed!"))
            end
        end
    end.

(** [dms.attach]: the upload and the link to the case. *)
Definition attach (file att_name : string) (st : erp_state) : erp_state :=
  {| case_attrs := case_attrs st; locks := locks st;
     trace := (trace st ++ [EvAttach file att_name])%list |}.

(** [dms.get_case_parameters]: the attribute of the case under the name the
    application uses, stripped of surrounding white space. *)
Definition case_param (st : erp_state) (name : string) : result string :=
  match _field_map name with
  | None => Raise (KeyError name)
  | Some attr_id =>
      match case_attrs st !! attr_id with
      | None => Raise (KeyError name)
      | Some v => Ok (strip is_space v)
      end
  end.

(** [int(s)] on the digit strings SAP returns. *)
Definition py_int (s : string) : result Z :=
  let t := strip is_space s in
  match t with
  | String "-" r =>
      if isnumeric r then Ok (- int_of_digits r)
      else Raise (ValueError "invalid literal for int()")
  | _ =>
      if isnumeric t then Ok (int_of_digits t)
      else Raise (ValueError "invalid literal for int()")
  end.

(** [Claim.create_status_sales]; [currency] renders the amount
    ([locale.currency] under de_DE, grouping on, no symbol). *)
Definition create_status_sales (currency : spec_float -> string)
  (status_sales gen_rule : string) (amount : spec_float) : result string :=
  if negb (contains "<amount>" gen_rule)
  then Raise (ValueError "Placeholder '<amount>' not found in the formatting rule!")
  else
    let fmt := currency amount in
    let repl := replace "<amount>" fmt gen_rule in
    let new_val := status_sales +:+ " " +:+ repl in
    Ok (strip is_space new_val).

(** [Claim.create_attachment_name]. *)
Definition create_attachment_name (att_rule : string) (case_id : Z) : result string :=
  if negb (contains "<case_id>" att_rule)
  then Raise (ValueError "Placeholder '<case_id>' not found in the formatting rule!")
  else Ok (replace "<case_id>" (str_of_int case_id) att_rule).

(** The part of the claim context read by [_record_creditnote]:
    [claim.threshold] and [claim.case["update"]]; the threshold and the
    amount are floats. *)
Record credit_claim : Type := {
  threshold : spec_float;
  amount : spec_float;
  status_sales : string;
  attachment_name : string;
  coordinator : kwval;
  processor : kwval;
  responsible : kwval
}.

Definition Qlt_bool (a b : Q) : bool := negb (Qle_bool b a).

Definition lift {A : Type} (st : erp_state) (r : result A)
  (k : A -> erp_state * result Z) : erp_state * result Z :=
  match r with
  | Ok a => k a
  | Raise e => (st, Raise e)
  end.

(** [ClaimManager._record_creditnote]; [pdf] is the first PDF of the record
    in the working directory, if any. *)
Definition _record_creditnote (currency : spec_float -> string)
  (claim : credit_claim) (pdf : option string) (st : erp_state)
  : erp_state * result Z :=
  let document_amount := amount claim in
  lift st (case_param st "disputed_amount") (fun disputed =>
  lift st (Numbers.parse_number (AStr disputed) Numbers.CoerceNone Numbers.ErrRaise)
    (fun parsed =>
  match parsed with
  | ANum n =>
  (* the number as Python holds it: an int, or the float of the division *)
  lift st (PyFloat.of_num n) (fun disp_amount =>
  lift st (case_param st "case_id") (fun case_id_str =>
  lift st (py_int case_id_str) (fun case_id =>
  lift st (case_param st "root_cause_code") (fun root_cause_code =>
  lift st (case_param st "status") (fun status_str =>
  lift st (py_int status_str) (fun status =>
  lift st (case_param st "status_sales") (fun prev_status_sales =>
  lift st (create_status_sales currency prev_status_sales (status_sales claim)
             document_amount) (fun new_stat_sl =>
  let new_root_cause :=
    if PyFloat.gtb disp_amount (threshold claim)
       && negb (str_in root_cause_code ["L01"; "L06"])
    then KStr "L01" else KNone in
  lift st (PyFloat.sub disp_amount document_amount) (fun diff =>
  let new_status :=
    if PyFloat.ltb diff (threshold claim) && (status =? 1)
    then KInt 2 else KNone in
  match modify_case_params
          [("processor", processor claim);
           ("coordinator", coordinator claim);
           ("responsible", responsible claim);
           ("root_cause_code", new_root_cause);
           ("status_sales", KStr new_stat_sl);
           ("status", new_status);
           ("reason", KStr "XXX")] st with
  | (st1, Raise e) => (st1, Raise e)
  | (st1, Ok _) =>
      (* attaching the PDF comes as the last step *)
      lift st1 (create_attachment_name (attachment_name claim) case_id)
        (fun att_name =>
      match pdf with
      | None => (st1, Raise IndexError)
      | Some path => (attach path att_name st1, Ok case_id)
      end)
  end)))))))))
  | _ => (st, Raise (TypeError "unsupported operand"))
  end)).

(** [locale.currency(amount, grouping = True, symbol = False)] under
    de_DE: ['%.2f' % abs(amount)] with "." between thousands and ","
    before the decimals, behind the sign of a negative amount; an infinity
    and a NaN are spelled out. *)
Definition currency_de (f : spec_float) : string :=
  match PyFloat.hundredths f with
  | Some cents =>
      NumberFormat.spec_format_number NumberFormat.german
        (PyFloat.is_negative f) (Z.to_N cents) 2
  | None =>
      match f with
      | S754_infinity true => "-inf"
      | S754_infinity false => "inf"
      | _ => "nan"
      end
  end.

Definition attrs_written (id : string) (v : kwval) (evs : list event) : Prop :=
  exists attributes, In (EvChange attributes) evs /\ In (id, v) attributes.

Definition is_change (ev : event) : Prop :=
  match ev with
  | EvChange _ => True
  | EvAttach _ _ => False
  end.

End Dms.

(** ** A credit note of 1500 against an open case disputed for 1500 *)

Module CreditSample.
Import Dms.

Definition sample_case : erp_state :=
  {| case_attrs :=
       <["FIN_CUSTDISP_AMT" := "1.500,00"]>
       (<["EXT_KEY" := "4711"]>
       (<["FIN_ROOT_CCODE" := ""]>
       (<["STAT_ORDERNO" := "1"]>
       (<["ZZ_STAT_SL" := "DN 88231"]> ∅))));
     locks := [true; false; true];
     trace := [] |}.

Definition sample_credit : credit_claim :=
  {| threshold := PyFloat.of_int 500;
     amount := PyFloat.of_int 1500;
     status_sales := "CN <amount>";
     attachment_name := "CN_<case_id>";
     coordinator := KStr "COORD";
     processor := KStr "PROC";
     responsible := KNone |}.

(** An open case disputed for 520,30 and a credit note of 20.30 against
    it, at a threshold of 500: in decimals the rest is the threshold. *)
Definition boundary_case : erp_state :=
  {| case_attrs :=
       <["FIN_CUSTDISP_AMT" := "520,30"]>
       (<["EXT_KEY" := "4712"]>
       (<["FIN_ROOT_CCODE" := ""]>
       (<["STAT_ORDERNO" := "1"]>
       (<["ZZ_STAT_SL" := "DN 88232"]> ∅))));
     locks := [];
     trace := [] |}.

Definition boundary_credit : credit_claim :=
  {| threshold := PyFloat.of_int 500;
     amount := PyFloat.of_Q (2030 # 100);
     status_sales := "CN <amount>";
     attachment_name := "CN_<case_id>";
     coordinator := KStr "COORD";
     processor := KStr "PROC";
     responsible := KNone |}.

End CreditSample.

(** ** Document registration (svc_downloader/__init__.py, storage/database.py) *)

Module Downloader.
Import PyStr.

(** A row of the documents table. *)
Record doc_record : Type := {
  id : Z;
  message_id : string;
  subfolder : string;
  message_category : option string;
  control_category : option string;
  doc_status : string;
  doc_hash : string;
  link : option string
}.

(** Column updates used by the downloader. *)
Definition set_subfolder (v : string) (r : doc_record) : doc_record :=
  {| id := id r; message_id := message_id r; subfolder := v;
     message_category := message_category r;
     control_category := control_category r; doc_status := doc_status r;
     doc_hash := doc_hash r; link := link r |}.

Definition set_control_category (v : option string) (r : doc_record) : doc_record :=
  {| id := id r; message_id := message_id r; subfolder := subfolder r;
     message_category := message_category r;
     control_category := v; doc_status := doc_status r;
     doc_hash := doc_hash r; link := link r |}.

Definition set_message_category (v : option string) (r : doc_record) : doc_record :=
  {| id := id r; message_id := message_id r; subfolder := subfolder r;
     message_category := v;
     control_category := control_category r; doc_status := doc_status r;
     doc_hash := doc_hash r; link := link r |}.

Definition set_doc_status (v : string) (r : doc_record) : doc_record :=
  {| id := id r; message_id := message_id r; subfolder := subfolder r;
     message_category := message_category r;
     control_category := control_category r; doc_status := v;
     doc_hash := doc_hash r; link := link r |}.

Definition set_message_id (v : string) (r : doc_record) : doc_record :=
  {| id := id r; message_id := v; subfolder := subfolder r;
     message_category := message_category r;
     control_category := control_category r; doc_status := doc_status r;
     doc_hash := doc_hash r; link := link r |}.

Definition set_link (v : option string) (r : doc_record) : doc_record :=
  {| id := id r; message_id := message_id r; subfolder := subfolder r;
     message_category := message_category r;
     control_category := control_category r; doc_status := doc_status r;
     doc_hash := doc_hash r; link := v |}.

Definition table : Type := list doc_record.

(** [db.get_records(table, col = "doc_hash", value = h)]. *)
Definition get_records (t : table) (h : string) : list doc_record :=
  List.filter (fun r => String.eqb (doc_hash r) h) t.

(** [db.update_record(table, rec_id, column = value)]. *)
Definition update_record (t : table) (rec_id : Z) (upd : doc_record -> doc_record)
  : table :=
  (fun r => if id r =? rec_id then upd r else r) <$> t.

(** [db.get_value(table, rec_id, "message_category")]. *)
Definition get_message_category (t : table) (rec_id : Z) : result (option string) :=
  match List.find (fun r => id r =? rec_id) t with
  | Some r => Ok (message_category r)
  | None => Raise (KeyError "RecordNotFoundError")
  end.

(** The primary key the database gives to a new row. *)
Definition next_id (t : table) : Z :=
  1 + fold_right Z.max 0 (id <$> t).

(** [db.create_record]. *)
Definition create_record (t : table) (msg_id cust_folder : string)
  (categ control : option string) (status file_hash : string) : table * Z :=
  let rec_id := next_id t in
  ((t ++ [{| id := rec_id; message_id := msg_id; subfolder := cust_folder;
             message_category := categ; control_category := control;
             doc_status := status; doc_hash := file_hash; link := None |}])%list,
   rec_id).

(** What [_save_message_data] made of the message. *)
Inductive save_outcome : Type :=
  | Saved
  | InvalidAttachments
  | SaveFailed (msg : string).

(** A message of the customer folder: its id, the categories the user
    applied, the hash the robot wrote into the body on an earlier pass
    ([find_hash_value]), the SHA-256 digest of the PDF saved from it
    ([File.calculate_hash]), and the outcomes of the file operations. *)
Record message : Type := {
  msg_id : string;
  categories : list string;
  hash_note : option string;
  content_hash : string;
  saved : save_outcome;
  rename_ok : bool
}.

Record config : Type := {
  cust_folder : string;
  msg_categs : list string;
  ctrl_categs : list string;
  temp_folder : string;
  failed_folder : string;
  done_folder : string;
  registered : string;
  extractor_ai : bool
}.

(** What the pass does outside the database. *)
Inductive action : Type :=
  | MoveMessage (msg folder : string)
  | AppendText (msg text : string)
  | DeleteMessage (msg : string)
  | RemoveFile
  | RenameFile (rec_id : Z)
  | UploadBlob.

Definition _get_message_category (msg : message) (msg_categs ctrl_categs : list string)
  : result (option string * option string) :=
  let valid_categs := (msg_categs ++ ctrl_categs)%list in
  let categs := remove_dups (List.filter (fun c => str_in c valid_categs) (categories msg)) in
  match categs with
  | [] => Ok (None, None)
  | [c] => if str_in c ctrl_categs then Ok (None, Some c) else Ok (Some c, None)
  | [c0; c1] =>
      if str_in c0 ctrl_categs && str_in c1 msg_categs then Ok (Some c1, Some c0)
      else if str_in c1 ctrl_categs && str_in c0 msg_categs then Ok (Some c0, Some c1)
      else Raise (RuntimeError "Invalid message category combination!")
  | _ => Raise (RuntimeError "Invalid message category combination!")
  end.

(** The hash the record is looked up by: the value of the note
    [hash = ...] in the body of the message when there is one
    ([mails.find_hash_value]), and only otherwise the SHA-256 digest of the
    saved PDF ([pdf_file.calculate_hash()]). *)
Definition file_hash_of (msg : message) : string :=
  match hash_note msg with
  | Some h => strip is_space h
  | None => content_hash msg
  end.

Definition file_path (cust_folder : string) (rec_id : Z) : string :=
  lower cust_folder +:+ "_document_id=" +:+ str_of_int rec_id +:+ ".pdf".

Definition option_eqb (a b : option string) : bool :=
  match a, b with
  | Some x, Some y => String.eqb x y
  | None, None => true
  | _, _ => false
  end.

(** How a turn of the loop ends: the loop takes the next message, or an
    exception leaves [_download_emails_data]; [provide] logs it and goes on
    with the next customer folder. *)
Inductive ending : Type :=
  | NextMessage
  | Leaves (e : exn).

(** What a turn of the loop leaves: the table, what was done outside the
    database, and how the turn ended. *)
Record turn : Type := {
  records : table;
  actions : list action;
  ends : ending
}.

(** [s.endswith(suffix)]. *)
Definition endswith (suffix s : string) : bool :=
  (String.length suffix <=? String.length s)%nat
  && String.eqb
       (substring (String.length s - String.length suffix) (String.length suffix) s)
       suffix.

(** [mails.get_message(account, email_id)]: the id is put between angle
    brackets and looked up among the message ids of the inbox and its
    folders; [None] when no message has it. *)
Definition bracketed (email_id : string) : string :=
  let email_id := if startswith "<" email_id then email_id else "<" +:+ email_id in
  if endswith ">" email_id then email_id else email_id +:+ ">".

Definition get_message (inbox : list string) (email_id : string) : option string :=
  let email_id := bracketed email_id in
  if str_in email_id inbox then Some email_id else None.

(** The end of the loop body: the file is renamed after the record, the
    link stored and the message filed for the next stage. *)
Definition store_file (cfg : config) (msg : message) (t : table) (rec_id : Z)
  (acts : list action) : turn :=
  if negb (rename_ok msg)
  then {| records := t;
          actions := (acts ++ [AppendText (msg_id msg) "G.ROBOT_RFC (ERROR): rename"])%list;
          ends := NextMessage |}
  else
    let t' := update_record t rec_id
                (set_link (Some (file_path (cust_folder cfg) rec_id))) in
    {| records := t';
       actions := (acts ++ [RenameFile rec_id;
                            MoveMessage (msg_id msg) (temp_folder cfg);
                            AppendText (msg_id msg)
                              "G.ROBOT_RFC (INFO): Message attachment downloaded."]
                        ++ (if extractor_ai cfg then [UploadBlob] else []))%list;
       ends := NextMessage |}.

(** One turn of the loop of [_download_emails_data]; [inbox] holds the ids
    of the messages of the account. *)
Definition download_message (cfg : config) (inbox : list string) (msg : message)
  (t : table) : turn :=
  match saved msg with
  | InvalidAttachments =>
      {| records := t;
         actions := [MoveMessage (msg_id msg) (failed_folder cfg);
                     AppendText (msg_id msg)
                       "G.ROBOT_RFC (ERROR): Invalid message attachment!"];
         ends := NextMessage |}
  | SaveFailed e =>
      {| records := t;
         actions := [AppendText (msg_id msg) ("G.ROBOT_RFC (ERROR): " +:+ e)];
         ends := NextMessage |}
  | Saved =>
      match _get_message_category msg (msg_categs cfg) (ctrl_categs cfg) with
      | Raise _ =>
          {| records := t;
             actions := [RemoveFile; MoveMessage (msg_id msg) (failed_folder cfg);
                         AppendText (msg_id msg) "G.ROBOT_RFC (ERROR): category"];
             ends := NextMessage |}
      | Ok (categ, control) =>
          let file_hash := file_hash_of msg in
          let acts :=
            match hash_note msg with
            | Some _ => []
            | None => [AppendText (msg_id msg) ("G.ROBOT_RFC (INFO): hash = " +:+ file_hash)]
            end in
          let recs := get_records t file_hash in
          match recs with
          | _ :: _ :: _ =>
              (* the file is removed before the text is written; the second
                 [pdf_file.remove()] finds no path left to remove *)
              {| records := t;
                 actions := (acts ++ [RemoveFile;
                                      AppendText (msg_id msg)
                                        "G.ROBOT_RFC (ERROR): More than one copy of the file found in database!"])%list;
                 ends := Leaves (TypeError "remove: path should be string, bytes or os.PathLike, not NoneType") |}
          | [] =>
              let '(t1, rec_id) :=
                create_record t (msg_id msg) (cust_folder cfg) categ control
                  (registered cfg) file_hash in
              store_file cfg msg t1 rec_id acts
          | [rec] =>
              let rec_id := id rec in
              let prev_status := doc_status rec in
              let prev_msg_id := message_id rec in
              let t1 := update_record t rec_id (set_subfolder (cust_folder cfg)) in
              let ignore := option_eqb control (Some "IGNORE_ALREADY_EXISTING") in
              if negb ignore && str_in prev_status ["completed"; "done"; "duplicate"]
              then {| records := t1;
                      actions := (acts ++ [MoveMessage (msg_id msg) (done_folder cfg);
                                           RemoveFile])%list;
                      ends := NextMessage |}
              else
                let t2 :=
                  if ignore
                  then update_record t1 rec_id (set_control_category control)
                  else t1 in
                match get_message_category t2 rec_id with
                | Raise e => {| records := t2; actions := acts; ends := Leaves e |}
                | Ok prev_categ =>
                    let new_status := registered cfg in
                    let t3 :=
                      if negb (option_eqb prev_categ categ)
                      then update_record t2 rec_id (set_message_category categ)
                      else t2 in
                    let t4 :=
                      if negb (String.eqb prev_status new_status)
                      then update_record t3 rec_id (set_doc_status new_status)
                      else t3 in
                    if negb (String.eqb prev_msg_id (msg_id msg))
                    then
                      let t5 := update_record t4 rec_id (set_message_id (msg_id msg)) in
                      (* [delete_message(get_message(account, prev_msg_id))] *)
                      match get_message inbox prev_msg_id with
                      | None => {| records := t5; actions := acts;
                                   ends := Leaves AttributeError |}
                      | Some prev_msg =>
                          store_file cfg msg t5 rec_id
                            (acts ++ [DeleteMessage prev_msg])%list
                      end
                    else store_file cfg msg t4 rec_id acts
                end
          end
      end
  end.


Definition ignores_existing (msg : message) (cfg : config) : bool :=
  match _get_message_category msg (msg_categs cfg) (ctrl_categs cfg) with
  | Ok (_, control) => option_eqb control (Some "IGNORE_ALREADY_EXISTING")
  | Raise _ => false
  end.

Definition sample_config : config :=
  {| cust_folder := "OBI_DE";
     msg_categs := ["RETURN"; "PENALTY"];
     ctrl_categs := ["IGNORE_ALREADY_EXISTING"];
     temp_folder := "temp"; failed_folder := "failed"; done_folder := "done";
     registered := "document_registration_success";
     extractor_ai := false |}.

Definition completed_record : doc_record :=
  {| id := 7; message_id := "msg-1"; subfolder := "OBI_DE";
     message_category := None; control_category := None;
     doc_status := "completed"; doc_hash := "9f2c"; link := None |}.


Definition override_message : message :=
  {| msg_id := "msg-2"; categories := ["IGNORE_ALREADY_EXISTING"];
     hash_note := None; content_hash := "9f2c"; saved := Saved;
     rename_ok := true |}.

(** The same PDF in a message whose body carries the note of another
    document. *)
Definition noted_message : message :=
  {| msg_id := "msg-3"; categories := []; hash_note := Some "77aa";
     content_hash := "9f2c"; saved := Saved; rename_ok := true |}.

(** A mailbox that still holds the first message, and one it was deleted
    from. *)
Definition sample_inbox : list string := ["<msg-1>"; "<msg-2>"].

Definition emptied_inbox : list string := ["<msg-2>"].

End Downloader.

(** ** Python arithmetic on numbers *)

Module PyNum.

Definition num_add (a b : num) : num :=
  match a, b with
  | NInt x, NInt y => NInt (x + y)
  | _, _ => NFloat (num_val a + num_val b)
  end.

Definition num_sub (a b : num) : num :=
  match a, b with
  | NInt x, NInt y => NInt (x - y)
  | _, _ => NFloat (num_val a - num_val b)
  end.

Definition num_mul (a b : num) : num :=
  match a, b with
  | NInt x, NInt y => NInt (x * y)
  | _, _ => NFloat (num_val a * num_val b)
  end.

(** True division: always a float; a zero divisor raises. *)
Definition num_div (a b : num) : result num :=
  if Qeq_bool (num_val b) 0 then Raise ZeroDivisionError
  else Ok (NFloat (num_val a / num_val b)).

Definition num_eqb (a b : num) : bool := Qeq_bool (num_val a) (num_val b).

Definition num_leb (a b : num) : bool := Qle_bool (num_val a) (num_val b).

Definition num_abs (a : num) : num :=
  match a with
  | NInt x => NInt (Z.abs x)
  | NFloat q => NFloat (Qabs q)
  end.

(** [int(x)]. *)
Definition num_int (a : num) : Z :=
  match a with
  | NInt x => x
  | NFloat q => Numbers.Qtruncate q
  end.

(** Nearest integer, ties to even. *)
Definition round_half_even (q : Q) : Z :=
  let f := Qfloor q in
  let r := (q - inject_Z f)%Q in
  match Qcompare r (1 # 2) with
  | Lt => f
  | Gt => f + 1
  | Eq => if Z.even f then f else f + 1
  end.

(** [round(x, 2)]: an [int] is returned as it is. *)
Definition round2 (a : num) : num :=
  match a with
  | NInt x => NInt x
  | NFloat q => NFloat (inject_Z (round_half_even (q * inject_Z 100)) / inject_Z 100)
  end.

(** [math.isclose(a, b, rel_tol = 0.01)]. *)
Definition isclose (a b : num) : bool :=
  let x := num_val a in
  let y := num_val b in
  Qle_bool (Qabs (x - y))
    (Qmax ((1 # 100) * Qmax (Qabs x) (Qabs y)) 0).

End PyNum.

(** ** The regular expression engine and the iteration order of sets

    Both are outside the repository: [re.findall] returns, for every match,
    a string or the tuple of its groups; [re.sub] rewrites a text;
    [list(set(l))] keeps one copy of every element in an order the program
    does not control. *)

Inductive rmatch : Type :=
  | MStr (s : string)
  | MTup (l : list string).

Global Instance rmatch_eq_dec : EqDecision rmatch.
Proof. solve_decision. Defined.

Class Runtime : Type := {
  re_findall : string -> string -> list rmatch;
  re_sub : string -> string -> string -> string;
  set_list : list rmatch -> list rmatch;
  set_list_perm : forall l, set_list l ≡ₚ remove_dups l
}.

(** A scripted engine: the matches of every pattern are given by a table,
    whatever the text; substitution leaves the text as it is. *)
Fixpoint scripted_findall (script : list (string * list rmatch)) (pattern : string)
  : list rmatch :=
  match script with
  | [] => []
  | (p, ms) :: rest =>
      if String.eqb pattern p then ms else scripted_findall rest pattern
  end.

Definition scripted (script : list (string * list rmatch)) : Runtime :=
  {| re_findall := fun pattern _ => scripted_findall script pattern;
     re_sub := fun _ _ text => text;
     set_list := remove_dups;
     set_list_perm := fun l => reflexivity (remove_dups l) |}.

Definition atom_of (m : rmatch) : atom :=
  match m with
  | MStr s => AStr s
  | MTup l => ATup l
  end.

(** The elements a loop over a match visits: the groups of a tuple, the
    characters of a string. *)
Definition elems (m : rmatch) : list string :=
  match m with
  | MStr s => PyStr.chars s
  | MTup l => l
  end.

(** [item[k]]. *)
Definition item_get (m : rmatch) (k : nat) : result string :=
  match nth_error (elems m) k with
  | Some s => Ok s
  | None => Raise IndexError
  end.

(** ** Line item reconcilers (svc_extractor/parsers.py) *)

Module Items.
Import PyStr Numbers PyNum.

Definition rows : Type := list (list atom).

(** What [parse_items] returns: the parsed rows or [None], and the records
    written to the logs. *)
Definition outcome : Type := (option rows * list log_entry)%type.

Definition msg_sum : string :=
  "Sum of item amounts not equal to the document total amount!".

Definition msg_removed : string :=
  "Field 'items' will be removed from extracted data.".

Definition msg_rate : string := "Invalid tax rate in document items!".

(** The three log calls of a mismatch: global log, document log, warning. *)
Definition mismatch_log : list log_entry :=
  [LogError msg_sum; LogError msg_sum; LogWarning msg_removed].

Definition rate_log : list log_entry :=
  [LogError msg_rate; LogError msg_rate; LogWarning msg_removed].

(** [parse_number] with the default [errors = "raise"], as a number. *)
Definition parse_num (s : string) (coerce : coerce_t) : result num :=
  a ← parse_number (AStr s) coerce ErrRaise;
  match a with
  | ANum n => Ok n
  | _ => Raise (TypeError "unsupported operand")
  end.

(** A number out of a parsed cell, for the arithmetic on rows. *)
Definition cell_num (a : option atom) : result num :=
  match a with
  | None => Raise IndexError
  | Some (ANum n) => Ok n
  | Some _ => Raise (TypeError "unsupported operand")
  end.

(** [\d+,\d{k}] at the start of the string; [full]: up to its end. *)
Fixpoint take_digits (k : nat) (s : string) : option string :=
  match k with
  | O => Some s
  | S k' =>
      match s with
      | String c s' => if is_digit c then take_digits k' s' else None
      | EmptyString => None
      end
  end.

Fixpoint digits_comma (seen : bool) (k : nat) (full : bool) (s : string) : bool :=
  match s with
  | EmptyString => false
  | String c s' =>
      if is_digit c then digits_comma true k full s'
      else if Ascii.eqb c "," && seen then
        match take_digits k s' with
        | Some rest => if full then String.eqb rest "" else true
        | None => false
        end
      else false
  end.

Definition re_quantity (s : string) : bool := digits_comma false 3 true s.
Definition re_price (s : string) : bool := digits_comma false 4 false s.
Definition re_value (s : string) : bool := digits_comma false 2 false s.

(** *** MarkantParser: [_parse_bgl_debit], [_parse_dp_debit] and
        [_parse_debit] have the same body. *)
Module Markant.

Definition fill (cell filler : string) : string :=
  if String.eqb cell "" then filler else cell.

Definition parse_item (item : rmatch)
  : result (list atom * num * num)%type :=
  i1 ← item_get item 1;
  i2 ← item_get item 2;
  i3 ← item_get item 3;
  i4 ← item_get item 4;
  i0 ← item_get item 0;
  doc_diff ← parse_num i0 CoerceFloat;
  pcs_ordered ← parse_num (fill i1 "0,000") CoerceInt;
  pcs_delivered ← parse_num (fill i2 "0,000") CoerceInt;
  price_ordered ← parse_num (fill i3 "0,0000") CoerceFloat;
  price_delivered ← parse_num (fill i4 "0,0000") CoerceFloat;
  let zero := NInt 0 in
  let calc_diff :=
    if num_eqb pcs_ordered zero && num_eqb pcs_delivered zero
       && num_eqb price_delivered zero && num_eqb price_ordered zero
    then doc_diff
    else if num_eqb pcs_ordered zero && num_eqb pcs_delivered zero
    then num_sub price_delivered price_ordered
    else if num_eqb price_delivered zero && num_eqb price_ordered zero
    then doc_diff
    else if num_eqb pcs_ordered pcs_delivered
    then num_mul (num_sub price_delivered price_ordered) pcs_ordered
    else if num_eqb price_delivered price_ordered
    then num_mul (num_sub pcs_ordered pcs_delivered) price_ordered
    else num_mul (num_sub pcs_ordered pcs_delivered)
                 (num_sub price_delivered price_ordered) in
  let calc_diff := num_abs (round2 calc_diff) in
  Ok ([ANum doc_diff; ANum pcs_ordered; ANum pcs_delivered;
       ANum price_ordered; ANum price_delivered], doc_diff, calc_diff).

Fixpoint loop (items : list rmatch) (res : rows)
  (doc_items_amount calc_items_amount : num) : result (rows * num * num)%type :=
  match items with
  | [] => Ok (res, doc_items_amount, calc_items_amount)
  | item :: rest =>
      '(row, doc_diff, calc_diff) ← parse_item item;
      loop rest (res ++ [row])%list
        (num_add doc_items_amount doc_diff)
        (num_add calc_items_amount calc_diff)
  end.

Definition _parse_debit (items : list rmatch) (amount : num) : result outcome :=
  '(res, doc_items_amount, calc_items_amount) ← loop items [] (NInt 0) (NInt 0);
  let doc_items_amount := round2 doc_items_amount in
  let calc_items_amount := round2 calc_items_amount in
  if negb (num_eqb (num_add doc_items_amount calc_items_amount)
                   (num_mul amount (NInt 2)))
  then Ok (None, mismatch_log)
  else Ok (Some res, []).

End Markant.

(** *** ObiParser *)
Module Obi.

Definition parse_delivery_cell (val : string) : result atom :=
  if re_quantity val then ANum <$> parse_num val CoerceInt
  else if re_price val then ANum <$> parse_num val CoerceFloat
  else if re_value val then ANum <$> parse_num val CoerceFloat
  else Ok (AStr val).

Fixpoint delivery_loop (items : list rmatch) (res : rows) (items_amount : num)
  : result (rows * num)%type :=
  match items with
  | [] => Ok (res, items_amount)
  | item :: rest =>
      parsed_item ← mapM parse_delivery_cell (elems item);
      a ← cell_num (nth_error parsed_item 5);
      b ← cell_num (nth_error parsed_item 2);
      delivery_loop rest (res ++ [parsed_item])%list
        (num_add items_amount (num_sub a b))
  end.

Definition _parse_delivery (items : list rmatch) (amount : num) : result outcome :=
  '(res, items_amount) ← delivery_loop items [] (NInt 0);
  if negb (num_eqb (round2 items_amount) amount)
  then Ok (None, mismatch_log)
  else Ok (Some res, []).

Definition parse_return_cell (val : string) : result atom :=
  if String.eqb val "" then Ok (ANum (NFloat 0))
  else if isnumeric val then ANum <$> parse_num val CoerceInt
  else if re_quantity val then ANum <$> parse_num val CoerceInt
  else if re_price val then ANum <$> parse_num val CoerceFloat
  else if re_value val then ANum <$> parse_num val CoerceFloat
  else Ok (AStr val).

Fixpoint return_loop (items : list rmatch) (res : rows) (items_amount : num)
  : result (rows * num)%type :=
  match items with
  | [] => Ok (res, items_amount)
  | item :: rest =>
      parsed_item ← mapM parse_return_cell (elems item);
      a ← cell_num (List.last (Some <$> parsed_item) None);
      return_loop rest (res ++ [parsed_item])%list (num_add items_amount a)
  end.

Definition _parse_return (items : list rmatch) (amount : num) : result outcome :=
  '(res, items_amount) ← return_loop items [] (NInt 0);
  if negb (num_eqb (round2 items_amount) amount)
  then Ok (None, mismatch_log)
  else Ok (Some res, []).

(** The loop stops at the first line whose rate is neither 2 nor 25; the
    flag tells whether it did. *)
Fixpoint penalty_loop (items : list rmatch) (res : rows) (items_amount : num)
  : result (rows * num * bool)%type :=
  match items with
  | [] => Ok (res, items_amount, false)
  | item :: rest =>
      i0 ← item_get item 0;
      partial_penalty ← parse_num i0 CoerceNone;
      i1 ← item_get item 1;
      po_number ← parse_num i1 CoerceInt;
      i2 ← item_get item 2;
      item_amount ← parse_num i2 CoerceNone;
      let res := (res ++ [[ANum partial_penalty; ANum po_number;
                                 ANum item_amount]])%list in
      ratio ← num_div partial_penalty item_amount;
      let calc_rate := num_int (num_mul ratio (NInt 100)) in
      if (calc_rate =? 2) || (calc_rate =? 25)
      then penalty_loop rest res (num_add items_amount partial_penalty)
      else Ok (res, items_amount, true)
  end.

Definition _parse_penalty (items : list rmatch) (amount : num) : result outcome :=
  '(res, items_amount, err_tax_rate) ← penalty_loop items [] (NInt 0);
  if err_tax_rate : bool then Ok (None, rate_log)
  else if negb (num_eqb (round2 items_amount) amount)
  then Ok (None, mismatch_log)
  else Ok (Some res, []).

End Obi.

(** *** RollerParser *)
Module Roller.

Fixpoint loop (items : list rmatch) (res : rows) (items_amount : num)
  : result (rows * num)%type :=
  match items with
  | [] => Ok (res, items_amount)
  | item :: rest =>
      i0 ← item_get item 0;
      n_pieces ← parse_num i0 CoerceInt;
      i1 ← item_get item 1;
      amount_net ← parse_num i1 CoerceFloat;
      i2 ← item_get item 2;
      tax_rate ← parse_num i2 CoerceFloat;
      i3 ← item_get item 3;
      amount_tax ← parse_num i3 CoerceFloat;
      i4 ← item_get item 4;
      amount_gross ← parse_num i4 CoerceFloat;
      if num_leb n_pieces (NInt 0)
      then Raise (ValueError "Number of pieces must be a positive integer!")
      else if negb (num_eqb tax_rate (NInt 19) || num_eqb tax_rate (NInt 0))
      then Raise (ValueError "Incorrect tax rate!")
      else if num_leb amount_gross (NInt 0)
      then Raise (ValueError "Item gross amount must be a positive float!")
      else
        (* the total is overwritten by every line, not accumulated *)
        loop rest
          (res ++ [[ANum n_pieces; ANum amount_net; ANum tax_rate;
                       ANum amount_gross]])%list
          (num_add amount_net amount_tax)
  end.

Definition _parse_return (items : list rmatch) (amount : num) : result outcome :=
  '(res, items_amount) ← loop items [] (NInt 0);
  if negb (num_eqb (round2 items_amount) amount)
  then Ok (None, mismatch_log)
  else Ok (Some res, []).

End Roller.

(** *** ToomParser *)
Module Toom.

Fixpoint loop (items : list rmatch) (res : rows) (items_gross_amount : num)
  : result (rows * num)%type :=
  match items with
  | [] => Ok (res, items_gross_amount)
  | item :: rest =>
      i0 ← item_get item 0;
      tax_rate ← parse_num i0 CoerceFloat;
      i1 ← item_get item 1;
      n_pieces ← parse_num i1 CoerceInt;
      i2 ← item_get item 2;
      amount_net ← parse_num i2 CoerceFloat;
      ratio ← num_div tax_rate (NInt 100);
      loop rest (res ++ [[ANum tax_rate; ANum n_pieces; ANum amount_net]])%list
        (num_add items_gross_amount
           (num_mul (num_mul amount_net n_pieces) (num_add (NInt 1) ratio)))
  end.

Definition _parse_return (items : list rmatch) (amount : num) : result outcome :=
  '(res, items_gross_amount) ← loop items [] (NInt 0);
  if negb (isclose items_gross_amount amount)
  then Ok (None, mismatch_log)
  else Ok (Some res, []).

End Toom.

(** *** HornbachParser *)
Module Hornbach.

Fixpoint loop (items : list rmatch) (res : rows) (items_gross_amount : num)
  : result (rows * num)%type :=
  match items with
  | [] => Ok (res, items_gross_amount)
  | item :: rest =>
      i0 ← item_get item 0;
      article_num ← parse_number (AStr i0) CoerceInt ErrDevaluate;
      i1 ← item_get item 1;
      deliv_num ← parse_num i1 CoerceInt;
      i3 ← item_get item 3;
      n_invoiced ← parse_num i3 CoerceInt;
      i2 ← item_get item 2;
      n_delivered ← parse_num i2 CoerceInt;
      i4 ← item_get item 4;
      amount_ordered ← parse_num i4 CoerceFloat;
      i5 ← item_get item 5;
      amount_invoiced ← parse_num i5 CoerceFloat;
      i6 ← item_get item 6;
      item_net_amount ← parse_num i6 CoerceFloat;
      i7 ← item_get item 7;
      tax_rate ← parse_num i7 CoerceFloat;
      let row := [article_num; ANum deliv_num; ANum n_delivered; ANum n_invoiced;
                  ANum amount_ordered; ANum amount_invoiced;
                  ANum item_net_amount; ANum tax_rate] in
      let amount_invoiced :=
        if num_eqb amount_invoiced amount_ordered then NInt 0 else amount_invoiced in
      ratio ← num_div tax_rate (NInt 100);
      let gross_amount :=
        num_mul (num_mul (num_sub n_invoiced n_delivered)
                         (num_add amount_invoiced amount_ordered))
                (num_add (NInt 1) ratio) in
      loop rest (res ++ [row])%list (num_add items_gross_amount gross_amount)
  end.

Definition _parse_delivery_price (items : list rmatch) (amount : num)
  : result outcome :=
  '(res, items_gross_amount) ← loop items [] (NInt 0);
  if negb (isclose items_gross_amount amount)
  then Ok (None, mismatch_log)
  else Ok (Some res, []).

End Hornbach.

(** The parser of a template: the plain [Parser] or a composite parser
    bound to the template id its dispatcher knows. *)
Inductive parser_t : Type :=
  | PlainParser
  | MarkantParser (template_id : string)
  | ObiParser (template_id : string)
  | RollerParser (template_id : string)
  | ToomParser (template_id : string)
  | HornbachParser (template_id : string).

Definition dispatcher_has (p : parser_t) : bool :=
  match p with
  | PlainParser => true
  | MarkantParser tid => str_in tid ["141001DE002"; "141001DE003"; "141001DE011"]
  | ObiParser tid =>
      str_in tid ["161001DE005"; "161001DE001"; "161072AT005"; "161001DE007"]
  | RollerParser tid => str_in tid ["171001DE001"]
  | ToomParser tid => str_in tid ["181001DE001"]
  | HornbachParser tid => str_in tid ["211072AT001"; "211001DE001"]
  end.

(** [create_template]: the parser by issuer; a template id the dispatcher
    does not know falls back to the plain parser. *)
Definition create_parser (issuer template_id : string) : parser_t :=
  let p :=
    if str_in issuer ["OBI_AT"; "OBI_DE"] then ObiParser template_id
    else if String.eqb issuer "MARKANT_DE" then MarkantParser template_id
    else if String.eqb issuer "ROLLER_DE" then RollerParser template_id
    else if str_in issuer ["HORNBACH_AT"; "HORNBACH_DE"] then HornbachParser template_id
    else PlainParser in
  if dispatcher_has p then p else PlainParser.

(** [isinstance(self.parser, CompositeParser)]. *)
Definition is_composite (p : parser_t) : bool :=
  match p with
  | PlainParser => false
  | _ => true
  end.

(** [parser.parse_items(items, amount)] through the dispatcher. *)
Definition parse_items (p : parser_t) (items : list rmatch) (amount : num)
  : result outcome :=
  match p with
  | PlainParser => Raise AttributeError
  | MarkantParser tid =>
      if str_in tid ["141001DE002"; "141001DE003"; "141001DE011"]
      then Markant._parse_debit items amount
      else Raise (KeyError tid)
  | ObiParser tid =>
      if String.eqb tid "161001DE005" then Obi._parse_delivery items amount
      else if str_in tid ["161001DE001"; "161072AT005"]
      then Obi._parse_penalty items amount
      else if String.eqb tid "161001DE007" then Obi._parse_return items amount
      else Raise (KeyError tid)
  | RollerParser tid =>
      if String.eqb tid "171001DE001" then Roller._parse_return items amount
      else Raise (KeyError tid)
  | ToomParser tid =>
      if String.eqb tid "181001DE001" then Toom._parse_return items amount
      else Raise (KeyError tid)
  | HornbachParser tid =>
      if str_in tid ["211072AT001"; "211001DE001"]
      then Hornbach._parse_delivery_price items amount
      else Raise (KeyError tid)
  end.

End Items.

(** ** Templates and field extraction (svc_extractor/parsers.py) *)

Module Extraction.
Import PyStr Numbers PyNum Items.

(** A loaded template.  [fields] keeps the order of the YAML mapping and
    gives every field its list of patterns (a single pattern is a list of
    one); [category] is [None], a string or a list of strings. *)
Record Template : Type := {
  issuer : string;
  name : string;
  kind : string;
  template_id : string;
  category : pyval;
  inclusive_keywords : list string;
  exclusive_keywords : option (list string);
  fields : list (string * list string);
  optional_fields : list string;
  remove_whitespace : bool;
  lowercase : bool;
  replace_pairs : list (list string);
  parser : parser_t
}.

Definition _unique_value_fields : list string :=
  ["amount"; "document_number"; "archive_number"; "return_number";
   "agreement_number"; "supplier"; "subtotals"; "identifier"; "branch"; "zip"].

(** The branch of [Template.extract] a field name selects. *)
Inductive field_class : Type :=
  | FAmount
  | FCount
  | FIdentifier
  | FTax
  | FSubtotals
  | FNumbering
  | FItems
  | FEmail
  | FReason
  | FOther.

Definition classify (fld : string) : field_class :=
  if String.eqb fld "amount" then FAmount
  else if str_in fld ["zip"; "archive_number"; "branch"] then FCount
  else if str_in fld ["supplier"; "document_number"; "identifier";
                      "backreference_number"] then FIdentifier
  else if String.eqb fld "tax" then FTax
  else if String.eqb fld "subtotals" then FSubtotals
  else if str_in fld ["delivery_number"; "invoice_number"; "purchase_order_number";
                      "return_number"; "agreement_number"] then FNumbering
  else if String.eqb fld "items" then FItems
  else if String.eqb fld "email" then FEmail
  else if String.eqb fld "reason" then FReason
  else FOther.

(** [Template._validate_numbering(val)] without a field: a numeric string. *)
Definition _validate_number (val : rmatch) : result unit :=
  match val with
  | MStr num =>
      if negb (isnumeric num) then Raise (ValueError "Invalid number!") else Ok tt
  | MTup _ => Raise (TypeError "Value with type 'str' or 'list' expected")
  end.

Definition len_between (lo hi : nat) (s : string) : bool :=
  (lo <=? String.length s)%nat && (String.length s <=? hi)%nat.

(** The shape test of one number of a numbering field; a tuple has none of
    the string methods. *)
Definition valid_numbering (field : string) (val : rmatch) : result unit :=
  match val with
  | MTup _ => Raise AttributeError
  | MStr num =>
      if String.eqb field "delivery_number" then
        if negb (startswith "31" num) || negb (String.length num =? 9)%nat
        then Raise (ValueError "Invalid delivery note number!") else Ok tt
      else if String.eqb field "invoice_number" then
        if negb (isnumeric num) || startswith "0" num
           || negb (String.length num =? 9)%nat
        then Raise (ValueError "Invalid invoice number!") else Ok tt
      else if String.eqb field "purchase_order_number" then
        if negb (isnumeric num) || startswith "0" num || negb (len_between 5 7 num)
        then Raise (ValueError "Invalid purchase order number!") else Ok tt
      else if String.eqb field "return_number" then
        if negb (isnumeric num && len_between 6 7 num)
        then Raise (ValueError "Invalid return number!") else Ok tt
      else if String.eqb field "agreement_number" then
        if negb (isnumeric num || (String.length num =? 10)%nat)
        then Raise (ValueError "Invalid agreement number!") else Ok tt
      else Raise (ValueError "Unrecognized numbering type!")
  end.

(** [Template._validate_numbering(result, fld)] on the list of matches. *)
Fixpoint _validate_numbering (vals : list rmatch) (field : string) : result unit :=
  match vals with
  | [] => Ok tt
  | num :: rest =>
      _ ← valid_numbering field num;
      _validate_numbering rest field
  end.

Section WithRuntime.
Context {rt : Runtime}.

(** The matches of the first pattern that has any. *)
Fixpoint first_matches (text : string) (rx_patts : list string) : list rmatch :=
  match rx_patts with
  | [] => []
  | patt :: rest =>
      match re_findall patt text with
      | [] => first_matches text rest
      | matches => matches
      end
  end.

Definition _match_patterns (text : string) (regex : list string) (duplicates : bool)
  : list rmatch :=
  let res_find := first_matches text regex in
  if negb duplicates then set_list res_find else res_find.

Fixpoint apply_replaces (pairs : list (list string)) (s : string) : result string :=
  match pairs with
  | [] => Ok s
  | repl :: rest =>
      match repl with
      | [from; to] => apply_replaces rest (re_sub from to s)
      | _ => Raise (ValueError "A replace should be a list of 2 items!")
      end
  end.

Definition prepare_input (tmpl : Template) (raw_str : string) : result string :=
  let optimized_str :=
    if remove_whitespace tmpl then re_sub "\s{2,}" "" raw_str else raw_str in
  let optimized_str :=
    if lowercase tmpl then lower optimized_str else optimized_str in
  apply_replaces (replace_pairs tmpl) optimized_str.

Definition found (kwd text : string) : bool :=
  match re_findall kwd text with
  | [] => false
  | _ => true
  end.

Definition matches_keywords (tmpl : Template) (text : string) : bool :=
  let inclusive := (fun kwd => found kwd text) <$> inclusive_keywords tmpl in
  let exclusive :=
    match exclusive_keywords tmpl with
    | Some kwds => (fun kwd => found kwd text) <$> kwds
    | None => []
    end in
  forallb (fun b => b) inclusive && negb (existsb (fun b => b) exclusive).

(** The output of [extract]: the record under construction. *)
Definition output : Type := gmap string pyval.

Definition header (tmpl : Template) : output :=
  <["category" := category tmpl]>
  (<["template_id" := VAtom (AStr (template_id tmpl))]>
  (<["kind" := VAtom (AStr (kind tmpl))]>
  (<["name" := VAtom (AStr (name tmpl))]>
  (<["issuer" := VAtom (AStr (issuer tmpl))]> ∅)))).

Definition strip_str (m : string) : atom := AStr (strip is_space m).

(** One turn of the loop over the fields: the value to store under the
    field, if any, and the log records.  Only the items read the output
    built so far (the amount). *)
Definition field_step (tmpl : Template) (text : string) (out : output)
  (fld : string) (regex : list string) : result (option pyval * list log_entry) :=
  let allow_duplicates := String.eqb fld "items" in
  let result := _match_patterns text regex allow_duplicates in
  match result with
  | [] =>
      if str_in fld (optional_fields tmpl)
      then Ok (None, [LogWarning ("regexp for optional field didn't match: " +:+ fld)])
      else Ok (None, [LogError ("regexp for field didn't match: " +:+ fld)])
  | first :: others =>
      if (1 <? length result)%nat && str_in fld _unique_value_fields
      then Raise PatternMatchError
      else
        match classify fld with
        | FAmount =>
            a ← parse_number (atom_of first) CoerceFloat ErrRaise;
            match a with
            | ANum n =>
                if num_leb n (NFloat 0)
                then Raise (ValueError "Extracted document amount must be a non-zero positive float!")
                else Ok (Some (VAtom a), [])
            | _ => Raise (TypeError "unsupported operand")
            end
        | FCount =>
            _ ← _validate_number first;
            a ← parse_number (atom_of first) CoerceInt ErrRaise;
            Ok (Some (VAtom a), [])
        | FIdentifier =>
            a ← parse_number (atom_of first) CoerceInt ErrIgnore;
            Ok (Some (VAtom a), [])
        | FTax =>
            match others with
            | [] =>
                a ← parse_number (atom_of first) CoerceFloat ErrRaise;
                Ok (Some (VAtom a), [])
            | _ =>
                l ← parse_numbers (atom_of <$> result) CoerceFloat;
                Ok (Some (VList l), [])
            end
        | FSubtotals =>
            l ← parse_numbers (AStr <$> elems first) CoerceFloat;
            Ok (Some (VList l), [])
        | FNumbering =>
            _ ← _validate_numbering result fld;
            match others with
            | [] =>
                a ← parse_number (atom_of first) CoerceInt ErrRaise;
                Ok (Some (VAtom a), [])
            | _ =>
                l ← parse_numbers (atom_of <$> result) CoerceInt;
                Ok (Some (VList l), [])
            end
        | FItems =>
            if is_composite (parser tmpl) then
              match out !! "amount" with
              | None => Raise (KeyError "amount")
              | Some (VAtom (ANum amount)) =>
                  '(items, lg) ← parse_items (parser tmpl) result amount;
                  match items with
                  | Some rs => Ok (Some (VRows rs), lg)
                  | None => Ok (Some (VAtom ANone), lg)
                  end
              | Some _ => Raise (TypeError "unsupported operand")
              end
            else Ok (Some (VList (atom_of <$> result)), [])
        | FEmail =>
            match first with
            | MStr s => Ok (Some (VAtom (AStr (replace " " "" s))), [])
            | MTup _ => Raise AttributeError
            end
        | FReason =>
            match first with
            | MTup l => Ok (Some (VList (strip_str <$> l)), [])
            | MStr s => Ok (Some (VAtom (strip_str s)), [])
            end
        | FOther => Ok (Some (VAtom (atom_of first)), [])
        end
  end.

Definition store (out : output) (fld : string) (v : option pyval) : output :=
  match v with
  | Some x => <[fld := x]> out
  | None => out
  end.

(** The loop over [self["fields"].items()]. *)
Fixpoint extract_fields (tmpl : Template) (text : string)
  (flds : list (string * list string)) (out : output) (logs : list log_entry)
  : result (output * list log_entry) :=
  match flds with
  | [] => Ok (out, logs)
  | (fld, regex) :: rest =>
      '(v, lg) ← field_step tmpl text out fld regex;
      extract_fields tmpl text rest (store out fld v) (logs ++ lg)%list
  end.

(** [assert output[key] is not None]. *)
Definition assert_present (out : output) (key : string) : result unit :=
  match out !! key with
  | None => Raise (KeyError key)
  | Some (VAtom ANone) => Raise (AssertionError key)
  | Some _ => Ok tt
  end.

(** The field names of the template that are not optional and have no
    entry in the output. *)
Definition required_unmatched (tmpl : Template) (out : output) : list string :=
  List.filter
    (fun f => negb (str_in f (optional_fields tmpl))
              && negb (bool_decide (is_Some (out !! f))))
    (remove_dups (fst <$> fields tmpl)).

Definition finish (tmpl : Template) (out : output) (logs : list log_entry)
  : result (output * list log_entry) :=
  match required_unmatched tmpl out with
  | _ :: _ => Raise PatternMatchError
  | [] =>
      _ ← assert_present out "issuer";
      _ ← assert_present out "name";
      _ ← assert_present out "kind";
      _ ← assert_present out "document_number";
      _ ← assert_present out "amount";
      _ ← assert_present out "template_id";
      Ok (out, logs)
  end.

(** [Template.extract]. *)
Definition extract (tmpl : Template) (text : string)
  : result (output * list log_entry) :=
  '(out, logs) ← extract_fields tmpl text (fields tmpl) (header tmpl) [];
  finish tmpl out logs.

(** [Extractor._extract_data] (svc_extractor/__init__.py): the first
    template whose keywords match is used. *)
Fixpoint _extract_data (extracted_str : string) (templates : list Template)
  : result (output * list log_entry) :=
  match templates with
  | [] => Raise TemplateNotFoundError
  | tmpl :: rest =>
      optimized_str ← prepare_input tmpl extracted_str;
      if negb (matches_keywords tmpl optimized_str)
      then _extract_data extracted_str rest
      else extract tmpl optimized_str
  end.

End WithRuntime.

(** The template without its [items] field. *)
Definition without_items (tmpl : Template) : Template :=
  {| issuer := issuer tmpl; name := name tmpl; kind := kind tmpl;
     template_id := template_id tmpl; category := category tmpl;
     inclusive_keywords := inclusive_keywords tmpl;
     exclusive_keywords := exclusive_keywords tmpl;
     fields := List.filter (fun f => negb (String.eqb (fst f) "items")) (fields tmpl);
     optional_fields := optional_fields tmpl;
     remove_whitespace := remove_whitespace tmpl;
     lowercase := lowercase tmpl;
     replace_pairs := replace_pairs tmpl;
     parser := parser tmpl |}.

(** The keys [extract] writes before the fields. *)
Definition header_keys : list string :=
  ["issuer"; "name"; "kind"; "template_id"; "category"].

Definition is_float (a : atom) : Prop := exists q, a = ANum (NFloat q).
Definition is_int (a : atom) : Prop := exists z, a = ANum (NInt z).
Definition is_str (a : atom) : Prop := exists s, a = AStr s.
Definition is_match (a : atom) : Prop := exists m, a = atom_of m.

(** The shape the coercion rule of a field gives to its value. *)
Definition field_typed (fld : string) (v : pyval) : Prop :=
  match classify fld with
  | FAmount => exists q, v = VAtom (ANum (NFloat q)) /\ (0 < q)%Q
  | FCount => exists z, v = VAtom (ANum (NInt z))
  | FIdentifier => exists a, v = VAtom a /\ (is_int a \/ is_match a)
  | FTax =>
      (exists q, v = VAtom (ANum (NFloat q))) \/
      (exists l, v = VList l /\ Forall is_float l)
  | FSubtotals => exists l, v = VList l /\ Forall is_float l
  | FNumbering =>
      (exists z, v = VAtom (ANum (NInt z))) \/
      (exists l, v = VList l /\ Forall is_int l)
  | FItems =>
      v = VAtom ANone \/ (exists rs, v = VRows rs) \/
      (exists l, v = VList l /\ Forall is_match l)
  | FEmail => exists s, v = VAtom (AStr s)
  | FReason =>
      (exists s, v = VAtom (AStr s)) \/ (exists l, v = VList l /\ Forall is_str l)
  | FOther => exists m, v = VAtom (atom_of m)
  end.

(** C1 as the specification states it, at one list of templates and one
    text: a record with every required field present, not null and typed,
    or one of the two extraction errors. *)
Definition spec_extract_contract {rt : Runtime} (templates : list Template)
  (text : string) : Prop :=
  match _extract_data text templates with
  | Ok (out, _) =>
      exists tmpl, In tmpl templates /\
        forall f, In f (fst <$> fields tmpl) -> ~ In f (optional_fields tmpl) ->
          exists v, out !! f = Some v /\ v <> VAtom ANone /\ field_typed f v
  | Raise e => e = TemplateNotFoundError \/ e = PatternMatchError
  end.

(** A template matches a text when its keywords match the text it
    prepared. *)
Definition template_matches {rt : Runtime} (text : string) (tmpl : Template)
  : bool :=
  match prepare_input tmpl text with
  | Ok s => matches_keywords tmpl s
  | Raise _ => false
  end.

(** C8 as the specification states it, at one list of templates and one
    text: with more than one matching template the selection ends in an
    error. *)
Definition spec_ambiguity_is_an_error {rt : Runtime} (templates : list Template)
  (text : string) : Prop :=
  (1 < length (List.filter (template_matches text) templates))%nat ->
  exists e, _extract_data text templates = Raise e.

End Extraction.

(** ** Sample documents for the extraction

    The engine of every sample is scripted with the matches [re.findall]
    returns for the patterns of the templates on the text of the sample. *)

Module ExtractionSamples.
Import Items Extraction.

Definition rx_document : string := "belegnr (\d+)".
Definition rx_amount : string := "summe (\d+,\d{2})".
Definition rx_items : string := "pos (\d+,\d{2}) (\d+) (\d+,\d{2})".

(** A penalty note of OBI: two lines with the rates 2 and 25 whose
    penalties add up to 27,00, under a total of 250,00. *)
Definition penalty_text : string :=
  "obi vertragsstrafe belegnr 4711 summe 250,00 pos 2,00 123456 100,00 pos 25,00 123457 100,00".

Definition penalty_matches : list (string * list rmatch) :=
  [("obi", [MStr "obi"]);
   (rx_document, [MStr "4711"]);
   (rx_amount, [MStr "250,00"]);
   (rx_items, [MTup ["2,00"; "123456"; "100,00"];
               MTup ["25,00"; "123457"; "100,00"]])].

Definition penalty_engine : Runtime := scripted penalty_matches.

Definition obi_penalty : Template :=
  {| issuer := "OBI_DE"; name := "OBI"; kind := "debit";
     template_id := "161001DE001";
     category := VAtom (AStr "penalty_general");
     inclusive_keywords := ["obi"];
     exclusive_keywords := None;
     fields := [("document_number", [rx_document]);
                ("amount", [rx_amount]);
                ("items", [rx_items])];
     optional_fields := [];
     remove_whitespace := false;
     lowercase := true;
     replace_pairs := [];
     parser := create_parser "OBI_DE" "161001DE001" |}.

(** The record of the note without its items. *)
Definition penalty_record : output :=
  <["amount" := VAtom (ANum (NFloat (25000 # 100)))]>
  (<["document_number" := VAtom (ANum (NInt 4711))]> (header obi_penalty)).

(** A debit note that two templates of its issuer match. *)
Definition debit_text : string := "bauhaus belastung belegnr 815 summe 12,50".

Definition debit_matches : list (string * list rmatch) :=
  [("bauhaus", [MStr "bauhaus"]);
   ("belastung", [MStr "belastung"]);
   (rx_document, [MStr "815"]);
   (rx_amount, [MStr "12,50"])].

Definition debit_engine : Runtime := scripted debit_matches.

Definition plain_template (id : string) (keywords : list string) : Template :=
  {| issuer := "BAUHAUS_DE"; name := "BAUHAUS"; kind := "debit";
     template_id := id;
     category := VAtom (AStr "price");
     inclusive_keywords := keywords;
     exclusive_keywords := None;
     fields := [("document_number", [rx_document]); ("amount", [rx_amount])];
     optional_fields := [];
     remove_whitespace := false;
     lowercase := true;
     replace_pairs := [];
     parser := create_parser "BAUHAUS_DE" id |}.

Definition bauhaus_debit : Template := plain_template "191001DE001" ["bauhaus"].

Definition bauhaus_charge : Template :=
  plain_template "191001DE002" ["bauhaus"; "belastung"].

(** The same note with a total of zero. *)
Definition zero_text : string := "bauhaus belastung belegnr 815 summe 0,00".

Definition zero_matches : list (string * list rmatch) :=
  [("bauhaus", [MStr "bauhaus"]);
   ("belastung", [MStr "belastung"]);
   (rx_document, [MStr "815"]);
   (rx_amount, [MStr "0,00"])].

Definition zero_engine : Runtime := scripted zero_matches.

End ExtractionSamples.

(** ** Further exceptions

    The exceptions of the modules below that [exn] does not list; a
    computation that may raise one of them ends in [Failed]. *)

Inductive error : Type :=
  | Builtin (e : exn)
  | FileNameFormatError
  | NotImplementedError
  | CategoryNotFoundError
  | NotificationDeletedError.

Inductive attempt (A : Type) : Type :=
  | Done (a : A)
  | Failed (e : error).

Arguments Done {A} a.
Arguments Failed {A} e.

Global Instance attempt_ret : MRet attempt := fun A a => Done a.

Global Instance attempt_bind : MBind attempt := fun A B f r =>
  match r with
  | Done a => f a
  | Failed e => Failed e
  end.

(** A computation of the first part inside the second. *)
Definition lift_result {A : Type} (r : result A) : attempt A :=
  match r with
  | Ok a => Done a
  | Raise e => Failed (Builtin e)
  end.

(** ** File names carrying a record id (storage/files.py) *)

Module Files.
Import PyStr.

(** The rest of [s] after the prefix [p], when [s] starts with [p]. *)
Fixpoint after_prefix (p s : string) : option string :=
  match p, s with
  | EmptyString, _ => Some s
  | String a p', String b s' => if Ascii.eqb a b then after_prefix p' s' else None
  | String _ _, EmptyString => None
  end.

(** The longest prefix of digits. *)
Fixpoint leading_digits (s : string) : string :=
  match s with
  | EmptyString => EmptyString
  | String c s' => if is_digit c then String c (leading_digits s') else EmptyString
  end.

(** [re.search(r"_id=(\d+)", s)]: the group of the leftmost match, that is
    the digits after the first ["_id="] that a digit follows. *)
Fixpoint search_record_id (s : string) : option string :=
  match s with
  | EmptyString => None
  | String _ s' =>
      match after_prefix "_id=" s with
      | Some rest =>
          match leading_digits rest with
          | EmptyString => search_record_id s'
          | str_id => Some str_id
          end
      | None => search_record_id s'
      end
  end.

(** [File.extract_record_id] on the path of the file. *)
Definition extract_record_id (file : string) : attempt Z :=
  match search_record_id file with
  | None => Failed FileNameFormatError
  | Some str_id =>
      if (String.length str_id <? 4)%nat
      then Failed FileNameFormatError
      else Done (int_of_digits str_id)
  end.

(** The path [File.rename(customer, rec_id)] gives to a file: [folder] is
    the directory of the file with its separator, [ext] the extension
    [splitext] found (empty, or a period and what follows). *)
Definition renamed_path (folder customer : string) (rec_id : Z) (ext : string)
  : string :=
  folder +:+ (lower customer +:+ "_document" +:+ ("_id=" +:+ str_of_int rec_id) +:+ ext).

(** The path [FileManager.rename_files(src, new_name, rec_id, id_tag = True)]
    gives to a file of extension [orig_ext]; [new_name] is taken without
    extension. *)
Definition tagged_path (folder new_name : string) (rec_id : Z) (orig_ext : string)
  : string :=
  folder +:+ (new_name +:+ ("_id=" +:+ str_of_int rec_id) +:+ orig_ext).

(** An extension as [splitext] returns it: empty, or starting with a
    period. *)
Definition is_extension (ext : string) : bool :=
  match ext with
  | EmptyString => true
  | String c _ => Ascii.eqb c "."
  end.

Definition no_equals_sign (s : string) : bool :=
  all_chars (fun c => negb (Ascii.eqb c "=")) s.

End Files.

(** ** The categories of a message, in any order of the set *)

Module PyAscii.

(** [s.isascii()].  On such a string [str.isnumeric] of Python accepts the
    digits 0 to 9 only, as [PyStr.isnumeric] does; beyond ASCII it also
    accepts superscripts, fractions and the digits of other scripts. *)
Definition isascii (s : string) : bool :=
  PyStr.all_chars (fun c => (nat_of_ascii c <? 128)%nat) s.

End PyAscii.

Module MessageCategory.
Import PyStr Downloader.

(** The valid categories of the message, as [_get_message_category]
    collects them before it turns their set into a list. *)
Definition valid_categories (msg : message) (msg_categs ctrl_categs : list string)
  : list string :=
  remove_dups
    (List.filter (fun c => str_in c (msg_categs ++ ctrl_categs)%list) (categories msg)).

(** The rest of [_get_message_category], on the list [categs] the set of
    valid categories was turned into. *)
Definition select_categories (categs msg_categs ctrl_categs : list string)
  : result (option string * option string) :=
  match categs with
  | [] => Ok (None, None)
  | [c] => if str_in c ctrl_categs then Ok (None, Some c) else Ok (Some c, None)
  | [c0; c1] =>
      if str_in c0 ctrl_categs && str_in c1 msg_categs then Ok (Some c1, Some c0)
      else if str_in c1 ctrl_categs && str_in c0 msg_categs then Ok (Some c0, Some c1)
      else Raise (RuntimeError "Invalid message category combination!")
  | _ => Raise (RuntimeError "Invalid message category combination!")
  end.

(** The key of a record: its id and the hash of its document. *)
Definition record_key (r : doc_record) : Z * string := (id r, doc_hash r).

End MessageCategory.

(** ** Reading the parameters of a case (storage/sap/dms.py) *)

Module DmsRead.
Import PyStr Dms.

(** [_field_map.items()]. *)
Definition field_entries : list (string * string) :=
  [("processor", "PROCESSOR"); ("status_sales", "ZZ_STAT_SL");
   ("status", "STAT_ORDERNO"); ("case_type", "CASE_TYPE");
   ("root_cause_code", "FIN_ROOT_CCODE"); ("status_ac", "ZZ_STAT_AC");
   ("coordinator", "FIN_COORDINATOR"); ("responsible", "RESPONSIBLE");
   ("company_code", "FIN_BUKRS"); ("external_reference", "EXT_REF");
   ("disputed_amount", "FIN_CUSTDISP_AMT"); ("case_id", "EXT_KEY");
   ("created_by", "CREATED_BY"); ("created_on", "CREATE_TIME");
   ("changed_by", "CHANGED_BY"); ("changed_on", "CHANGE_TIME");
   ("closed_by", "CLOSED_BY"); ("closed_on", "CLOSING_TIME");
   ("title", "CASE_TITLE"); ("category", "CATEGORY");
   ("reason", "REASON_CODE"); ("customer_disputed", "FIN_DISPUTED_AMT");
   ("currency", "FIN_CUSTDISP_CUR"); ("customer_account", "FIN_KUNNR");
   ("notification", "ZZ_QMNUM"); ("head_office", "ZZ_ZENTRALE");
   ("assignment", "ZZ_ZUONR"); ("branch", "ZZ_FILIALE")].

(** [{val: key for key, val in _field_map.items()}]: a later entry would
    replace an earlier one with the same value. *)
Definition reversed_field_map : gmap string string :=
  fold_left (fun m '(key, val) => <[val := key]> m) field_entries ∅.

(** [get_case_parameters] on the records [(ATTR_ID, ATTR_VALUE)] of the
    answer of [BAPI_DISPUTE_GETDETAIL_MULTI]. *)
Definition get_case_parameters (case_detail : list (string * string))
  : gmap string string :=
  fold_left
    (fun params '(key, val) =>
       match reversed_field_map !! key with
       | None => params
       | Some rev_key => <[rev_key := strip is_space val]> params
       end)
    case_detail ∅.

(** The value of the last record of the answer with the given [ATTR_ID]. *)
Fixpoint last_value (attr_id : string) (case_detail : list (string * string))
  : option string :=
  match case_detail with
  | [] => None
  | (key, val) :: rest =>
      match last_value attr_id rest with
      | Some w => Some w
      | None => if String.eqb key attr_id then Some val else None
      end
  end.

(** [kwargs.get("root_cause_code") in (None, "L00", "L01", "L06", "L08", "L14")]. *)
Definition root_cause_accepted (kwargs : list (string * kwval)) : bool :=
  match kw_get kwargs "root_cause_code" with
  | None | Some KNone => true
  | Some (KStr c) => str_in c ["L00"; "L01"; "L06"; "L08"; "L14"]
  | Some (KInt _) => false
  end.

(** The change call of one step of the status: the step to 2 carries the
    root cause code. *)
Definition status_event (root_cause : kwval) (new_status : Z) : event :=
  EvChange
    (if new_status =? 2
     then [("STAT_ORDERNO", KStr (str_of_int new_status));
           ("FIN_ROOT_CCODE", KStr (kw_text root_cause))]
     else [("STAT_ORDERNO", KStr (str_of_int new_status))]).

(** The change calls that raise the status of a case from 1 to [status],
    one call for every step. *)
Definition status_events (status : Z) (root_cause : kwval) : list event :=
  status_event root_cause <$> seqZ 2 (status - 1).

(** The keywords of [modify_case_params] at the creation of a case
    ([_create_qm_notification], [_create_zqm_notification],
    [_create_dms_case]): a case below the threshold is closed at once. *)
Definition creation_kwargs (coordinator processor responsible status_ac : kwval)
  (amount threshold : Q) : list (string * kwval) :=
  let root_cause := if Qlt_bool amount threshold then KStr "L14" else KNone in
  let case_status := if Qlt_bool amount threshold then KInt 3 else KInt 1 in
  [("coordinator", coordinator); ("processor", processor);
   ("responsible", responsible); ("root_cause_code", root_cause);
   ("status", case_status); ("status_ac", status_ac)].

(** The attributes that have a value. *)
Definition with_value (attrs : list (string * kwval)) : list (string * kwval) :=
  List.filter (fun a => match snd a with KNone => false | _ => true end) attrs.

End DmsRead.

(** ** Reading aids for the accounting documents *)

Module AccountingSamples.

(** The sales documents of the first query of
    [va03.find_accounting_documents]. *)
Definition sales_documents_found (erp : Va03.Erp) (doc : Va03.document)
  (acc : option Z) : list Z :=
  match doc with
  | Va03.PurchaseOrder po => Va03.vbak_by_po erp po acc
  | Va03.Invoice n | Va03.Delivery n => Va03.vbfa_preceding erp n
  end.

(** A purchase order with one sales document, delivered and invoiced. *)
Definition erp_delivered : Va03.Erp :=
  {| Va03.vbak_by_po := fun po _ => if po =? 12345 then [200000001; 200000001] else [];
     Va03.vbfa_preceding := fun _ => [200000001];
     Va03.vbfa_subsequent := fun _ t =>
       if String.eqb t "M" then [900000001] else [310000001];
     Va03.vbak_sold_to := fun _ => [1000001] |}.

End AccountingSamples.

(** ** Document categories (svc_extractor/categorizers.py,
       svc_extractor/__init__.py) *)

Module Categorizers.
Import PyStr Numbers PyNum Items Extraction.

(** An element of [data["items"]]: a parsed row, or a raw match. *)
Inductive item : Type :=
  | IRow (cells : list atom)
  | IAtom (a : atom).

(** [for item in data["items"]]. *)
Definition iter_items (v : pyval) : result (list item) :=
  match v with
  | VRows rs => Ok (IRow <$> rs)
  | VList l => Ok (IAtom <$> l)
  | VAtom (AStr s) => Ok ((fun c => IAtom (AStr c)) <$> chars s)
  | VAtom (ATup l) => Ok ((fun c => IAtom (AStr c)) <$> l)
  | VAtom _ => Raise (TypeError "object is not iterable")
  end.

(** [item[k]]. *)
Definition item_cell (it : item) (k : nat) : result atom :=
  match it with
  | IRow cells =>
      match nth_error cells k with
      | Some a => Ok a
      | None => Raise IndexError
      end
  | IAtom (AStr s) =>
      match nth_error (chars s) k with
      | Some c => Ok (AStr c)
      | None => Raise IndexError
      end
  | IAtom (ATup l) =>
      match nth_error l k with
      | Some c => Ok (AStr c)
      | None => Raise IndexError
      end
  | IAtom _ => Raise (TypeError "object is not subscriptable")
  end.

(** The order of tuples of strings. *)
Fixpoint tuple_ltb (l k : list string) : bool :=
  match l, k with
  | [], [] => false
  | [], _ :: _ => true
  | _ :: _, [] => false
  | a :: l', b :: k' => if String.eqb a b then tuple_ltb l' k' else String.ltb a b
  end.

(** [a < b]. *)
Definition atom_lt (a b : atom) : result bool :=
  match a, b with
  | ANum x, ANum y => Ok (negb (num_leb y x))
  | AStr s, AStr t => Ok (String.ltb s t)
  | ATup l, ATup k => Ok (tuple_ltb l k)
  | _, _ => Raise (TypeError "'<' not supported between instances")
  end.

(** [a == b]. *)
Definition atom_eqb (a b : atom) : bool :=
  match a, b with
  | ANone, ANone => true
  | ANum x, ANum y => num_eqb x y
  | AStr s, AStr t => String.eqb s t
  | ATup l, ATup k => bool_decide (l = k)
  | _, _ => false
  end.

(** An operand of the arithmetic on the cells: a difference, or a product
    that is rounded afterwards, raises [TypeError] unless its operands are
    numbers. *)
Definition as_num (a : atom) : result num :=
  match a with
  | ANum n => Ok n
  | _ => Raise (TypeError "unsupported operand type(s)")
  end.

Definition msg_items_required : string :=
  "Items are required to categorize the document!".

Definition msg_count_exceeds : string :=
  "Item count received by the customer cannot exceed the number of expeded items by Ledvance in a delivery loss document!".

(** *** HornbachDocument._categorize_rechnungskuerzung *)

Fixpoint rechnungskuerzung_loop (items : list item) (price_diff pieces_diff : num)
  : result (num * num) :=
  match items with
  | [] => Ok (price_diff, pieces_diff)
  | it :: rest =>
      cust_pcs ← item_cell it 2;
      ledv_pcs ← item_cell it 3;
      cust_price ← item_cell it 4;
      ledv_price ← item_cell it 5;
      is_loss ← atom_lt cust_pcs ledv_pcs;
      if is_loss : bool then
        a ← as_num ledv_pcs;
        b ← as_num cust_pcs;
        p ← as_num ledv_price;
        let diff := num_mul (num_sub a b) p in
        rechnungskuerzung_loop rest price_diff
          (num_add pieces_diff (num_abs (round2 diff)))
      else if atom_eqb cust_pcs ledv_pcs then
        a ← as_num ledv_price;
        b ← as_num cust_price;
        n ← as_num cust_pcs;
        let diff := num_mul (num_sub a b) n in
        rechnungskuerzung_loop rest
          (num_add price_diff (num_abs (round2 diff))) pieces_diff
      else Raise (ValueError msg_count_exceeds)
  end.

Definition _categorize_rechnungskuerzung (data : output) : result string :=
  match data !! "items" with
  | None | Some (VAtom ANone) => Raise (KeyError msg_items_required)
  | Some v =>
      items ← iter_items v;
      '(price_diff, pieces_diff) ← rechnungskuerzung_loop items (NInt 0) (NInt 0);
      Ok (if negb (num_leb price_diff pieces_diff) then "price" else "delivery")
  end.

(** *** MarkantDocument._categorize_bgl_dp_debitnote *)

Fixpoint bgl_dp_loop (items : list item) (price_diff pieces_diff : num)
  : result (num * num) :=
  match items with
  | [] => Ok (price_diff, pieces_diff)
  | it :: rest =>
      cust_pcs ← item_cell it 1;
      ledv_pcs ← item_cell it 2;
      cust_price ← item_cell it 3;
      ledv_price ← item_cell it 4;
      is_loss ← atom_lt cust_pcs ledv_pcs;
      if is_loss : bool then
        a ← as_num ledv_price;
        b ← as_num cust_price;
        bgl_dp_loop rest price_diff (num_add pieces_diff (num_sub a b))
      else if atom_eqb cust_pcs ledv_pcs then
        a ← as_num ledv_price;
        b ← as_num cust_price;
        bgl_dp_loop rest (num_add price_diff (num_sub a b)) pieces_diff
      else Raise (ValueError msg_count_exceeds)
  end.

Definition _categorize_bgl_dp_debitnote (data : output) : result string :=
  match data !! "items" with
  | None | Some (VAtom ANone) => Raise (KeyError msg_items_required)
  | Some v =>
      items ← iter_items v;
      '(price_diff, pieces_diff) ← bgl_dp_loop items (NInt 0) (NInt 0);
      Ok (if negb (num_leb price_diff pieces_diff) then "price" else "delivery")
  end.

(** A row whose cells after the first are numbers. *)
Definition numeric_row (n : nat) (row : list atom) : Prop :=
  exists (a : atom) (cells : list num),
    row = a :: (ANum <$> cells) /\ length cells = n.

(** *** Categorizer.categorize and Extractor._identify_category *)

Definition upper_char (c : ascii) : ascii :=
  let n := N_of_ascii c in
  if ((97 <=? n) && (n <=? 122))%N then ascii_of_N (n - 32) else c.

Fixpoint upper (s : string) : string :=
  match s with
  | EmptyString => EmptyString
  | String c s' => String (upper_char c) (upper s')
  end.

(** [s.split(sep)[0]] for a one-character separator. *)
Fixpoint before_char (sep : ascii) (s : string) : string :=
  match s with
  | EmptyString => EmptyString
  | String c s' => if Ascii.eqb c sep then EmptyString else String c (before_char sep s')
  end.

(** [categ in v] for a string [categ]. *)
Definition categ_in (categ : string) (v : pyval) : result bool :=
  match v with
  | VList l => Ok (existsb (atom_eqb (AStr categ)) l)
  | VRows _ => Ok false
  | VAtom (AStr s) => Ok (contains categ s)
  | VAtom (ATup l) => Ok (str_in categ l)
  | VAtom _ => Raise (TypeError "argument is not iterable")
  end.

(** The category [c] is one the template declares. *)
Definition declares (v : pyval) (c : string) : Prop :=
  match v with
  | VAtom (AStr s) => c = s
  | VList l => In (AStr c) l
  | _ => False
  end.

(** [v == s] for a string [s]. *)
Definition is_str_value (v : pyval) (s : string) : bool :=
  match v with
  | VAtom (AStr t) => String.eqb t s
  | _ => false
  end.

Section Documents.

(** [Categorizer._documents]: for the name of a customer, the method
    [categorize] of its document class. *)
Variable documents : string -> option (output -> attempt string).

Definition categorize (data : output) : attempt string :=
  if negb (bool_decide (is_Some (data !! "category")))
  then Failed (Builtin (AssertionError "Field 'category' is not contained in the data!"))
  else if negb (bool_decide (is_Some (data !! "issuer")))
  then Failed (Builtin (AssertionError "Field 'issuer' is not contained in the data!"))
  else
    match data !! "kind" with
    | None => Failed (Builtin (KeyError "kind"))
    | Some kind =>
        if negb (is_str_value kind "debit")
        then Failed (Builtin (AssertionError "Docuemnt categorization applies only to debit notes!"))
        else
          match data !! "issuer" with
          | Some (VAtom (AStr issuer)) =>
              let cust := upper (before_char "_" issuer) in
              match documents cust with
              | None => Failed NotImplementedError
              | Some doc_categorize =>
                  categ ← doc_categorize data;
                  found ← lift_result (categ_in categ (default (VAtom ANone) (data !! "category")));
                  if negb found
                  then Failed (Builtin (ValueError "The identified category doesn't match any of the allowed categories!"))
                  else Done categ
              end
          | _ => Failed (Builtin AttributeError)
          end
    end.

Definition rename_category (msg_categ : string) : string :=
  if String.eqb msg_categ "REBUILD_WITHOUT_RETURN" then "rebuild"
  else if String.eqb msg_categ "PENALTY" then "penalty_general"
  else msg_categ.

Definition _identify_category (msg_categ : option string) (data : output)
  : attempt (option string) :=
  match data !! "kind" with
  | None => Failed (Builtin (KeyError "kind"))
  | Some kind =>
      if negb (is_str_value kind "debit"
               || is_str_value kind "credit")
      then Failed (Builtin (ValueError "Unrecognized document kind!"))
      else if is_str_value kind "credit" then Done None
      else
        match data !! "category" with
        | None => Failed (Builtin (KeyError "category"))
        | Some data_categ =>
            let msg_categ := rename_category <$> msg_categ in
            match data_categ with
            | VAtom (AStr _) | VList _ | VRows _ =>
                match msg_categ with
                | None =>
                    match data_categ with
                    | VAtom (AStr s) => Done (Some s)
                    | _ => categ ← categorize data; Done (Some categ)
                    end
                | Some m =>
                    let m := lower m in
                    let data_categs :=
                      match data_categ with
                      | VAtom a => VList [a]
                      | v => v
                      end in
                    found ← lift_result (categ_in m data_categs);
                    if negb found
                    then Failed (Builtin InvalidCategoryAppliedError)
                    else Done (Some m)
                end
            | _ => Failed (Builtin (TypeError "Unrecognized category type!"))
            end
        end
  end.

End Documents.

End Categorizers.

(** ** The claim manager (svc_creator/__init__.py) *)

Module Creator.
Import PyStr Compiler.

(** *** _create_dms_case: the notification a case is added to *)

(** [min(l)] and [max(l)]. *)
Definition list_min (l : list Z) : result Z :=
  match l with
  | [] => Raise (ValueError "min() arg is an empty sequence")
  | x :: rest => Ok (fold_left Z.min rest x)
  end.

Definition list_max (l : list Z) : result Z :=
  match l with
  | [] => Raise (ValueError "max() arg is an empty sequence")
  | x :: rest => Ok (fold_left Z.max rest x)
  end.

(** [l.remove(x)]: the first occurrence. *)
Fixpoint list_remove (x : Z) (l : list Z) : result (list Z) :=
  match l with
  | [] => Raise (ValueError "list.remove(x): x not in list")
  | y :: rest => if x =? y then Ok rest else (y ::.) <$> list_remove x rest
  end.

(** The three tests of [notif_cfg["duplicates"]]. *)
Definition initial_notification (duplicates : string) (notifs : list Z) : result Z :=
  if String.eqb duplicates "first" then list_min notifs
  else if String.eqb duplicates "last" then list_max notifs
  else if String.eqb duplicates "error"
  then Raise (RuntimeError "More than one notification found! The creation of a DMS case requires the existence of a single notification.")
  else Raise (UnboundLocalError "notif_id").

(** The loop around [qm.add_case]: a notification flagged for deletion is
    taken off the list and the oldest of the rest is tried.  [add_case]
    is the answer of the ERP for a notification: the id and the GUID of
    the new case.  Every turn shortens the list, so [fuel] need not exceed
    its length. *)
Fixpoint add_case_loop (add_case : Z -> attempt (Z * string)) (fuel : nat)
  (notif_id : Z) (notifs : list Z) : attempt (Z * (Z * string)) :=
  match add_case notif_id with
  | Done case => Done (notif_id, case)
  | Failed NotificationDeletedError =>
      rest ← lift_result (list_remove notif_id notifs);
      next ← lift_result (list_min rest);
      match fuel with
      | O => Failed NotificationDeletedError
      | S k => add_case_loop add_case k next rest
      end
  | Failed e => Failed e
  end.

Definition select_notification (add_case : Z -> attempt (Z * string))
  (duplicates : string) (notifs : list Z) : attempt (Z * (Z * string)) :=
  notif_id ← lift_result (initial_notification duplicates notifs);
  add_case_loop add_case (length notifs) notif_id notifs.

(** *** execute: what happens to one document *)

(** What [execute] reads of a compiled claim. *)
Record claim_view : Type := {
  transaction : string;
  issuer : string;
  reference_by : string
}.

(** The calls into SAP, the database and the file system, with their
    answers for the document at hand. *)
Record site : Type := {
  exist_dms_cases : result bool;
  exists_qm_notification : result (list Z);
  creditnote_recorded : result (option string);
  create_zqm_notification : result Z;
  create_qm_notification : result Z;
  create_dms_case : list Z -> result Z;
  record_creditnote : string -> result Z;
  move_files : string -> option Z -> result unit
}.

(** What the user sees: the calls of [_move_files], with the status of the
    document and the case id, and the text appended to the message. *)
Inductive event : Type :=
  | EvMove (doc_status : string) (case_id : option Z)
  | EvMail (text : string).

Definition msg_bahag : string :=
  "Duplicated documents issued by BAHAG! Such documents are to be processed manuallly by accountants.".

Definition msg_info : string :=
  "G.ROBOT_RFC (INFO): Document successfully processed in SAP.".

Definition msg_error : string :=
  "G.ROBOT_RFC (ERROR): Document processing in SAP failed!".

Definition msg_warning (wng : string) : string :=
  "G.ROBOT_RFC (WARNING): " +:+ wng.

Definition _refers_to_account (claim : claim_view) : bool :=
  str_in (reference_by claim) ["account_number"; "head_office_number"].

Definition moved (s : site) (doc_status : string) (case_id : option Z)
  : list event * result unit :=
  ([EvMove doc_status case_id], move_files s doc_status case_id).

(** A creation followed by the move to the folder of the completed
    documents. *)
Definition created (s : site) (r : result Z) : list event * result unit :=
  match r with
  | Ok case_id => moved s "completed" (Some case_id)
  | Raise e => ([], Raise e)
  end.

Definition duplicate (s : site) (claim : claim_view) : list event * result unit :=
  if contains "BAHAG" (issuer claim)
  then ([], Raise (RuntimeError msg_bahag))
  else moved s "duplicate" None.

(** The body of the [try] statement. *)
Definition route (s : site) (claim : claim_view) (ctrl_categ : option string)
  : list event * result unit :=
  let ignore_existing :=
    bool_decide (ctrl_categ = Some "IGNORE_ALREADY_EXISTING") in
  if String.eqb (transaction claim) "ZQM" then
    match exist_dms_cases s with
    | Raise e => ([], Raise e)
    | Ok cases_exist =>
        if negb cases_exist || ignore_existing
        then created s (create_zqm_notification s)
        else duplicate s claim
    end
  else if String.eqb (transaction claim) "QM" then
    if _refers_to_account claim then
      match exist_dms_cases s with
      | Raise e => ([], Raise e)
      | Ok cases_exist =>
          if negb cases_exist || ignore_existing
          then created s (create_qm_notification s)
          else duplicate s claim
      end
    else
      match exists_qm_notification s with
      | Raise e => ([], Raise e)
      | Ok notifs_id =>
          if (length notifs_id =? 0)%nat then
            match exist_dms_cases s with
            | Raise e => ([], Raise e)
            | Ok true =>
                if ignore_existing
                then created s (create_qm_notification s)
                else duplicate s claim
            | Ok false => created s (create_qm_notification s)
            end
          else
            match exist_dms_cases s with
            | Raise e => ([], Raise e)
            | Ok false => created s (create_dms_case s notifs_id)
            | Ok true => duplicate s claim
            end
      end
  else if String.eqb (transaction claim) "DMS" then
    match creditnote_recorded s with
    | Raise e => ([], Raise e)
    | Ok None => duplicate s claim
    | Ok (Some case_guid) => created s (record_creditnote s case_guid)
    end
  else ([], Ok tt).

(** The [try] statement with its handlers; an exception of a handler
    leaves [execute]. *)
Definition process_document (s : site) (claim : claim_view)
  (ctrl_categ : option string) : list event * result unit :=
  let '(evs, r) := route s claim ctrl_categ in
  match r with
  | Ok _ => ((evs ++ [EvMail msg_info])%list, Ok tt)
  | Raise (RuntimeWarning wng) => ((evs ++ [EvMail (msg_warning wng)])%list, Ok tt)
  | Raise _ =>
      match move_files s "processing_error" None with
      | Ok _ =>
          ((evs ++ [EvMove "processing_error" None; EvMail msg_error])%list, Ok tt)
      | Raise e =>
          ((evs ++ [EvMove "processing_error" None])%list, Raise e)
      end
  end.

Definition is_mail (ev : event) : bool :=
  match ev with
  | EvMail _ => true
  | EvMove _ _ => false
  end.

(** *** _load_processing_rules *)

(** A rule file: the name of its directory, its name, and the mapping read
    from it. *)
Record rule_file : Type := {
  dir_name : string;
  fullname : string;
  content : rule
}.

(** [key in data]. *)
Definition has_key (data : rule) (key : string) : bool :=
  bool_decide (is_Some (rule_lookup data key)).

(** [del data[key]]. *)
Definition del_key (data : rule) (key : string) : rule :=
  List.filter (fun kv => negb (String.eqb key (fst kv))) data.

(** [data.update({key: v})]: the value of a present key is replaced where
    it stands; a new key goes to the end. *)
Fixpoint update_key (data : rule) (key : string) (v : rule_param) : rule :=
  match data with
  | [] => [(key, v)]
  | (k, w) :: rest =>
      if String.eqb key k then (k, v) :: rest else (k, w) :: update_key rest key v
  end.

Definition is_zqm_category (data : rule) : bool :=
  match rule_lookup data "category" with
  | Some (Plain (CStr c)) => str_in c ["bonus"; "promo"; "quality"]
  | _ => false
  end.

(** ["user" in data["claim_create"]] and the deletion that follows. *)
Definition drop_user (data : rule) : result rule :=
  match rule_lookup data "claim_create" with
  | None => Raise (KeyError "claim_create")
  | Some (Ruleset params) =>
      if existsb (fun kv => String.eqb "user" (fst kv)) params
      then Ok (update_key data "claim_create"
                 (Ruleset (List.filter (fun kv => negb (String.eqb "user" (fst kv))) params)))
      else Ok data
  | Some (Plain (CStr s)) =>
      if contains "user" s
      then Raise (TypeError "'str' object doesn't support item deletion")
      else Ok data
  | Some (Plain (CStrs l)) =>
      if str_in "user" l
      then Raise (TypeError "list indices must be integers or slices, not str")
      else Ok data
  | Some (Plain (CInts _)) => Ok data
  | Some (Plain _) => Raise (TypeError "argument is not iterable")
  end.

(** [data[key] == s] for a string [s]. *)
Definition value_is (data : rule) (key s : string) : bool :=
  match rule_lookup data key with
  | Some (Plain (CStr t)) => String.eqb t s
  | _ => false
  end.

(** The tests a rule file passes before it is kept. *)
Definition rule_complete (data : rule) : bool :=
  has_key data "template_id"
  && has_key data "kind"
  && negb (negb (has_key data "category")
           && value_is data "kind" "debit")
  && has_key data "company_code"
  && has_key data "threshold"
  && has_key data "tolerance".

(** The loop over the rule files. *)
Fixpoint load_rules (files : list rule_file)
  (rules : gmap string (list rule)) : result (gmap string (list rule)) :=
  match files with
  | [] => Ok rules
  | rule_file :: rest =>
      let data := content rule_file in
      if negb (rule_complete data) then load_rules rest rules
      else
        data ← (if is_zqm_category data
                then drop_user (if has_key data "case_add"
                                then del_key data "case_add" else data)
                else Ok data);
        let data := update_key data "name" (Plain (CStr (fullname rule_file))) in
        load_rules rest
          (<[dir_name rule_file := (default [] (rules !! dir_name rule_file) ++ [data])%list]>
             rules)
  end.

Definition _load_processing_rules (files : list rule_file)
  : result (gmap string (list rule)) :=
  load_rules files ∅.

(** The keys every loaded rule has. *)
Definition required_keys : list string :=
  ["name"; "template_id"; "kind"; "company_code"; "threshold"; "tolerance"].

(** What the body of the [try] statement does with the files. *)
Definition single_move (claim : claim_view) (evs : list event) : Prop :=
  evs = [] \/
  (evs = [EvMove "duplicate" None] /\ contains "BAHAG" (issuer claim) = false) \/
  exists case_id, evs = [EvMove "completed" (Some case_id)].

(** A rule as the loader keeps it.  The cleaning of [case_add] and [user]
    is that of a rule whose [category] is one of the three strings; a rule
    with any other category, a list of categories among them, has every
    parameter of its file. *)
Definition kept_rule (files : list rule_file) (cust : string) (r : rule) : Prop :=
  (forall key, In key required_keys -> is_Some (rule_lookup r key)) /\
  (value_is r "kind" "debit" = true -> is_Some (rule_lookup r "category")) /\
  (is_zqm_category r = true ->
     rule_lookup r "case_add" = None /\
     forall params, rule_lookup r "claim_create" = Some (Ruleset params) ->
                    ~ In "user" (fst <$> params)) /\
  exists f, In f files /\ dir_name f = cust /\
            rule_lookup r "name" = Some (Plain (CStr (fullname f))) /\
            (is_zqm_category r = false ->
               forall key, key <> "name" ->
                           rule_lookup r key = rule_lookup (content f) key).

End Creator.

(** ** Reading aids for the claim manager *)

Module CreatorSamples.
Import Compiler Creator.

(** A rule file of the category quality that carries a [case_add] action
    and a [user] parameter. *)
Definition quality_file : rule_file :=
  {| dir_name := "OBI_DE"; fullname := "obi_quality.yaml";
     content := [("template_id", Plain (CStr "161001DE009"));
                 ("kind", Plain (CStr "debit"));
                 ("category", Plain (CStr "quality"));
                 ("company_code", Plain (CStr "1001"));
                 ("threshold", Plain (CInt 500));
                 ("tolerance", Plain (CInt 0));
                 ("case_add", Ruleset [("coordinator", CStr "A")]);
                 ("claim_create", Ruleset [("user", CStr "B");
                                           ("reference_by", CStr "account_number")])] |}.

(** The rule the loader makes of it. *)
Definition quality_rule : rule :=
  [("template_id", Plain (CStr "161001DE009"));
   ("kind", Plain (CStr "debit"));
   ("category", Plain (CStr "quality"));
   ("company_code", Plain (CStr "1001"));
   ("threshold", Plain (CInt 500));
   ("tolerance", Plain (CInt 0));
   ("claim_create", Ruleset [("reference_by", CStr "account_number")]);
   ("name", Plain (CStr "obi_quality.yaml"))].

(** A rule file whose category is a list of categories, with the same
    [case_add] action and [user] parameter. *)
Definition listed_file : rule_file :=
  {| dir_name := "OBI_DE"; fullname := "obi_listed.yaml";
     content := [("template_id", Plain (CStr "161001DE010"));
                 ("kind", Plain (CStr "debit"));
                 ("category", Plain (CStrs ["quality"; "bonus"]));
                 ("company_code", Plain (CStr "1001"));
                 ("threshold", Plain (CInt 500));
                 ("tolerance", Plain (CInt 0));
                 ("case_add", Ruleset [("coordinator", CStr "A")]);
                 ("claim_create", Ruleset [("user", CStr "B");
                                           ("reference_by", CStr "account_number")])] |}.

(** A system in which nothing exists yet and every call succeeds. *)
Definition fresh_site : site :=
  {| exist_dms_cases := Ok false;
     exists_qm_notification := Ok [];
     creditnote_recorded := Ok (Some "guid");
     create_zqm_notification := Ok 4711;
     create_qm_notification := Ok 4711;
     create_dms_case := fun _ => Ok 4711;
     record_creditnote := fun _ => Ok 4711;
     move_files := fun _ _ => Ok tt |}.

(** The ERP in which only the notification 4002 is not flagged for
    deletion. *)
Definition only_4002 (n : Z) : attempt (Z * string) :=
  if n =? 4002 then Done (77, "guid") else Failed NotificationDeletedError.

Definition all_deleted (n : Z) : attempt (Z * string) :=
  Failed NotificationDeletedError.

End CreatorSamples.

(** ** Existing notifications of a document (svc_creator/__init__.py,
       storage/sap/se16.py) *)

Module Notifications.

Section Search.

(** [se16.find_notifications]: the answer of the ERP for a document. *)
Variable find_notifications : Va03.document -> result (list Z).

(** [list(set(l))]: one copy of every element, in an order the program
    does not control. *)
Variable set_order : list Z -> list Z.

(** One of the two loops over the numbers of the claim. *)
Fixpoint find_all (make : cval -> result Va03.document) (nums : list cval)
  (notifs : list Z) : result (list Z) :=
  match nums with
  | [] => Ok notifs
  | num :: rest =>
      doc ← make num;
      found ← find_notifications doc;
      find_all make rest (notifs ++ found)%list
  end.

Definition _exists_qm_notification (inv_nums deliv_nums : list cval)
  : result (list Z) :=
  if (length inv_nums + length deliv_nums =? 0)%nat then Ok []
  else
    inv_notifs ← find_all Va03.make_Invoice inv_nums [];
    deliv_notifs ← find_all Va03.make_Delivery deliv_nums [];
    if (length (inv_notifs ++ deliv_notifs) =? 0)%nat then Ok []
    else Ok (set_order (inv_notifs ++ deliv_notifs)%list).

(** The notification [n] was found for one of the numbers [nums]. *)
Definition found_for (make : cval -> result Va03.document) (nums : list cval)
  (n : Z) : Prop :=
  exists num doc l,
    In num nums /\ make num = Ok doc /\ find_notifications doc = Ok l /\ In n l.

End Search.

(** The ERP with the notification 4001 for the invoice 900000001 and the
    notifications 4001 and 4002 for every delivery. *)
Definition sample_find (doc : Va03.document) : result (list Z) :=
  match doc with
  | Va03.Invoice _ => Ok [4001]
  | Va03.Delivery _ => Ok [4001; 4002]
  | Va03.PurchaseOrder _ => Raise (TypeError "Expected document with type 'Delivery' or 'Invoice'")
  end.

End Notifications.

(* ================================================================== *)
(** * Part II: properties *)
(* ================================================================== *)

Module NumbersExamples.
Import Numbers.

Example docstring_1 :
  same_num (parse_number (AStr "125,30-") CoerceNone ErrRaise) (-1253 # 10) = true.
Proof. reflexivity. Qed.

Example docstring_2 :
  same_num (parse_number (AStr "1.254.125,33-") CoerceNone ErrRaise)
           (-125412533 # 100) = true.
Proof. reflexivity. Qed.

Example docstring_3 :
  same_num (parse_number (AStr "1,254,125,33-") CoerceNone ErrRaise)
           (-125412533 # 100) = true.
Proof. reflexivity. Qed.

Example docstring_4 :
  same_num (parse_number (AStr "125,5400") CoerceNone ErrRaise) (12554 # 100) = true.
Proof. reflexivity. Qed.

Example docstring_5 :
  parse_number (AStr "1,000") CoerceInt ErrRaise = Ok (ANum (NInt 1)).
Proof. reflexivity. Qed.

End NumbersExamples.

(** ** Facts about the string primitives *)

Module PyStrFacts.
Import PyStr.

Lemma append_cons c (a b : string) : String c a +:+ b = String c (a +:+ b).
Proof. reflexivity. Qed.

Lemma append_nil_l (s : string) : "" +:+ s = s.
Proof. reflexivity. Qed.

Ltac str_simpl := rewrite ?append_cons, ?append_nil_l; simpl.

Lemma append_nil_r (s : string) : s +:+ "" = s.
Proof. induction s as [|c s IH]; str_simpl; [reflexivity | now rewrite IH]. Qed.

Lemma append_assoc (a b c : string) : (a +:+ b) +:+ c = a +:+ (b +:+ c).
Proof. induction a as [|x a IH]; str_simpl; [reflexivity | now rewrite IH]. Qed.

Lemma length_append (a b : string) :
  String.length (a +:+ b) = (String.length a + String.length b)%nat.
Proof. induction a as [|x a IH]; str_simpl; [reflexivity | now rewrite IH]. Qed.

Lemma all_chars_app p (a b : string) :
  all_chars p (a +:+ b) = all_chars p a && all_chars p b.
Proof.
  induction a as [|x a IH]; str_simpl; [reflexivity |].
  now rewrite IH, andb_assoc.
Qed.

Lemma any_char_app p (a b : string) :
  any_char p (a +:+ b) = any_char p a || any_char p b.
Proof.
  induction a as [|x a IH]; str_simpl; [reflexivity |].
  now rewrite IH, orb_assoc.
Qed.

Lemma any_char_all_false p (s : string) :
  all_chars (fun c => negb (p c)) s = true -> any_char p s = false.
Proof.
  induction s as [|x s IH]; simpl; [reflexivity |].
  intros H. apply andb_prop in H as [Hx Hs].
  apply negb_true_iff in Hx. now rewrite Hx, IH.
Qed.

Lemma all_chars_impl (p q : ascii -> bool) (s : string) :
  (forall c, p c = true -> q c = true) ->
  all_chars p s = true -> all_chars q s = true.
Proof.
  intros Hpq. induction s as [|x s IH]; simpl; [reflexivity |].
  intros H. apply andb_prop in H as [Hx Hs].
  now rewrite (Hpq _ Hx), IH.
Qed.

(** [s.replace(c, "")] removes every occurrence of the character. *)
Lemma replace_char_remove (c : ascii) (s : string) :
  replace (String c "") "" s = remove_char c s.
Proof.
  unfold replace. induction s as [|a s IH]; [reflexivity |].
  cbn [replace_from startswith remove_char String.length Nat.sub].
  rewrite andb_true_r. destruct (Ascii.eqb c a); str_simpl; now rewrite IH.
Qed.

Lemma remove_char_app c (a b : string) :
  remove_char c (a +:+ b) = remove_char c a +:+ remove_char c b.
Proof.
  induction a as [|x a IH]; str_simpl; [reflexivity |].
  destruct (Ascii.eqb c x); str_simpl; now rewrite IH.
Qed.

Lemma remove_char_absent c (s : string) :
  all_chars (fun a => negb (Ascii.eqb c a)) s = true -> remove_char c s = s.
Proof.
  induction s as [|x s IH]; simpl; [reflexivity |].
  intros H. apply andb_prop in H as [Hx Hs].
  apply negb_true_iff in Hx. now rewrite Hx, IH.
Qed.

Lemma digit_not_char c a :
  is_digit c = false -> is_digit a = true -> Ascii.eqb c a = false.
Proof.
  intros Hc Ha. destruct (Ascii.eqb c a) eqn:E; [|reflexivity].
  apply Ascii.eqb_eq in E. congruence.
Qed.

Lemma remove_char_digits c (s : string) :
  is_digit c = false -> all_chars is_digit s = true -> remove_char c s = s.
Proof.
  intros Hc Hs. apply remove_char_absent.
  eapply all_chars_impl; [|exact Hs].
  intros a Ha. simpl. now rewrite (digit_not_char c a Hc Ha).
Qed.

Lemma lstrip_outside p c (s : string) :
  p c = false -> lstrip p (String c s) = String c s.
Proof. intros H. simpl. now rewrite H. Qed.

Lemma rstrip_ends_outside p (s : string) :
  ends_outside p s = true -> rstrip p s = s.
Proof.
  induction s as [|c s IH]; [discriminate |].
  destruct s as [|c' s'].
  - simpl. intros H. apply negb_true_iff in H. now rewrite H.
  - intros H. change (ends_outside p (String c (String c' s')))
      with (ends_outside p (String c' s')) in H.
    specialize (IH H).
    change (rstrip p (String c (String c' s'))) with
      (match rstrip p (String c' s') with
       | EmptyString => if p c then EmptyString else String c EmptyString
       | r => String c r
       end).
    now rewrite IH.
Qed.

Lemma rstrip_drop_last p c (s : string) :
  p c = true -> ends_outside p s = true -> rstrip p (s +:+ String c "") = s.
Proof.
  intros Hc. induction s as [|x s IH]; [discriminate |].
  destruct s as [|y s'].
  - str_simpl. rewrite Hc. intros H. apply negb_true_iff in H. now rewrite H.
  - intros H. change (ends_outside p (String x (String y s')))
      with (ends_outside p (String y s')) in H.
    specialize (IH H).
    change (rstrip p (String x (String y s') +:+ String c "")) with
      (match rstrip p (String y s' +:+ String c "") with
       | EmptyString => if p x then EmptyString else String x EmptyString
       | r => String x r
       end).
    now rewrite IH.
Qed.

Lemma ends_outside_app p (a : string) c (b : string) :
  ends_outside p (a +:+ String c b) = ends_outside p (String c b).
Proof.
  induction a as [|x a IH]; [reflexivity |].
  change (String x a +:+ String c b) with (String x (a +:+ String c b)).
  destruct a as [|y a']; simpl in *; exact IH.
Qed.

Lemma ends_outside_digits p (s : string) :
  (forall c, is_digit c = true -> p c = false) ->
  s <> "" -> all_chars is_digit s = true -> ends_outside p s = true.
Proof.
  intros Hp. induction s as [|c s IH]; [congruence |].
  intros _ H. simpl in H. apply andb_prop in H as [Hc Hs].
  destruct s as [|c' s'].
  - simpl. now rewrite (Hp _ Hc).
  - change (ends_outside p (String c (String c' s')))
      with (ends_outside p (String c' s')).
    apply IH; [discriminate | exact Hs].
Qed.

Lemma split_nondigit_digits (s : string) :
  all_chars is_digit s = true -> split_nondigit s = [s].
Proof.
  induction s as [|c s IH]; [reflexivity |].
  simpl. intros H. apply andb_prop in H as [Hc Hs].
  now rewrite Hc, (IH Hs).
Qed.

Lemma split_nondigit_last (a : string) m (f : string) :
  is_digit m = false -> all_chars is_digit f = true ->
  exists t ts, split_nondigit (a +:+ String m f) = ((t :: ts) ++ [f])%list.
Proof.
  intros Hm Hf. induction a as [|c a IH].
  - str_simpl. rewrite Hm. exists "", []. now rewrite (split_nondigit_digits f Hf).
  - destruct IH as (t & ts & IH). str_simpl. rewrite IH.
    destruct (is_digit c).
    + now exists (String c t), ts.
    + now exists "", (t :: ts).
Qed.

Lemma int_of_digits_from_app acc (a b : string) :
  int_of_digits_from acc (a +:+ b) =
  int_of_digits_from (int_of_digits_from acc a) b.
Proof.
  revert acc. induction a as [|c a IH]; str_simpl; intros; [reflexivity | apply IH].
Qed.

Lemma digit_cases (k : Z) :
  0 <= k < 10 ->
  k = 0 \/ k = 1 \/ k = 2 \/ k = 3 \/ k = 4 \/
  k = 5 \/ k = 6 \/ k = 7 \/ k = 8 \/ k = 9.
Proof. lia. Qed.

Lemma digit_val_char (k : Z) : 0 <= k < 10 -> digit_val (digit_char k) = k.
Proof.
  intros H. destruct (digit_cases k H) as [-> | [-> | [-> | [-> | [-> |
    [-> | [-> | [-> | [-> | ->]]]]]]]]]; reflexivity.
Qed.

Lemma is_digit_char (k : Z) : 0 <= k < 10 -> is_digit (digit_char k) = true.
Proof.
  intros H. destruct (digit_cases k H) as [-> | [-> | [-> | [-> | [-> |
    [-> | [-> | [-> | [-> | ->]]]]]]]]]; reflexivity.
Qed.

End PyStrFacts.

(** ** The numeric parser on formatted decimals *)

Module NumbersFacts.
Import PyStr PyStrFacts Numbers NumberFormat.

Lemma mod10_bound (n : Z) : 0 <= n mod 10 < 10.
Proof. apply Z.mod_pos_bound. lia. Qed.

Lemma digits_w_all_digits (w : nat) (n : Z) :
  all_chars is_digit (digits_w w n) = true.
Proof.
  revert n. induction w as [|w IH]; intros n; [reflexivity |].
  cbn [digits_w]. rewrite all_chars_app, IH. simpl.
  now rewrite (is_digit_char _ (mod10_bound n)).
Qed.

Lemma digits_w_length (w : nat) (n : Z) : String.length (digits_w w n) = w.
Proof.
  revert n. induction w as [|w IH]; intros n; [reflexivity |].
  cbn [digits_w]. rewrite length_append, IH. simpl. lia.
Qed.

Lemma digits_w_value acc (w : nat) (n : Z) :
  int_of_digits_from acc (digits_w w n) =
  acc * 10 ^ Z.of_nat w + n mod 10 ^ Z.of_nat w.
Proof.
  revert n. induction w as [|w IH]; intros n.
  - simpl. rewrite Z.mod_1_r. lia.
  - cbn [digits_w]. rewrite int_of_digits_from_app, IH.
    cbn [int_of_digits_from]. rewrite (digit_val_char _ (mod10_bound n)).
    rewrite Nat2Z.inj_succ, Z.pow_succ_r by lia.
    rewrite (Z.rem_mul_r n 10 (10 ^ Z.of_nat w)) by lia. ring.
Qed.

Lemma width_fuel_pos fuel n : (1 <= width_fuel fuel n)%nat.
Proof. destruct fuel; simpl; [lia |]. destruct (n <? 10); lia. Qed.

Lemma width_fuel_bound (fuel : nat) (n : Z) :
  0 <= n < 2 ^ Z.of_nat fuel -> n < 10 ^ Z.of_nat (width_fuel fuel n).
Proof.
  revert n. induction fuel as [|f IH]; intros n Hn.
  - simpl in *. lia.
  - cbn [width_fuel]. destruct (Z.ltb_spec n 10) as [Hlt | Hge]; [simpl; lia |].
    rewrite Nat2Z.inj_succ, Z.pow_succ_r in * by lia.
    assert (H10 : n / 10 < 10 ^ Z.of_nat (width_fuel f (n / 10))).
    { apply IH. split; [apply Z.div_pos; lia |].
      apply Z.div_lt_upper_bound; lia. }
    pose proof (Z.mul_div_le n 10 ltac:(lia)).
    pose proof (Z.mod_pos_bound n 10 ltac:(lia)).
    pose proof (Z.div_mod n 10 ltac:(lia)). lia.
Qed.

Lemma width_bound (n : Z) : 0 <= n -> n < 10 ^ Z.of_nat (width n).
Proof.
  intros Hn. unfold width. apply width_fuel_bound. split; [exact Hn |].
  destruct (Z.eq_dec n 0) as [-> | Hne]; [simpl; lia |].
  rewrite Nat2Z.inj_add, Z2Nat.id by apply Z.log2_nonneg.
  pose proof (Z.log2_spec n ltac:(lia)) as [_ H].
  now rewrite Z.add_1_r.
Qed.

Lemma digits_all_digits (n : Z) : all_chars is_digit (digits n) = true.
Proof. apply digits_w_all_digits. Qed.

Lemma digits_nonempty (n : Z) : digits n <> "".
Proof.
  unfold digits. intros H.
  pose proof (digits_w_length (width n) n) as L. rewrite H in L. simpl in L.
  pose proof (width_fuel_pos (Z.to_nat (Z.log2 n) + 1) n). unfold width in L. lia.
Qed.

Lemma digits_value acc (n : Z) :
  0 <= n -> int_of_digits_from acc (digits n) = acc * 10 ^ Z.of_nat (width n) + n.
Proof.
  intros Hn. unfold digits. rewrite digits_w_value.
  rewrite Z.mod_small; [reflexivity |]. split; [exact Hn | now apply width_bound].
Qed.

(** Value of the concatenated integer and fractional digits. *)
Lemma digits_concat_value (m : Z) (d : nat) :
  0 <= m ->
  int_of_digits (digits (m / 10 ^ Z.of_nat d) +:+ digits_w d (m mod 10 ^ Z.of_nat d)) = m.
Proof.
  intros Hm. unfold int_of_digits.
  assert (Hp : 0 < 10 ^ Z.of_nat d) by (apply Z.pow_pos_nonneg; lia).
  rewrite int_of_digits_from_app, digits_value by (apply Z.div_pos; lia).
  rewrite digits_w_value, Z.mod_mod by lia.
  pose proof (Z.div_mod m (10 ^ Z.of_nat d) ltac:(lia)). lia.
Qed.

(** *** Grouping *)

Lemma group_cons sep c (s : string) :
  exists r, group sep (String c s) = String c r.
Proof. simpl. destruct (_ && _); eauto. Qed.

Lemma group_nonempty sep (s : string) : s <> "" -> group sep s <> "".
Proof.
  destruct s as [|c s]; [congruence |]. intros _.
  destruct (group_cons sep c s) as [r ->]. discriminate.
Qed.

Lemma all_chars_group (q : ascii -> bool) sep (s : string) :
  q sep = true -> all_chars q s = true -> all_chars q (group sep s) = true.
Proof.
  intros Hsep. induction s as [|c s IH]; [reflexivity |].
  simpl. intros H. apply andb_prop in H as [Hc Hs].
  destruct (_ && _); simpl; rewrite Hc, ?Hsep, (IH Hs); reflexivity.
Qed.

Lemma remove_sep_group sep (s : string) :
  is_digit sep = false -> all_chars is_digit s = true ->
  remove_char sep (group sep s) = s.
Proof.
  intros Hsep. induction s as [|c s IH]; [reflexivity |].
  simpl. intros H. apply andb_prop in H as [Hc Hs].
  destruct (_ && _); simpl;
    rewrite (digit_not_char sep c Hsep Hc), ?Ascii.eqb_refl, (IH Hs); reflexivity.
Qed.

Lemma remove_other_group c sep (s : string) :
  is_digit c = false -> c <> sep -> all_chars is_digit s = true ->
  remove_char c (group sep s) = group sep s.
Proof.
  intros Hc Hne Hs. apply remove_char_absent.
  apply all_chars_group.
  - apply negb_true_iff. now apply Ascii.eqb_neq.
  - eapply all_chars_impl; [|exact Hs].
    intros a Ha. simpl. now rewrite (digit_not_char c a Hc Ha).
Qed.

Lemma ends_outside_cons p c (s : string) :
  s <> "" -> ends_outside p (String c s) = ends_outside p s.
Proof. destruct s; [congruence | reflexivity]. Qed.

Lemma ends_outside_group p sep (s : string) :
  (forall c, is_digit c = true -> p c = false) ->
  s <> "" -> all_chars is_digit s = true -> ends_outside p (group sep s) = true.
Proof.
  intros Hp. induction s as [|c s IH]; [congruence |].
  intros _ H. simpl in H. apply andb_prop in H as [Hc Hs].
  destruct s as [|c' s'].
  - simpl. now rewrite (Hp _ Hc).
  - assert (Hne : String c' s' <> "") by discriminate.
    specialize (IH Hne Hs).
    pose proof (group_nonempty sep _ Hne) as Hg.
    cbn [group]. destruct (_ && _).
    + rewrite ends_outside_cons by discriminate.
      now rewrite ends_outside_cons.
    + now rewrite ends_outside_cons.
Qed.

(** *** The parser, step by step *)

Lemma isnumeric_app_r (a b : string) :
  all_chars is_digit a = true -> all_chars is_digit b = true -> b <> "" ->
  isnumeric (a +:+ b) = true.
Proof.
  intros Ha Hb Hne.
  assert (H : all_chars is_digit (a +:+ b) = true) by now rewrite all_chars_app, Ha, Hb.
  destruct a as [|x a]; [|exact H].
  destruct b as [|y b]; [congruence | exact H].
Qed.

Lemma parse_number_decimal (s r : string) mark (fp ip : string) :
  strip (Ascii.eqb "-") (replace " " "" s) = r +:+ String mark fp ->
  is_digit mark = false ->
  all_chars is_digit fp = true -> fp <> "" ->
  replace "," "" (replace "." "" (r +:+ String mark fp)) = ip +:+ fp ->
  all_chars is_digit ip = true ->
  parse_number (AStr s) CoerceNone ErrRaise =
  Ok (ANum (NFloat
    (let q := (inject_Z (int_of_digits (ip +:+ fp)) /
               inject_Z (10 ^ Z.of_nat (String.length fp)))%Q in
     if contains_char "-" s then (q * inject_Z (-1))%Q else q))).
Proof.
  intros Hstrip Hmark Hfp Hne Hrepl Hip.
  unfold parse_number. rewrite Hstrip.
  assert (Hany : any_char (fun c => negb (is_digit c)) (r +:+ String mark fp) = true).
  { rewrite any_char_app. simpl. rewrite Hmark. simpl. apply orb_true_r. }
  rewrite Hany.
  destruct (split_nondigit_last r mark fp Hmark Hfp) as (t & ts & ->).
  rewrite List.last_last, Hrepl, (isnumeric_app_r ip fp Hip Hfp Hne).
  cbn [negb]. destruct fp as [|c fp']; [congruence |].
  cbn [String.length]. destruct (contains_char "-" s); reflexivity.
Qed.

Lemma parse_number_integer (s ip : string) :
  strip (Ascii.eqb "-") (replace " " "" s) = ip ->
  all_chars is_digit ip = true -> ip <> "" ->
  parse_number (AStr s) CoerceNone ErrRaise =
  Ok (ANum (NInt (if contains_char "-" s
                  then int_of_digits ip * -1 else int_of_digits ip))).
Proof.
  intros Hstrip Hip Hne. unfold parse_number. rewrite Hstrip.
  rewrite (any_char_all_false (fun c => negb (is_digit c)) ip).
  2:{ eapply all_chars_impl; [|exact Hip]. intros c Hc. now rewrite Hc. }
  rewrite !replace_char_remove.
  rewrite (remove_char_digits "." ip eq_refl Hip).
  rewrite (remove_char_digits "," ip eq_refl Hip).
  replace (isnumeric ip) with true.
  2:{ destruct ip; [congruence | now rewrite <- Hip]. }
  cbn [negb]. destruct (contains_char "-" s); reflexivity.
Qed.

(** *** The formatted string, step by step *)

Section Formatted.
Variables (st : style) (m : N) (d : nat).
Hypothesis Hsep : is_separator (thousands_sep st).

Let scale := 10 ^ Z.of_nat d.
Let ip := digits (Z.of_N m / scale).
Let fp := digits_w d (Z.of_N m mod scale).
Let G := group (thousands_sep st) ip.

Lemma sep_not_digit : is_digit (thousands_sep st) = false.
Proof. destruct Hsep as [-> | [-> | ->]]; reflexivity. Qed.

Lemma ip_digits : all_chars is_digit ip = true.
Proof. apply digits_all_digits. Qed.

Lemma fp_digits : all_chars is_digit fp = true.
Proof. apply digits_w_all_digits. Qed.

Lemma G_no_minus : any_char (Ascii.eqb "-") G = false.
Proof.
  apply any_char_all_false, all_chars_group.
  - destruct Hsep as [-> | [-> | ->]]; reflexivity.
  - eapply all_chars_impl; [|exact ip_digits].
    intros c Hc. cbv beta. now rewrite (digit_not_char "-" c eq_refl Hc).
Qed.

Lemma digits_no_minus (s : string) :
  all_chars is_digit s = true -> any_char (Ascii.eqb "-") s = false.
Proof.
  intros Hs. apply any_char_all_false. eapply all_chars_impl; [|exact Hs].
  intros c Hc. cbv beta. now rewrite (digit_not_char "-" c eq_refl Hc).
Qed.

(** The separators vanish under the three removals of the parser. *)
Lemma G_removed :
  remove_char "," (remove_char "." (remove_char " " G)) = ip.
Proof.
  pose proof ip_digits as Hd. unfold G.
  destruct Hsep as [E | [E | E]]; rewrite E.
  - rewrite (remove_other_group " " "." ip) by (try reflexivity; try discriminate; exact Hd).
    rewrite remove_sep_group by (try reflexivity; exact Hd).
    now rewrite remove_char_digits.
  - rewrite (remove_other_group " " "," ip) by (try reflexivity; try discriminate; exact Hd).
    rewrite (remove_other_group "." "," ip) by (try reflexivity; try discriminate; exact Hd).
    now rewrite remove_sep_group.
  - rewrite remove_sep_group by (try reflexivity; exact Hd).
    rewrite (remove_char_digits "." ip eq_refl Hd).
    now rewrite (remove_char_digits "," ip eq_refl Hd).
Qed.

(** Removing the blanks keeps a leading digit in front. *)
Lemma G_blank_head :
  exists c r, remove_char " " G = String c r /\ is_digit c = true.
Proof.
  pose proof ip_digits as Hd. pose proof (digits_nonempty (Z.of_N m / scale)) as Hne.
  unfold G. fold ip in Hne. destruct ip as [|c ip']; [congruence |].
  destruct (group_cons (thousands_sep st) c ip') as [r ->].
  simpl in Hd. apply andb_prop in Hd as [Hc _].
  exists c, (remove_char " " r). split; [|exact Hc].
  cbn [remove_char]. now rewrite (digit_not_char " " c eq_refl Hc).
Qed.

Lemma G_blank_no_minus : any_char (Ascii.eqb "-") (remove_char " " G) = false.
Proof.
  pose proof G_no_minus as H. revert H. generalize G as s. clear.
  intros s. induction s as [|c s IH]; [reflexivity |]. cbn [remove_char any_char].
  intros H. apply orb_false_elim in H as [Hc Hs].
  destruct (Ascii.eqb " " c); cbn [any_char]; rewrite ?Hc; now apply IH.
Qed.

End Formatted.

Section FormattedDecimal.
Variables (st : style) (m : N) (d : nat).
Hypothesis Hsep : is_separator (thousands_sep st).
Hypothesis Hmark : is_mark (decimal_mark st).
Hypothesis Hd : d <> O.

Let scale := 10 ^ Z.of_nat d.
Let ip := digits (Z.of_N m / scale).
Let fp := digits_w d (Z.of_N m mod scale).
Let G := group (thousands_sep st) ip.
Let mark := decimal_mark st.
Let B := remove_char " " G +:+ String mark fp.

Lemma mark_not_digit : is_digit mark = false.
Proof. unfold mark. destruct Hmark as [-> | ->]; reflexivity. Qed.

Lemma fp_nonempty : fp <> "".
Proof.
  intros H. pose proof (digits_w_length d (Z.of_N m mod scale)) as L.
  fold fp in L. rewrite H in L. simpl in L. congruence.
Qed.

Lemma body_blank : remove_char " " (G +:+ String mark fp) = B.
Proof.
  unfold B. rewrite remove_char_app. f_equal.
  cbn [remove_char].
  replace (Ascii.eqb " " mark) with false
    by (unfold mark; destruct Hmark as [-> | ->]; reflexivity).
  now rewrite (remove_char_digits " " fp eq_refl (fp_digits m d)).
Qed.

Lemma B_ends : ends_outside (Ascii.eqb "-") B = true.
Proof.
  unfold B. rewrite ends_outside_app.
  rewrite ends_outside_cons by exact fp_nonempty.
  apply ends_outside_digits; [| exact fp_nonempty | exact (fp_digits m d)].
  intros c Hc. exact (digit_not_char "-" c eq_refl Hc).
Qed.

Lemma B_lstrip : lstrip (Ascii.eqb "-") B = B.
Proof.
  unfold B, G, ip, scale. destruct (G_blank_head st m d) as (c & r & -> & Hc).
  rewrite append_cons. apply lstrip_outside.
  exact (digit_not_char "-" c eq_refl Hc).
Qed.

Lemma strip_plain : strip (Ascii.eqb "-") B = B.
Proof. unfold strip. rewrite B_lstrip. apply rstrip_ends_outside, B_ends. Qed.

Lemma strip_leading : strip (Ascii.eqb "-") ("-" +:+ B) = B.
Proof.
  unfold strip. rewrite append_cons, append_nil_l.
  change (lstrip (Ascii.eqb "-") (String "-" B)) with (lstrip (Ascii.eqb "-") B).
  rewrite B_lstrip. apply rstrip_ends_outside, B_ends.
Qed.

Lemma strip_trailing : strip (Ascii.eqb "-") (B +:+ "-") = B.
Proof.
  unfold strip.
  assert (H : lstrip (Ascii.eqb "-") (B +:+ "-") = B +:+ "-").
  { unfold B, G, ip, scale. destruct (G_blank_head st m d) as (c & r & -> & Hc).
    rewrite !append_cons. apply lstrip_outside.
    exact (digit_not_char "-" c eq_refl Hc). }
  rewrite H. apply rstrip_drop_last; [reflexivity | apply B_ends].
Qed.

Lemma B_removed : replace "," "" (replace "." "" B) = ip +:+ fp.
Proof.
  rewrite !replace_char_remove. unfold B.
  rewrite !remove_char_app. unfold G, ip, scale.
  rewrite (G_removed st m d Hsep). f_equal.
  pose proof (fp_digits m d) as Hf. fold scale in Hf. fold fp in Hf.
  unfold mark. destruct Hmark as [-> | ->]; cbn [remove_char Ascii.eqb Bool.eqb].
  - rewrite (remove_char_digits "." fp eq_refl Hf).
    now rewrite (remove_char_digits "," fp eq_refl Hf).
  - rewrite (remove_char_digits "." fp eq_refl Hf).
    now rewrite (remove_char_digits "," fp eq_refl Hf).
Qed.

Lemma body_no_minus : contains_char "-" (G +:+ String mark fp) = false.
Proof.
  unfold contains_char. rewrite any_char_app. unfold G, ip, scale.
  rewrite (G_no_minus st m d Hsep). cbn [any_char orb].
  replace (Ascii.eqb "-" mark) with false
    by (unfold mark; destruct Hmark as [-> | ->]; reflexivity).
  apply digits_no_minus, fp_digits.
Qed.

(** The parser on the formatted decimal with [d >= 1] fractional digits. *)
Lemma parse_formatted_decimal (neg : bool) :
  parse_number (AStr (spec_format_number st neg m d)) CoerceNone ErrRaise =
  Ok (ANum (NFloat
    (let q := (inject_Z (Z.of_N m) / inject_Z scale)%Q in
     if neg then (q * inject_Z (-1))%Q else q))).
Proof.
  assert (Hfmt : spec_format_number st neg m d =
                 if neg
                 then if sign_trailing st
                      then (G +:+ String mark fp) +:+ "-"
                      else "-" +:+ (G +:+ String mark fp)
                 else G +:+ String mark fp).
  { unfold spec_format_number. fold scale. fold ip. fold fp. fold G. fold mark.
    destruct d; [congruence | reflexivity]. }
  assert (Hval : int_of_digits (ip +:+ fp) = Z.of_N m).
  { apply digits_concat_value. lia. }
  assert (Hlen : String.length fp = d) by apply digits_w_length.
  pose proof (ip_digits m d) as Hi. pose proof (fp_digits m d) as Hf.
  pose proof mark_not_digit as Hm. pose proof fp_nonempty as Hne.
  pose proof B_removed as Hr. pose proof body_no_minus as Hc.
  rewrite Hfmt. destruct neg; [destruct (sign_trailing st) |].
  - rewrite (parse_number_decimal _ (remove_char " " G) mark fp ip); try assumption.
    + rewrite Hval, Hlen. unfold contains_char. rewrite any_char_app.
      fold (contains_char "-" (G +:+ String mark fp)). rewrite Hc. reflexivity.
    + rewrite replace_char_remove, remove_char_app, body_blank. apply strip_trailing.
  - rewrite (parse_number_decimal _ (remove_char " " G) mark fp ip); try assumption.
    + rewrite Hval, Hlen. reflexivity.
    + rewrite replace_char_remove, remove_char_app, body_blank. apply strip_leading.
  - rewrite (parse_number_decimal _ (remove_char " " G) mark fp ip); try assumption.
    + rewrite Hval, Hlen, Hc. reflexivity.
    + rewrite replace_char_remove, body_blank. apply strip_plain.
Qed.

End FormattedDecimal.

(** The parser on a formatted integer grouped with blanks. *)
Lemma parse_formatted_integer (st : style) (neg : bool) (m : N) :
  thousands_sep st = " "%char ->
  parse_number (AStr (spec_format_number st neg m 0)) CoerceNone ErrRaise =
  Ok (ANum (NInt (if neg then Z.of_N m * -1 else Z.of_N m))).
Proof.
  intros Hsp.
  set (ip := digits (Z.of_N m / 10 ^ Z.of_nat 0)).
  assert (Hi : all_chars is_digit ip = true) by apply digits_all_digits.
  assert (Hne : ip <> "") by apply digits_nonempty.
  assert (Hval : int_of_digits ip = Z.of_N m).
  { unfold int_of_digits, ip. rewrite digits_value.
    - simpl (10 ^ Z.of_nat 0). rewrite Z.div_1_r. lia.
    - apply Z.div_pos; simpl; lia. }
  assert (Hg : remove_char " " (group " " ip) = ip)
    by (apply remove_sep_group; [reflexivity | exact Hi]).
  assert (Hends : ends_outside (Ascii.eqb "-") ip = true).
  { apply ends_outside_digits; try assumption.
    intros c Hc. exact (digit_not_char "-" c eq_refl Hc). }
  assert (Hl : forall t, lstrip (Ascii.eqb "-") (ip +:+ t) = ip +:+ t).
  { intros t. destruct ip as [|c r]; [congruence |].
    simpl in Hi. apply andb_prop in Hi as [Hc _].
    rewrite append_cons. apply lstrip_outside.
    exact (digit_not_char "-" c eq_refl Hc). }
  assert (Hm : any_char (Ascii.eqb "-") (group " " ip) = false).
  { apply any_char_all_false, all_chars_group; [reflexivity |].
    eapply all_chars_impl; [|exact Hi].
    intros c Hc. cbv beta. now rewrite (digit_not_char "-" c eq_refl Hc). }
  assert (Hfmt : spec_format_number st neg m 0 =
                 if neg
                 then if sign_trailing st
                      then group " " ip +:+ "-" else "-" +:+ group " " ip
                 else group " " ip).
  { unfold spec_format_number. fold ip. rewrite Hsp, append_nil_r. reflexivity. }
  rewrite Hfmt. destruct neg; [destruct (sign_trailing st) |].
  - rewrite (parse_number_integer _ ip); try assumption.
    + rewrite Hval. unfold contains_char. rewrite any_char_app, Hm. reflexivity.
    + rewrite replace_char_remove, remove_char_app, Hg.
      change (remove_char " " "-") with "-".
      unfold strip. rewrite Hl. apply rstrip_drop_last; [reflexivity | exact Hends].
  - rewrite (parse_number_integer _ ip); try assumption.
    + rewrite Hval. reflexivity.
    + rewrite replace_char_remove, remove_char_app, Hg.
      change (remove_char " " "-") with "-".
      unfold strip. rewrite append_cons, append_nil_l.
      change (lstrip (Ascii.eqb "-") (String "-" ip)) with (lstrip (Ascii.eqb "-") ip).
      rewrite <- (append_nil_r ip) at 1. rewrite Hl, append_nil_r.
      apply rstrip_ends_outside, Hends.
  - rewrite (parse_number_integer _ ip); try assumption.
    + rewrite Hval. unfold contains_char. rewrite Hm. reflexivity.
    + rewrite replace_char_remove, Hg.
      unfold strip. rewrite <- (append_nil_r ip) at 1. rewrite Hl, append_nil_r.
      apply rstrip_ends_outside, Hends.
Qed.

End NumbersFacts.

(** ** C9: the round-trip law of the numeric parser *)

Module RoundTrip.
Import PyStr Numbers NumberFormat NumbersFacts.

(** C9, as stated, at the integer 1000 written "1.000": the parser reads the
    last separator as a decimal mark and returns 1.0, so the law fails for a
    number without fractional digits whose thousands are separated by "."
    (the docstring of [parse_number] shows the same reading of "1,000"). *)
Lemma roundtrip_fails_on_grouped_integer :
  (0 <= 4)%nat /\ is_separator (thousands_sep german) /\
  ~ roundtrip_holds german false 1000 0.
Proof.
  split; [lia |]. split; [left; reflexivity |].
  intros (n & Hparse & Hval).
  vm_compute in Hparse. injection Hparse as <-.
  vm_compute in Hval. discriminate Hval.
Qed.

(** C9 (amended): for every decimal [± m / 10^d] with between one and four
    fractional digits, every thousand separator among ".", "," and " ",
    either decimal mark and either position of the sign, [parse_number]
    applied to the formatted string returns the number; for a number without
    fractional digits the same holds when the thousands are separated by
    blanks. *)
Theorem format_parse_roundtrip (st : style) (neg : bool) (m : N) (d : nat) :
  is_separator (thousands_sep st) ->
  is_mark (decimal_mark st) ->
  (1 <= d <= 4)%nat \/ (d = O /\ thousands_sep st = " "%char) ->
  roundtrip_holds st neg m d.
Proof.
  intros Hsep Hmark [[Hd _] | [-> Hblank]].
  - eexists. split.
    + apply parse_formatted_decimal; [exact Hsep | exact Hmark | lia].
    + unfold number_value. cbn [num_val]. destruct neg; cbv zeta; ring.
  - eexists. split.
    + now apply parse_formatted_integer.
    + unfold number_value. cbn [num_val]. change (10 ^ Z.of_nat 0) with 1.
      destruct neg; rewrite ?inject_Z_mult; change (inject_Z 1) with 1%Q;
        unfold Qdiv; change (/ 1)%Q with 1%Q; ring.
Qed.

Lemma format_parse_roundtrip_witness :
  roundtrip_holds german true 125412533 2.
Proof.
  apply format_parse_roundtrip.
  - left. reflexivity.
  - right. reflexivity.
  - left. lia.
Defined.

End RoundTrip.

(** ** The claim compiler *)

Module CompilerFacts.
Import PyStr Compiler ReferenceOrder.

Lemma str_in_In (s : string) (l : list string) : str_in s l = true <-> In s l.
Proof.
  unfold str_in. rewrite existsb_exists. split.
  - intros (x & Hx & E). apply String.eqb_eq in E. now subst.
  - intros H. exists s. split; [exact H | apply String.eqb_refl].
Qed.

(** *** Transaction type (C5) *)

Lemma categories_disjoint (c : option string) :
  category_in c categories_QM = true -> category_in c categories_ZQM = false.
Proof.
  destruct c as [c|]; [|discriminate]. cbn [category_in]. intros H.
  apply str_in_In in H. cbn in H.
  repeat (destruct H as [<- | H]; [reflexivity |]). destruct H.
Qed.

Lemma merge_plain_keeps (r : rule) (h h' : gmap string cval) (k : string) (v : cval) :
  merge_plain r h = Ok h' -> h !! k = Some v -> h' !! k = Some v.
Proof.
  revert h. induction r as [|[name p] r IH]; intros h Hm Hk.
  - injection Hm as <-. exact Hk.
  - destruct p as [params | params]; cbn [merge_plain] in Hm; [|eauto].
    destruct (negb (bool_decide (is_Some (h !! name))) && negb (String.eqb name "name"))
      eqn:Hfresh; [|eauto].
    assert (Hne : name <> k).
    { intros ->. apply andb_prop in Hfresh as [Hf _].
      apply negb_true_iff, bool_decide_eq_false in Hf. apply Hf. eauto. }
    destruct (str_in name ["threshold"; "tolerance"]).
    + destruct (to_float params) as [fv|e] eqn:Hf; [|discriminate Hm].
      cbn in Hm. eapply IH; [exact Hm |]. now rewrite lookup_insert_ne.
    + eapply IH; [exact Hm |]. now rewrite lookup_insert_ne.
Qed.

Lemma transaction_type_spec (data : DocData) (tr : string) :
  _get_transaction_type data = Ok tr ->
  In tr transactions /\
  (tr = "QM" <-> kind data = "debit" /\ category_in (category data) categories_QM = true) /\
  (tr = "ZQM" <-> kind data = "debit" /\ category_in (category data) categories_ZQM = true) /\
  (tr = "DMS" <-> kind data = "credit").
Proof.
  unfold _get_transaction_type.
  destruct (String.eqb_spec (kind data) "debit") as [Hd | Hd].
  - destruct (category_in (category data) categories_QM) eqn:Hq.
    + intros [= <-]. pose proof (categories_disjoint _ Hq) as Hz.
      repeat split; try (cbn; tauto); try discriminate; try congruence.
      all: intros [_ H]; congruence.
    + destruct (category_in (category data) categories_ZQM) eqn:Hz; [|discriminate].
      intros [= <-].
      repeat split; try (cbn; tauto); try discriminate; try congruence.
      all: intros [_ H]; congruence.
  - destruct (String.eqb_spec (kind data) "credit") as [Hc | Hc]; [|discriminate].
    intros [= <-].
    repeat split; try (cbn; tauto); try discriminate; try congruence.
    all: intros [H _]; congruence.
Qed.

(** C5: the header of a compiled claim carries a transaction among QM, ZQM
    and DMS; it is QM exactly for a debit note whose category is one of
    delivery, finance, invoice, penalty_general, penalty_delay,
    penalty_quote, price, rebuild, return; ZQM exactly for a debit note
    whose category is one of bonus, promo, quality; and DMS exactly for a
    credit note.  Kind and category are those of the header. *)
Theorem compiled_transaction (data : DocData) (rules_map : gmap string (list rule))
  (header : gmap string cval) :
  compile_header data rules_map = Ok header ->
  exists (tr knd : string) (categ : option string),
    header !! "transaction" = Some (CStr tr) /\
    header !! "kind" = Some (CStr knd) /\
    header !! "category" = Some (opt_str categ) /\
    In tr ["QM"; "ZQM"; "DMS"] /\
    (tr = "QM" <-> knd = "debit" /\ category_in categ categories_QM = true) /\
    (tr = "ZQM" <-> knd = "debit" /\ category_in categ categories_ZQM = true) /\
    (tr = "DMS" <-> knd = "credit").
Proof.
  unfold compile_header. intros H.
  destruct (_assign_rules (init_data data) rules_map) as [rules|e]; [|discriminate H].
  cbn in H. destruct (rule_lookup rules "name"); [|discriminate H].
  destruct (_get_transaction_type (init_data data)) as [tr|e] eqn:Htr; [|discriminate H].
  cbn in H.
  exists tr, (kind (init_data data)), (category (init_data data)).
  split; [|split; [|split]].
  1-3: eapply merge_plain_keeps; [exact H | by simplify_map_eq].
  exact (transaction_type_spec _ _ Htr).
Qed.

Lemma compiled_transaction_witness :
  compile_header sample_data sample_rules = Ok sample_header /\
  exists (tr knd : string) (categ : option string),
    sample_header !! "transaction" = Some (CStr tr) /\
    sample_header !! "kind" = Some (CStr knd) /\
    sample_header !! "category" = Some (opt_str categ) /\
    In tr ["QM"; "ZQM"; "DMS"] /\
    (tr = "QM" <-> knd = "debit" /\ category_in categ categories_QM = true) /\
    (tr = "ZQM" <-> knd = "debit" /\ category_in categ categories_ZQM = true) /\
    (tr = "DMS" <-> knd = "credit").
Proof.
  assert (H : compile_header sample_data sample_rules = Ok sample_header)
    by (vm_compute; reflexivity).
  split; [exact H | exact (compiled_transaction _ _ _ H)].
Defined.

(** *** Reference selection (C3, C10) *)

Lemma collect_refs_used_head (names used unused : list string)
  (cc : gmap string cval) (U V : list (string * cval)) :
  head (collect_refs names used unused cc U V).1 =
  match U with
  | u :: _ => Some u
  | [] => first_valid names used cc
  end.
Proof.
  revert U V. induction names as [|r names IH]; intros U V.
  - cbn. now destruct U.
  - cbn [collect_refs first_valid]. destruct (dict_get cc r) as [v|]; [|apply IH].
    destruct (str_in r used).
    + rewrite IH. now destruct U.
    + destruct (str_in r unused); apply IH.
Qed.

Lemma collect_refs_unused_nil (names used unused : list string)
  (cc : gmap string cval) (U V : list (string * cval)) :
  (forall r, In r names -> is_Some (dict_get cc r) ->
             str_in r used = false -> str_in r unused = true) ->
  (collect_refs names used unused cc U V).2 = [] <->
  V = [] /\ other_valid names used cc = false.
Proof.
  revert U V. induction names as [|r names IH]; intros U V Hun.
  - cbn. tauto.
  - assert (Hun' : forall r', In r' names -> is_Some (dict_get cc r') ->
                              str_in r' used = false -> str_in r' unused = true)
      by (intros r' Hr'; apply Hun; now right).
    unfold other_valid in *. cbn [collect_refs existsb].
    destruct (dict_get cc r) as [v|] eqn:Hg.
    + destruct (str_in r used) eqn:Hu.
      * rewrite (IH _ _ Hun'). rewrite bool_decide_eq_true_2 by eauto. cbn. tauto.
      * assert (Hs : is_Some (dict_get cc r)) by (rewrite Hg; eauto).
        rewrite (Hun r (or_introl eq_refl) Hs Hu).
        rewrite (IH _ _ Hun'). rewrite bool_decide_eq_true_2 by eauto. cbn.
        split; [intros [H _]; now destruct V | intros [_ H]; discriminate H].
    + rewrite (IH _ _ Hun'). rewrite bool_decide_eq_false_2; [cbn; tauto |].
      intros [x Hx]. discriminate Hx.
Qed.

Lemma first_valid_listed (names listed : list string) (cc : gmap string cval)
  (r : string) (v : cval) :
  first_valid names listed cc = Some (r, v) ->
  In r names /\ In r listed /\ dict_get cc r = Some v.
Proof.
  induction names as [|x names IH]; [discriminate |].
  cbn [first_valid]. destruct (dict_get cc x) as [w|] eqn:Hg.
  - destruct (str_in x listed) eqn:Hl.
    + intros [= <- <-]. repeat split; [now left | now apply str_in_In | exact Hg].
    + intros H. destruct (IH H) as (? & ? & ?). repeat split; [now right | | ]; assumption.
  - intros H. destruct (IH H) as (? & ? & ?). repeat split; [now right | | ]; assumption.
Qed.

Lemma dict_get_has (cc : gmap string cval) (r : string) :
  is_Some (dict_get cc r) -> dict_has cc r = true.
Proof.
  unfold dict_get, dict_has. intros [v Hv].
  apply bool_decide_eq_true. destruct (cc !! r); [eauto | discriminate].
Qed.

Lemma filter_nil_length {A} (f : A -> bool) (l : list A) :
  forallb f l = true -> length (List.filter (fun x => negb (f x)) l) = O.
Proof.
  induction l as [|a l IH]; [reflexivity |]. cbn.
  intros H. apply andb_prop in H as [Ha Hl]. rewrite Ha. cbn. auto.
Qed.

Lemma filter_some_length {A} (f : A -> bool) (l : list A) :
  (length (List.filter f l) =? 0)%nat = negb (existsb f l).
Proof.
  induction l as [|a l IH]; [reflexivity |]. cbn.
  destruct (f a); [reflexivity | exact IH].
Qed.

(** The dynamic part of [_get_reference]: once the guards are passed, the
    selection runs over the fixed priority order [available_refs]. *)
Lemma get_reference_dynamic (val : reference_by) (tr : string)
  (cc : gmap string cval) (used : list string) :
  str_in tr ["QM"; "ZQM"] = true ->
  match val with RefStr s => Some [s] | RefList l => Some l | _ => None end = Some used ->
  String.eqb tr "ZQM" && negb (zqm_accepts val) = false ->
  forallb (fun r => str_in r available_refs) used = true ->
  _get_reference val tr cc =
  if existsb (dict_has cc) available_refs
  then match first_valid available_refs used cc with
       | Some ref => Ok ref
       | None =>
           Raise (RuntimeError (if other_valid available_refs used cc
                                then msg_other_references else msg_no_references))
       end
  else Raise (RuntimeWarning "No valid reference value found for notification creation.").
Proof.
  intros Htr Hused Hzqm Hvalid. unfold _get_reference. rewrite Htr. cbn [negb].
  assert (Hguard : String.eqb tr "ZQM" &&
            negb (match val with
                  | RefStr s => str_in s ["head_office_number"; "account_number"]
                  | _ => false
                  end) = false).
  { destruct val; try discriminate Hused; exact Hzqm. }
  assert (Hcore : forall used',
    used' = used ->
    (if negb (length (List.filter (fun r => negb (str_in r available_refs)) used') =? 0)%nat
     then Raise (ValueError "Unrecognized 'reference_by' value!")
     else
       let all_refs := List.filter (dict_has cc) available_refs in
       if (length all_refs =? 0)%nat
       then Raise (RuntimeWarning "No valid reference value found for notification creation.")
       else
         let unused_refs := List.filter (fun r => negb (str_in r used')) all_refs in
         let '(used_valid_refs, unused_valid_refs) :=
           collect_refs available_refs used' unused_refs cc [] [] in
         match used_valid_refs, unused_valid_refs with
         | [], _ :: _ => Raise (RuntimeError msg_other_references)
         | [], [] => Raise (RuntimeError msg_no_references)
         | selected_ref :: _, _ => Ok selected_ref
         end) =
    if existsb (dict_has cc) available_refs
    then match first_valid available_refs used cc with
         | Some ref => Ok ref
         | None =>
             Raise (RuntimeError (if other_valid available_refs used cc
                                  then msg_other_references else msg_no_references))
         end
    else Raise (RuntimeWarning "No valid reference value found for notification creation.")).
  { intros used' ->.
    rewrite (filter_nil_length _ _ Hvalid). cbn [Nat.eqb negb].
    cbv zeta. rewrite filter_some_length.
    destruct (existsb (dict_has cc) available_refs); [cbn [negb] | reflexivity].
    set (unused := List.filter (fun r => negb (str_in r used))
                     (List.filter (dict_has cc) available_refs)).
    pose proof (collect_refs_used_head available_refs used unused cc [] []) as Hh.
    pose proof (collect_refs_unused_nil available_refs used unused cc [] []) as Hn.
    destruct (collect_refs available_refs used unused cc [] []) as [UV VV].
    cbn [fst snd] in Hh, Hn.
    destruct UV as [|u UV]; cbn [head] in Hh; rewrite <- Hh; [|reflexivity].
    assert (HP : forall r, In r available_refs -> is_Some (dict_get cc r) ->
                           str_in r used = false -> str_in r unused = true).
    { intros r Hr Hsome Hnot. apply str_in_In, filter_In. split.
      - apply filter_In. split; [exact Hr | now apply dict_get_has].
      - now rewrite Hnot. }
    specialize (Hn HP). destruct VV as [|w VV].
    - destruct Hn as [Hn _]. destruct (Hn eq_refl) as [_ ->]. reflexivity.
    - destruct (other_valid available_refs used cc) eqn:Ho; [reflexivity |].
      destruct Hn as [_ Hn]. discriminate (Hn (conj eq_refl eq_refl)). }
  destruct val as [z | s | l |]; try discriminate Hused.
  - rewrite Hguard. injection Hused as Hu. exact (Hcore [s] Hu).
  - rewrite Hguard. injection Hused as Hu. exact (Hcore l Hu).
Qed.

(** C3, as stated, on a rule listing the delivery before the invoice: the
    compiler returns the invoice although the rule's first listed candidate
    with a value is the delivery. *)
Lemma reference_ignores_listed_order :
  _get_reference (RefList ["delivery_number"; "invoice_number"]) "QM"
    claim_both_documents = Ok ("invoice_number", CInts [900000001]) /\
  spec_first_listed_reference ["delivery_number"; "invoice_number"]
    claim_both_documents = Some ("delivery_number", CInts [310000001]).
Proof. split; vm_compute; reflexivity. Qed.

(** C3 (amended): for a QM claim whose rule lists recognised candidate
    names and whose claim holds at least one reference field, the compiler
    selects the listed candidate with a non-null value that comes first in
    the fixed order invoice, delivery, purchase order, account, head office;
    when no listed candidate has a value it raises one error if some
    unlisted reference field has a value and a different error if none
    has. *)
Theorem reference_follows_fixed_priority (listed : list string)
  (cc : gmap string cval) :
  forallb (fun r => str_in r available_refs) listed = true ->
  existsb (dict_has cc) available_refs = true ->
  _get_reference (RefList listed) "QM" cc =
    match first_valid available_refs listed cc with
    | Some ref => Ok ref
    | None =>
        Raise (RuntimeError (if other_valid available_refs listed cc
                             then msg_other_references else msg_no_references))
    end /\
  msg_other_references <> msg_no_references.
Proof.
  intros Hvalid Hkeys. split; [|discriminate].
  rewrite (get_reference_dynamic (RefList listed) "QM" cc listed);
    try reflexivity; try assumption.
  now rewrite Hkeys.
Qed.

Lemma reference_follows_fixed_priority_witness :
  _get_reference (RefList ["delivery_number"; "invoice_number"]) "QM"
    claim_both_documents =
    match first_valid available_refs ["delivery_number"; "invoice_number"]
            claim_both_documents with
    | Some ref => Ok ref
    | None =>
        Raise (RuntimeError
                 (if other_valid available_refs ["delivery_number"; "invoice_number"]
                       claim_both_documents
                  then msg_other_references else msg_no_references))
    end /\
  msg_other_references <> msg_no_references.
Proof.
  apply reference_follows_fixed_priority; vm_compute; reflexivity.
Defined.

(** C10: under a ZQM transaction the reference is a static account number or
    one of account_number and head_office_number; any other [reference_by]
    value raises [ValueError], so the reference selected for a ZQM claim is
    always an account or a head-office number. *)
Theorem zqm_reference_is_an_account (val : reference_by) (cc : gmap string cval) :
  (forall name v, _get_reference val "ZQM" cc = Ok (name, v) ->
     name = "account_number" \/ name = "head_office_number") /\
  (zqm_accepts val = false ->
     _get_reference val "ZQM" cc = Raise (ValueError msg_zqm_reference)).
Proof.
  split.
  - intros name v H. destruct val as [z | s | l |].
    + injection H as <- _. now left.
    + destruct (str_in s ["head_office_number"; "account_number"]) eqn:Hs.
      * assert (Hv : forallb (fun r => str_in r available_refs) [s] = true).
        { apply str_in_In in Hs. cbn in Hs.
          destruct Hs as [<- | [<- | []]]; reflexivity. }
        rewrite (get_reference_dynamic (RefStr s) "ZQM" cc [s]) in H;
          [| reflexivity | reflexivity | cbn [zqm_accepts]; now rewrite Hs | exact Hv].
        destruct (existsb (dict_has cc) available_refs); [|discriminate H].
        destruct (first_valid available_refs [s] cc) as [[r w]|] eqn:Hf;
          [|discriminate H].
        injection H as -> ->.
        destruct (first_valid_listed _ _ _ _ _ Hf) as (_ & Hin & _).
        destruct Hin as [<- | []]. apply str_in_In in Hs. cbn in Hs.
        destruct Hs as [<- | [<- | []]]; [now right | now left].
      * unfold _get_reference in H. rewrite Hs in H. cbn in H. discriminate H.
    + discriminate H.
    + discriminate H.
  - intros Hacc. destruct val as [z | s | l |]; try discriminate Hacc; try reflexivity.
    cbn [zqm_accepts] in Hacc. unfold _get_reference. rewrite Hacc. reflexivity.
Qed.

Lemma zqm_reference_is_an_account_witness :
  ("account_number" = "account_number" \/ "account_number" = "head_office_number") /\
  _get_reference (RefStr "invoice_number") "ZQM" claim_both_documents =
    Raise (ValueError msg_zqm_reference).
Proof.
  split.
  - exact (proj1 (zqm_reference_is_an_account (RefStr "account_number")
                    {[ "account_number" := CInt 1000001 ]})
                 "account_number" (CInt 1000001) eq_refl).
  - exact (proj2 (zqm_reference_is_an_account (RefStr "invoice_number")
                    claim_both_documents) eq_refl).
Defined.

(** *** Accounting documents from a purchase order (C6) *)

(** With a customer account as filter, a purchase order without accounting
    documents is tolerated: the warning is logged and no numbers are
    returned. *)
Lemma not_found_with_account_is_tolerated (erp : Va03.Erp)
  (rule_create data : gmap string cval) (po a : Z) (e : exn) :
  dict_get data "invoice_number" = None ->
  dict_get data "delivery_number" = None ->
  rule_create !! "reference_from" = Some (CStr "purchase_order_number") ->
  data !! "purchase_order_number" = Some (CInt po) ->
  Va03.make_PurchaseOrder (CInt po) = Ok (Va03.PurchaseOrder po) ->
  Va03.find_accounting_documents erp (Va03.PurchaseOrder po) (Some a) = Raise e ->
  Va03.is_DocumentsNotFoundWarning e || Va03.is_DocumentNotFoundError e = true ->
  exists log, _get_accounting_docs erp rule_create data (Some a) = Ok (None, None, log).
Proof.
  intros Hi Hd Hr Hp Hmk Hfind He. unfold _get_accounting_docs.
  rewrite Hi, Hd, Hr. cbn [String.eqb Ascii.eqb Bool.eqb negb].
  unfold dict_get, dict_has. rewrite Hp. cbn [default].
  rewrite bool_decide_eq_true_2 by eauto. cbn [negb].
  change (id (CInt po)) with (CInt po). rewrite Hmk.
  change (Ok (Va03.PurchaseOrder po) ≫= _) with
    (Va03.find_accounting_documents erp (Va03.PurchaseOrder po) (Some a)).
  rewrite Hfind, He. eauto.
Qed.

(** Without an account, the same outcome of the search ends in an unbound
    variable: the handler logs the warning, and the test that follows
    reads [acc_docs], which the failed call never assigned. *)
Lemma not_found_without_account_is_fatal (erp : Va03.Erp)
  (rule_create data : gmap string cval) (po : Z) :
  dict_get data "invoice_number" = None ->
  dict_get data "delivery_number" = None ->
  rule_create !! "reference_from" = Some (CStr "purchase_order_number") ->
  data !! "purchase_order_number" = Some (CInt po) ->
  Va03.make_PurchaseOrder (CInt po) = Ok (Va03.PurchaseOrder po) ->
  Va03.find_accounting_documents erp (Va03.PurchaseOrder po) None =
    Raise DocumentsNotFoundWarning ->
  _get_accounting_docs erp rule_create data None = Raise (UnboundLocalError "acc_docs").
Proof.
  intros Hi Hd Hr Hp Hmk Hfind. unfold _get_accounting_docs.
  rewrite Hi, Hd, Hr. cbn [String.eqb Ascii.eqb Bool.eqb negb].
  unfold dict_get, dict_has. rewrite Hp. cbn [default].
  rewrite bool_decide_eq_true_2 by eauto. cbn [negb].
  change (id (CInt po)) with (CInt po). rewrite Hmk.
  change (Ok (Va03.PurchaseOrder po) ≫= _) with
    (Va03.find_accounting_documents erp (Va03.PurchaseOrder po) None).
  rewrite Hfind. reflexivity.
Qed.

(** C6 at a purchase order sold for own consumption, compiled without a
    customer account: the search reports that neither an invoice nor a
    delivery exists, and the compiler, instead of going on without the
    numbers, stops with an unbound variable. *)
Theorem own_consumption_order_without_account :
  Va03.find_accounting_documents erp_own_consumption (Va03.PurchaseOrder 12345) None =
    Raise DocumentsNotFoundWarning /\
  _get_accounting_docs erp_own_consumption rule_reference_from_po data_po_only None =
    Raise (UnboundLocalError "acc_docs") /\
  _get_accounting_docs erp_own_consumption rule_reference_from_po data_po_only
    (Some 1000001) =
    Ok (None, None, [LogWarning (msg_not_found DocumentsNotFoundWarning)]).
Proof. repeat split; vm_compute; reflexivity. Qed.

End CompilerFacts.

(** ** Recording a credit note (C4) *)

Module DmsFacts.
Import PyStr Dms.

Lemma change_attributes_trace (n : nat) (attributes : list (string * kwval))
  (st st' : erp_state) (ok : bool) :
  change_attributes n attributes st = (st', ok) ->
  trace st' = if ok then (trace st ++ [EvChange attributes])%list else trace st.
Proof.
  revert st. induction n as [|n IH]; intros st H.
  - injection H as <- <-. reflexivity.
  - cbn [change_attributes] in H. destruct (locks st) as [|[|] rest] eqn:Hl.
    + injection H as <- <-. reflexivity.
    + apply IH in H. exact H.
    + injection H as <- <-. reflexivity.
Qed.

Lemma attribs_b_in (kwargs : list (string * kwval)) (upd : bool)
  (bs : list (string * kwval)) :
  attribs_b_of kwargs upd = Ok bs ->
  forall id v, In (id, v) bs <->
    exists key, In (key, v) kwargs /\ v <> KNone /\
                String.eqb key "status" = false /\
                String.eqb key "root_cause_code" && upd = false /\
                _field_map key = Some id.
Proof.
  revert bs. induction kwargs as [|[key val] rest IH]; intros bs H id v.
  - injection H as <-. split; [intros [] | intros (k & [] & _)].
  - cbn [attribs_b_of] in H.
    destruct (String.eqb key "status") eqn:Hst.
    { rewrite (IH _ H). split; intros (k & Hin & Hrest).
      - exists k. split; [now right | exact Hrest].
      - destruct Hin as [[= <- <-] | Hin]; [|now exists k].
        destruct Hrest as (_ & E & _). congruence. }
    destruct (String.eqb key "root_cause_code" && upd) eqn:Hrc.
    { rewrite (IH _ H). split; intros (k & Hin & Hrest).
      - exists k. split; [now right | exact Hrest].
      - destruct Hin as [[= <- <-] | Hin]; [|now exists k].
        destruct Hrest as (_ & _ & E & _). congruence. }
    assert (Hskip : forall bs', attribs_b_of rest upd = Ok bs' -> val = KNone ->
              (In (id, v) bs' <->
               exists k, In (k, v) ((key, val) :: rest) /\ v <> KNone /\
                 String.eqb k "status" = false /\
                 String.eqb k "root_cause_code" && upd = false /\
                 _field_map k = Some id)).
    { intros bs' Hb ->. rewrite (IH _ Hb). split; intros (k & Hin & Hrest).
      - exists k. split; [now right | exact Hrest].
      - destruct Hin as [[= <- <-] | Hin]; [|now exists k].
        destruct Hrest as (E & _). congruence. }
    assert (Hkeep : val <> KNone ->
              match _field_map key with
              | Some attr_id => bs' ← attribs_b_of rest upd; Ok ((attr_id, val) :: bs')
              | None => Raise (KeyError key)
              end = Ok bs ->
              (In (id, v) bs <->
               exists k, In (k, v) ((key, val) :: rest) /\ v <> KNone /\
                 String.eqb k "status" = false /\
                 String.eqb k "root_cause_code" && upd = false /\
                 _field_map k = Some id)).
    { intros Hval Hb. destruct (_field_map key) as [attr_id|] eqn:Hfm; [|discriminate Hb].
      destruct (attribs_b_of rest upd) as [bs'|e] eqn:Hbs'; [|discriminate Hb].
      injection Hb as <-. cbn [In]. rewrite (IH _ eq_refl). split.
      - intros [[= <- <-] | (k & Hin & Hrest)].
        + exists key. repeat split; auto.
        + exists k. split; [now right | exact Hrest].
      - intros (k & [[= <- <-] | Hin] & Hrest).
        + left. destruct Hrest as (_ & _ & _ & E). congruence.
        + right. now exists k. }
    destruct val as [| s | z]; [now apply Hskip | |]; now apply Hkeep.
Qed.

Lemma Qlt_bool_iff (a b : Q) : Qlt_bool a b = true <-> (a < b)%Q.
Proof.
  unfold Qlt_bool. rewrite negb_true_iff. split.
  - intros H. apply Qnot_le_lt. intros Hle. apply Qle_bool_iff in Hle. congruence.
  - intros H. destruct (Qle_bool b a) eqn:E; [|reflexivity].
    apply Qle_bool_iff in E. exfalso. exact (Qlt_not_le _ _ H E).
Qed.

Lemma written_single (id : string) (v : kwval) (attributes : list (string * kwval)) :
  attrs_written id v [EvChange attributes] <-> In (id, v) attributes.
Proof.
  unfold attrs_written. split.
  - intros (a & Hin & Hmem). destruct Hin as [E | []].
    injection E as <-. exact Hmem.
  - intros H. exists attributes. split; [now left | exact H].
Qed.

Lemma written_pair (id : string) (v : kwval) (a b : list (string * kwval)) :
  attrs_written id v [EvChange a; EvChange b] <-> In (id, v) a \/ In (id, v) b.
Proof.
  unfold attrs_written. split.
  - intros (x & Hin & Hmem). destruct Hin as [E | [E | []]]; injection E as <-;
      [now left | now right].
  - intros [H | H]; [exists a | exists b]; cbn; tauto.
Qed.

Section CreditKeywords.
Variables (proc coord resp rc stat : kwval) (sales : string).

Let kwargs : list (string * kwval) :=
  [("processor", proc); ("coordinator", coord); ("responsible", resp);
   ("root_cause_code", rc); ("status_sales", KStr sales); ("status", stat);
   ("reason", KStr "XXX")].

Lemma credit_attribs_b (upd : bool) (bs : list (string * kwval)) :
  attribs_b_of kwargs upd = Ok bs ->
  (In ("FIN_ROOT_CCODE", KStr "L01") bs <-> rc = KStr "L01" /\ upd = false) /\
  ~ In ("STAT_ORDERNO", KStr "2") bs /\
  In ("REASON_CODE", KStr "XXX") bs /\
  In ("ZZ_STAT_SL", KStr sales) bs.
Proof.
  intros Hb. pose proof (attribs_b_in kwargs upd bs Hb) as Hin.
  split; [split; [intros H | intros [-> ->]] | split; [intros H | split]].
  - apply Hin in H as (key & Hk & _ & _ & Hupd & Hfm).
    unfold kwargs in Hk. cbn [In] in Hk.
    repeat (destruct Hk as [[= <- Hv] | Hk]; try discriminate Hfm).
    + split; [exact Hv | exact Hupd].
    + destruct Hk.
  - apply Hin. exists "root_cause_code".
    repeat split; try discriminate; try reflexivity.
    unfold kwargs. cbn. tauto.
  - apply Hin in H as (key & Hk & _ & Hst & _ & Hfm).
    unfold kwargs in Hk. cbn [In] in Hk.
    repeat (destruct Hk as [[= <- Hv] | Hk]; try discriminate Hfm; try discriminate Hst).
    destruct Hk.
  - apply Hin. exists "reason". repeat split; try discriminate; try reflexivity.
    unfold kwargs. cbn. tauto.
  - apply Hin. exists "status_sales". repeat split; try discriminate; try reflexivity.
    unfold kwargs. cbn. tauto.
Qed.

End CreditKeywords.

Lemma modify_credit (proc coord resp rc stat : kwval) (sales : string)
  (st st1 : erp_state) :
  rc = KStr "L01" \/ rc = KNone ->
  stat = KInt 2 \/ stat = KNone ->
  modify_case_params
    [("processor", proc); ("coordinator", coord); ("responsible", resp);
     ("root_cause_code", rc); ("status_sales", KStr sales); ("status", stat);
     ("reason", KStr "XXX")] st = (st1, Ok tt) ->
  exists changes,
    trace st1 = (trace st ++ changes)%list /\
    Forall is_change changes /\
    (attrs_written "FIN_ROOT_CCODE" (KStr "L01") changes <-> rc = KStr "L01") /\
    (attrs_written "STAT_ORDERNO" (KStr "2") changes <-> stat = KInt 2) /\
    attrs_written "REASON_CODE" (KStr "XXX") changes /\
    attrs_written "ZZ_STAT_SL" (KStr sales) changes.
Proof.
  intros Hrc Hstat H. unfold modify_case_params in H.
  cbn [kw_get String.eqb Ascii.eqb Bool.eqb] in H.
  set (kwargs := [("processor", proc); ("coordinator", coord); ("responsible", resp);
     ("root_cause_code", rc); ("status_sales", KStr sales); ("status", stat);
     ("reason", KStr "XXX")]) in *.
  replace (negb match rc with
                | KNone => true
                | KStr c => str_in c ["L00"; "L01"; "L06"; "L08"; "L14"]
                | KInt _ => false
                end) with false in H
    by (destruct Hrc as [-> | ->]; reflexivity).
  destruct Hstat as [-> | ->].
  - (* the status goes from 1 to 2 *)
    cbn [negb Z.leb Z.ltb Z.compare Pos.compare Pos.compare_cont andb] in H.
    rewrite bool_decide_eq_true_2 in H by eauto.
    cbn [negb andb default from_option] in H.
    change (Z.to_nat (2 - 1)) with 1%nat in H. cbn [raise_status] in H.
    change (1 + 1 =? 2) with true in H. cbv iota in H.
    change (str_of_int (1 + 1)) with "2" in H.
    destruct (change_attributes n_attempts _ st) as [stA okA] eqn:HA.
    destruct okA; [|discriminate H].
    apply change_attributes_trace in HA. cbn [orb] in H.
    destruct (attribs_b_of kwargs true) as [bs|e] eqn:Hb; [|discriminate H].
    destruct (change_attributes n_attempts bs stA) as [stB okB] eqn:HB.
    destruct okB; [|discriminate H]. injection H as <-.
    apply change_attributes_trace in HB.
    destruct (credit_attribs_b proc coord resp rc (KInt 2) sales true bs Hb)
      as (Hroot & Hnostat & Hreason & Hsales).
    eexists [EvChange _; EvChange bs]. split; [|split; [|split; [|split; [|split]]]].
    + rewrite HB, HA, <- app_assoc. reflexivity.
    + repeat constructor.
    + rewrite written_pair. split.
      * intros [Hin | Hin].
        -- destruct Hrc as [-> | ->]; [reflexivity |].
           cbn in Hin. destruct Hin as [E | [E | []]]; discriminate E.
        -- apply Hroot in Hin as [_ E]. discriminate E.
      * intros ->. left. cbn. tauto.
    + rewrite written_pair. split; [reflexivity |]. intros _. left. cbn. tauto.
    + rewrite written_pair. now right.
    + rewrite written_pair. now right.
  - (* the status is left as it is *)
    destruct (attribs_b_of kwargs false) as [bs|e] eqn:Hb; [|discriminate H].
    destruct (change_attributes n_attempts bs st) as [stB okB] eqn:HB.
    destruct okB; [|discriminate H]. injection H as <-.
    apply change_attributes_trace in HB.
    destruct (credit_attribs_b proc coord resp rc KNone sales false bs Hb)
      as (Hroot & Hnostat & Hreason & Hsales).
    exists [EvChange bs]. split; [|split; [|split; [|split; [|split]]]].
    + exact HB.
    + repeat constructor.
    + rewrite written_single, Hroot. tauto.
    + rewrite written_single. split; [tauto | discriminate].
    + now rewrite written_single.
    + now rewrite written_single.
Qed.

(** C4 (amended): when a credit note is recorded, the calls reaching the
    ERP are attribute changes followed by the attachment of the PDF as the
    last call; the root cause code L01 is written exactly when the disputed
    amount of the case exceeds the threshold and its root cause is neither
    L01 nor L06; the status 2 is written exactly when the difference of the
    disputed amount and the credit amount, as the subtraction of binary
    floats computes it, is below the threshold and the status is 1; the
    reason XXX is written; and the Status-Sales text written is the previous
    text followed by the rule text carrying the formatted credit amount. *)
Theorem credit_note_recorded (currency : spec_float -> string)
  (claim : credit_claim) (pdf : option string) (st st' : erp_state) (case_id : Z) :
  _record_creditnote currency claim pdf st = (st', Ok case_id) ->
  exists (disputed root status_text previous file att_name : string)
         (n : num) (disp : PyFloat.number) (diff : spec_float)
         (status : Z) (changes : list event),
    case_param st "disputed_amount" = Ok disputed /\
    Numbers.parse_number (AStr disputed) Numbers.CoerceNone Numbers.ErrRaise
      = Ok (ANum n) /\
    PyFloat.of_num n = Ok disp /\
    PyFloat.sub disp (amount claim) = Ok diff /\
    case_param st "root_cause_code" = Ok root /\
    case_param st "status" = Ok status_text /\
    py_int status_text = Ok status /\
    case_param st "status_sales" = Ok previous /\
    pdf = Some file /\
    trace st' = (trace st ++ changes ++ [EvAttach file att_name])%list /\
    Forall is_change changes /\
    (attrs_written "FIN_ROOT_CCODE" (KStr "L01") changes <->
       PyFloat.gtb disp (threshold claim) = true /\
       str_in root ["L01"; "L06"] = false) /\
    (attrs_written "STAT_ORDERNO" (KStr "2") changes <->
       PyFloat.ltb diff (threshold claim) = true /\ status = 1) /\
    attrs_written "REASON_CODE" (KStr "XXX") changes /\
    attrs_written "ZZ_STAT_SL"
      (KStr (strip is_space
               (previous +:+ " " +:+
                replace "<amount>" (currency (amount claim)) (status_sales claim))))
      changes.
Proof.
  unfold _record_creditnote, lift. intros H.
  destruct (case_param st "disputed_amount") as [disputed|] eqn:Hd; [|discriminate H].
  destruct (Numbers.parse_number (AStr disputed) _ _) as [[| n | |]|] eqn:Hp;
    try discriminate H.
  destruct (PyFloat.of_num n) as [disp|] eqn:Hn; [|discriminate H].
  destruct (case_param st "case_id") as [cid|] eqn:Hc; [|discriminate H].
  destruct (py_int cid) as [case_id'|] eqn:Hci; [|discriminate H].
  destruct (case_param st "root_cause_code") as [root|] eqn:Hr; [|discriminate H].
  destruct (case_param st "status") as [status_text|] eqn:Hs; [|discriminate H].
  destruct (py_int status_text) as [status|] eqn:Hsi; [|discriminate H].
  destruct (case_param st "status_sales") as [previous|] eqn:Hss; [|discriminate H].
  unfold create_status_sales in H.
  destruct (negb (contains "<amount>" (status_sales claim))); [discriminate H |].
  destruct (PyFloat.sub disp (amount claim)) as [diff|] eqn:Hdiff; [|discriminate H].
  match type of H with
  | match modify_case_params ?kw st with _ => _ end = _ =>
      destruct (modify_case_params kw st) as [st1 [[]|e]] eqn:Hm; [|discriminate H]
  end.
  destruct (create_attachment_name (attachment_name claim) case_id') as [att_name|] eqn:Ha;
    [|discriminate H].
  destruct pdf as [file|]; [|discriminate H].
  injection H as <- _.
  apply modify_credit in Hm.
  2,3: match goal with
       | |- (if ?c then _ else _) = _ \/ _ => destruct c; [now left | now right]
       end.
  destruct Hm as (changes & Htr & Hch & Hroot & Hstat & Hreason & Hsales).
  exists disputed, root, status_text, previous, file, att_name, n, disp, diff,
    status, changes.
  repeat (split; [first [assumption | reflexivity] |]).
  split; [cbn [attach trace]; rewrite Htr, <- app_assoc; reflexivity |].
  split; [exact Hch |]. split; [|split; [|split; assumption]].
  - rewrite Hroot. split.
    + intros E. destruct (PyFloat.gtb disp (threshold claim)); [|discriminate E].
      destruct (str_in root ["L01"; "L06"]); [discriminate E |].
      split; reflexivity.
    + intros [Hq Hl]. now rewrite Hq, Hl.
  - rewrite Hstat. split.
    + intros E. destruct (PyFloat.ltb diff (threshold claim)); [|discriminate E].
      destruct (Z.eqb_spec status 1); [|discriminate E].
      split; [reflexivity | assumption].
    + intros [Hq ->]. now rewrite Hq.
Qed.

Lemma credit_note_recorded_witness :
  exists (disputed root status_text previous file att_name : string)
         (n : num) (disp : PyFloat.number) (diff : spec_float)
         (status : Z) (changes : list event),
    case_param CreditSample.sample_case "disputed_amount" = Ok disputed /\
    Numbers.parse_number (AStr disputed) Numbers.CoerceNone Numbers.ErrRaise
      = Ok (ANum n) /\
    PyFloat.of_num n = Ok disp /\
    PyFloat.sub disp (amount CreditSample.sample_credit) = Ok diff /\
    case_param CreditSample.sample_case "root_cause_code" = Ok root /\
    case_param CreditSample.sample_case "status" = Ok status_text /\
    py_int status_text = Ok status /\
    case_param CreditSample.sample_case "status_sales" = Ok previous /\
    Some "credit_id=17.pdf" = Some file /\
    trace (_record_creditnote currency_de CreditSample.sample_credit
             (Some "credit_id=17.pdf") CreditSample.sample_case).1 =
      (trace CreditSample.sample_case ++ changes ++ [EvAttach file att_name])%list /\
    Forall is_change changes /\
    (attrs_written "FIN_ROOT_CCODE" (KStr "L01") changes <->
       PyFloat.gtb disp (threshold CreditSample.sample_credit) = true /\
       str_in root ["L01"; "L06"] = false) /\
    (attrs_written "STAT_ORDERNO" (KStr "2") changes <->
       PyFloat.ltb diff (threshold CreditSample.sample_credit) = true /\ status = 1) /\
    attrs_written "REASON_CODE" (KStr "XXX") changes /\
    attrs_written "ZZ_STAT_SL"
      (KStr (strip is_space
               (previous +:+ " " +:+
                replace "<amount>" (currency_de (amount CreditSample.sample_credit))
                  (status_sales CreditSample.sample_credit))))
      changes.
Proof.
  apply (credit_note_recorded currency_de CreditSample.sample_credit
           (Some "credit_id=17.pdf") CreditSample.sample_case _ 4711).
  vm_compute. reflexivity.
Defined.

Example credit_note_sample_trace :
  trace (_record_creditnote currency_de CreditSample.sample_credit
           (Some "credit_id=17.pdf") CreditSample.sample_case).1 =
  [EvChange [("STAT_ORDERNO", KStr "2"); ("FIN_ROOT_CCODE", KStr "L01")];
   EvChange [("PROCESSOR", KStr "PROC"); ("FIN_COORDINATOR", KStr "COORD");
             ("ZZ_STAT_SL", KStr "DN 88231 CN 1.500,00");
             ("REASON_CODE", KStr "XXX")];
   EvAttach "credit_id=17.pdf" "CN_4711"].
Proof. vm_compute. reflexivity. Qed.

(** The floats of the boundary case: 520,30 is read as the float of
    52030 / 100, the credit amount is the float of 2030 / 100, and their
    difference is one unit in the last place below 500. *)
Example boundary_floats :
  PyFloat.true_divide (52030 # 100) = Ok (S754_finite false 4576607199454822 (-43)) /\
  amount CreditSample.boundary_credit = S754_finite false 5713942027226317 (-48) /\
  threshold CreditSample.boundary_credit = S754_finite false 8796093022208000 (-44) /\
  PyFloat.sub (PyFloat.PFloat (S754_finite false 4576607199454822 (-43)))
    (amount CreditSample.boundary_credit)
    = Ok (S754_finite false 8796093022207999 (-44)).
Proof. vm_compute. repeat split; reflexivity. Qed.

(** C4, as stated, on a case disputed for 520,30 in status 1 and a credit
    note of 20.30 at the threshold 500: the disputed amount less the credit
    amount is 500, which is not below the threshold, and the status 2 is
    written all the same. *)
Lemma status_closed_at_threshold :
  case_param CreditSample.boundary_case "disputed_amount" = Ok "520,30" /\
  Numbers.parse_number (AStr "520,30") Numbers.CoerceNone Numbers.ErrRaise
    = Ok (ANum (NFloat (52030 # 100))) /\
  amount CreditSample.boundary_credit = PyFloat.of_Q (2030 # 100) /\
  threshold CreditSample.boundary_credit = PyFloat.of_int 500 /\
  case_param CreditSample.boundary_case "status" = Ok "1" /\
  ~ ((52030 # 100) - (2030 # 100) < inject_Z 500)%Q /\
  attrs_written "STAT_ORDERNO" (KStr "2")
    (trace (_record_creditnote currency_de CreditSample.boundary_credit
              (Some "credit_id=18.pdf") CreditSample.boundary_case).1).
Proof.
  split; [vm_compute; reflexivity |]. split; [vm_compute; reflexivity |].
  split; [reflexivity |]. split; [reflexivity |].
  split; [vm_compute; reflexivity |]. split.
  - intros H. vm_compute in H. discriminate H.
  - eexists. split; [vm_compute; left; reflexivity |]. vm_compute. tauto.
Qed.

End DmsFacts.

(** ** Registration of a document seen before (C2) *)

Module DownloaderFacts.
Import PyStr Downloader.


Lemma length_update (t : table) (i : Z) (f : doc_record -> doc_record) :
  length (update_record t i f) = length t.
Proof. unfold update_record. apply length_fmap. Qed.

Lemma ids_update (t : table) (i : Z) (f : doc_record -> doc_record) :
  (forall r, id (f r) = id r) ->
  id <$> update_record t i f = id <$> t.
Proof.
  intros Hf. unfold update_record. induction t as [|r t IH]; [reflexivity |].
  cbn. rewrite IH. f_equal. destruct (id r =? i); [apply Hf | reflexivity].
Qed.

Lemma get_records_update (t : table) (i : Z) (f : doc_record -> doc_record)
  (h : string) :
  (forall r, doc_hash (f r) = doc_hash r) ->
  get_records (update_record t i f) h =
  (fun r => if id r =? i then f r else r) <$> get_records t h.
Proof.
  intros Hf. unfold get_records, update_record.
  induction t as [|r t IH]; [reflexivity |]. cbn.
  assert (E : doc_hash (if id r =? i then f r else r) = doc_hash r)
    by (destruct (id r =? i); [apply Hf | reflexivity]).
  rewrite E. destruct (String.eqb (doc_hash r) h); cbn; now rewrite IH.
Qed.

Lemma get_records_In (t : table) (h : string) (r : doc_record) :
  get_records t h = [r] -> In r t.
Proof.
  unfold get_records. intros H.
  assert (Hin : In r (List.filter (fun x => String.eqb (doc_hash x) h) t))
    by (rewrite H; now left).
  now apply filter_In in Hin.
Qed.

Lemma find_by_id (t : table) (r : doc_record) :
  NoDup (id <$> t) -> In r t ->
  List.find (fun x => id x =? id r) t = Some r.
Proof.
  induction t as [|x t IH]; [intros _ [] |].
  cbn. intros Hnd [-> | Hin].
  - now rewrite Z.eqb_refl.
  - apply NoDup_cons in Hnd as [Hx Hnd].
    destruct (Z.eqb_spec (id x) (id r)) as [E | _]; [|now apply IH].
    exfalso. apply Hx. rewrite E. apply list_elem_of_In, in_map, Hin.
Qed.

Lemma category_after_update (t : table) (r : doc_record)
  (f : doc_record -> doc_record) :
  NoDup (id <$> t) -> In r t ->
  (forall x, id (f x) = id x) ->
  get_message_category (update_record t (id r) f) (id r) = Ok (message_category (f r)).
Proof.
  intros Hnd Hin Hf. unfold get_message_category.
  assert (Hin' : In (f r) (update_record t (id r) f)).
  { unfold update_record. apply in_map_iff. exists r.
    split; [now rewrite Z.eqb_refl | exact Hin]. }
  assert (Hnd' : NoDup (id <$> update_record t (id r) f))
    by now rewrite ids_update.
  pose proof (find_by_id _ _ Hnd' Hin') as Hf'. rewrite Hf in Hf'.
  now rewrite Hf'.
Qed.

Ltac records_after_updates Hrecs :=
  rewrite ?get_records_update by (intros; reflexivity);
  rewrite Hrecs; cbn [fmap list_fmap id set_subfolder set_control_category
                      set_message_category set_doc_status set_message_id set_link];
  rewrite ?Z.eqb_refl.


(** The record is looked up by the note of the mail body before the digest
    of the PDF: the same PDF in a message that carries the note of another
    document gets a second record. *)
Example noted_message_second_record :
  content_hash noted_message = doc_hash completed_record /\
  doc_hash <$> records (download_message sample_config sample_inbox noted_message
                          [completed_record])
  = ["9f2c"; "77aa"].
Proof. split; vm_compute; reflexivity. Qed.

Lemma previous_category (cfg : config) (t : table) (rec : doc_record)
  (control : option string) (ignore : bool) :
  NoDup (id <$> t) -> In rec t ->
  get_message_category
    (if ignore
     then update_record
            (update_record t (id rec) (set_subfolder (cust_folder cfg)))
            (id rec) (set_control_category control)
     else update_record t (id rec) (set_subfolder (cust_folder cfg)))
    (id rec) = Ok (message_category rec).
Proof.
  intros Hnd Hin. destruct ignore.
  - apply (category_after_update
             (update_record t (id rec) (set_subfolder (cust_folder cfg)))
             (set_subfolder (cust_folder cfg) rec) (set_control_category control)).
    + now rewrite ids_update.
    + unfold update_record. apply in_map_iff. exists rec.
      split; [now rewrite Z.eqb_refl | exact Hin].
    + reflexivity.
  - now apply (category_after_update t rec (set_subfolder (cust_folder cfg))).
Qed.

(** The second pass over a message whose hash has its record inserts
    nothing and leaves one record for the hash, however the turn ends. *)
Lemma second_pass_inserts_nothing (cfg : config) (inbox : list string)
  (msg : message) (t : table) (rec : doc_record) (categ control : option string) :
  NoDup (id <$> t) ->
  saved msg = Saved ->
  _get_message_category msg (msg_categs cfg) (ctrl_categs cfg) = Ok (categ, control) ->
  get_records t (file_hash_of msg) = [rec] ->
  let t' := records (download_message cfg inbox msg t) in
  length t' = length t /\ length (get_records t' (file_hash_of msg)) = 1%nat.
Proof.
  intros Hnd Hsaved Hcat Hrecs. cbv zeta.
  pose proof (get_records_In _ _ _ Hrecs) as Hin.
  unfold download_message. rewrite Hsaved, Hcat, Hrecs.
  set (ignore := option_eqb control (Some "IGNORE_ALREADY_EXISTING")).
  destruct (negb ignore && _).
  - cbn [records]. split; [apply length_update |].
    records_after_updates Hrecs. reflexivity.
  - rewrite (previous_category cfg t rec control ignore Hnd Hin).
    unfold store_file.
    destruct (option_eqb (message_category rec) categ),
      (String.eqb (doc_status rec) (registered cfg)),
      (String.eqb (message_id rec) (msg_id msg)),
      (get_message inbox (message_id rec)),
      (rename_ok msg), ignore;
      cbn [negb records];
      (split; [rewrite ?length_update; reflexivity |]);
      records_after_updates Hrecs; reflexivity.
Qed.

(** More than one record for the hash: the table stays as it is, the saved
    file is removed and the user told, and the second removal of the file
    ends the loop over the folder. *)
Lemma several_records_leave_loop (cfg : config) (inbox : list string)
  (msg : message) (t : table) (r1 r2 : doc_record) (more : list doc_record)
  (categ control : option string) :
  saved msg = Saved ->
  _get_message_category msg (msg_categs cfg) (ctrl_categs cfg) = Ok (categ, control) ->
  get_records t (file_hash_of msg) = r1 :: r2 :: more ->
  let r := download_message cfg inbox msg t in
  records r = t /\
  In RemoveFile (actions r) /\
  exists e, ends r = Leaves (TypeError e).
Proof.
  intros Hsaved Hcat Hrecs. cbv zeta.
  unfold download_message. rewrite Hsaved, Hcat, Hrecs. cbn [records actions ends].
  split; [reflexivity |]. split; [|eauto].
  apply in_or_app. right. now left.
Qed.



(** The override category queues a finished document again and the first
    message is deleted. *)
Example override_requeues :
  let r := download_message sample_config sample_inbox override_message
             [completed_record] in
  get_records (records r) "9f2c" =
  [{| id := 7; message_id := "msg-2"; subfolder := "OBI_DE";
      message_category := None;
      control_category := Some "IGNORE_ALREADY_EXISTING";
      doc_status := "document_registration_success"; doc_hash := "9f2c";
      link := Some "obi_de_document_id=7.pdf" |}] /\
  In (DeleteMessage "<msg-1>") (actions r) /\
  ends r = NextMessage.
Proof. vm_compute. repeat split; tauto. Qed.

(** The same pass when the first message is no longer in the mailbox: the
    record has the new message id, and nothing is renamed or linked. *)
Example override_without_first_message :
  let r := download_message sample_config emptied_inbox override_message
             [completed_record] in
  get_records (records r) "9f2c" =
  [{| id := 7; message_id := "msg-2"; subfolder := "OBI_DE";
      message_category := None;
      control_category := Some "IGNORE_ALREADY_EXISTING";
      doc_status := "document_registration_success"; doc_hash := "9f2c";
      link := None |}] /\
  actions r = [AppendText "msg-2" "G.ROBOT_RFC (INFO): hash = 9f2c"] /\
  ends r = Leaves AttributeError.
Proof. vm_compute. repeat split; reflexivity. Qed.

(** *** The first pass and two passes in a row *)

Lemma next_id_fresh (t : table) : next_id t ∉ id <$> t.
Proof.
  assert (H : forall x, x ∈ id <$> t -> x <= fold_right Z.max 0 (id <$> t)).
  { induction t as [|r t IH]; intros x Hx.
    - inversion Hx.
    - cbn in *. apply elem_of_cons in Hx as [-> | Hx]; [lia |].
      specialize (IH x Hx). lia. }
  intros Hin. apply H in Hin. unfold next_id in Hin. lia.
Qed.

Lemma first_pass_creates_record (cfg : config) (inbox : list string)
  (msg : message) (t : table) (categ control : option string) :
  NoDup (id <$> t) ->
  saved msg = Saved ->
  _get_message_category msg (msg_categs cfg) (ctrl_categs cfg) = Ok (categ, control) ->
  get_records t (file_hash_of msg) = [] ->
  let r := download_message cfg inbox msg t in
  NoDup (id <$> records r) /\
  length (records r) = S (length t) /\
  ends r = NextMessage /\
  exists rec, get_records (records r) (file_hash_of msg) = [rec] /\
              message_id rec = msg_id msg /\
              doc_status rec = registered cfg.
Proof.
  intros Hnd Hsaved Hcat Hrecs. cbv zeta.
  unfold download_message. rewrite Hsaved, Hcat, Hrecs.
  unfold create_record, store_file.
  set (new := {| id := next_id t; message_id := msg_id msg |}).
  assert (Hnew : get_records (t ++ [new])%list (file_hash_of msg) = [new]).
  { unfold get_records in *. rewrite List.filter_app, Hrecs. cbn.
    now rewrite String.eqb_refl. }
  assert (Hnd' : NoDup (id <$> (t ++ [new])%list)).
  { rewrite fmap_app. apply NoDup_app. split; [exact Hnd |]. split.
    - intros x Hx Hx'. cbn in Hx'. apply list_elem_of_singleton in Hx'. subst x.
      exact (next_id_fresh t Hx).
    - apply NoDup_singleton. }
  destruct (rename_ok msg); cbn [negb records ends].
  - split; [now rewrite ids_update |]. split.
    + rewrite length_update, length_app. cbn. lia.
    + split; [reflexivity |].
      eexists. split; [records_after_updates Hnew; reflexivity |]. split; reflexivity.
  - split; [exact Hnd' |]. split.
    + rewrite length_app. cbn. lia.
    + split; [reflexivity |]. exists new. split; [exact Hnew |]. split; reflexivity.
Qed.

(** Two passes over messages the downloader takes the same hash for leave
    one record, whatever the mailbox holds at the second. *)
Lemma two_passes_one_record (cfg : config) (inbox1 inbox2 : list string)
  (msg1 msg2 : message) (t : table) (c1 k1 c2 k2 : option string) :
  NoDup (id <$> t) ->
  saved msg1 = Saved -> saved msg2 = Saved ->
  _get_message_category msg1 (msg_categs cfg) (ctrl_categs cfg) = Ok (c1, k1) ->
  _get_message_category msg2 (msg_categs cfg) (ctrl_categs cfg) = Ok (c2, k2) ->
  file_hash_of msg2 = file_hash_of msg1 ->
  get_records t (file_hash_of msg1) = [] ->
  let t1 := records (download_message cfg inbox1 msg1 t) in
  let t2 := records (download_message cfg inbox2 msg2 t1) in
  length (get_records t2 (file_hash_of msg1)) = 1%nat /\
  length t2 = S (length t).
Proof.
  intros Hnd Hs1 Hs2 Hc1 Hc2 Hh Hrecs. cbv zeta.
  destruct (first_pass_creates_record cfg inbox1 msg1 t c1 k1 Hnd Hs1 Hc1 Hrecs)
    as (Hnd1 & Hlen1 & _ & rec & Hrec & _).
  rewrite <- Hh in Hrec.
  destruct (second_pass_inserts_nothing cfg inbox2 msg2 _ rec c2 k2 Hnd1 Hs2 Hc2 Hrec)
    as (Hlen2 & Hone).
  rewrite <- Hh, Hone, Hlen2, Hlen1. split; reflexivity.
Qed.

End DownloaderFacts.

(** ** Field extraction (C1, C7, C8) *)

Module ExtractionFacts.
Import PyStr Numbers PyNum Items Extraction.

Lemma bind_ok {A B : Type} (r : result A) (k : A -> result B) (b : B) :
  r ≫= k = Ok b -> exists a, r = Ok a /\ k a = Ok b.
Proof. destruct r as [a|e]; [eauto | discriminate]. Qed.

Lemma fmap_ok {A B : Type} (f : A -> B) (r : result A) (b : B) :
  f <$> r = Ok b -> exists a, r = Ok a /\ b = f a.
Proof. destruct r as [a|e]; cbn; [intros [= <-]; eauto | discriminate]. Qed.

(** *** The type of what [parse_number] returns *)

Lemma parse_number_float (v a : atom) :
  parse_number v CoerceFloat ErrRaise = Ok a -> is_float a.
Proof.
  unfold parse_number, on_error. destruct v as [| n | s | l]; try discriminate.
  destruct (negb (isnumeric _)); [discriminate |].
  intros [= <-]. eexists. reflexivity.
Qed.

Lemma parse_number_int (v a : atom) :
  parse_number v CoerceInt ErrRaise = Ok a -> is_int a.
Proof.
  unfold parse_number, on_error. destruct v as [| n | s | l]; try discriminate.
  destruct (negb (isnumeric _)); [discriminate |].
  intros [= <-].
  match goal with
  | |- is_int (ANum (match ?p with NInt z => _ | NFloat q => _ end)) =>
      destruct p; eexists; reflexivity
  end.
Qed.

Lemma parse_number_int_ignore (v a : atom) :
  parse_number v CoerceInt ErrIgnore = Ok a -> is_int a \/ a = v.
Proof.
  unfold parse_number, on_error. destruct v as [| n | s | l];
    try (intros [= <-]; now right).
  destruct (negb (isnumeric _)); [intros [= <-]; now right |].
  intros [= <-]. left.
  match goal with
  | |- is_int (ANum (match ?p with NInt z => _ | NFloat q => _ end)) =>
      destruct p; eexists; reflexivity
  end.
Qed.

Lemma mapM_Forall {A B : Type} (f : A -> result B) (P : B -> Prop)
  (l : list A) (l' : list B) :
  (forall x y, f x = Ok y -> P y) -> mapM f l = Ok l' -> Forall P l'.
Proof.
  intros Hf. revert l'. induction l as [|x l IH]; intros l' H.
  - injection H as <-. constructor.
  - cbn [mapM] in H. apply bind_ok in H as (y & Hy & H).
    apply bind_ok in H as (ys & Hys & H). injection H as <-.
    constructor; [exact (Hf _ _ Hy) | exact (IH _ Hys)].
Qed.

Lemma parse_numbers_float (l l' : list atom) :
  parse_numbers l CoerceFloat = Ok l' -> Forall is_float l'.
Proof. apply mapM_Forall. intros x y. apply parse_number_float. Qed.

Lemma parse_numbers_int (l l' : list atom) :
  parse_numbers l CoerceInt = Ok l' -> Forall is_int l'.
Proof. apply mapM_Forall. intros x y. apply parse_number_int. Qed.

Lemma classify_items (fld : string) : classify fld = FItems <-> fld = "items".
Proof.
  split; [|intros ->; reflexivity].
  unfold classify, str_in. cbn [existsb].
  repeat match goal with
         | |- context [String.eqb fld ?s] =>
             destruct (String.eqb_spec fld s); [subst; cbn |]
         end; try discriminate; try reflexivity; cbn; try discriminate.
Qed.

Lemma Forall_fmap_all {A B : Type} (f : A -> B) (P : B -> Prop) (l : list A) :
  (forall x, P (f x)) -> Forall P (f <$> l).
Proof. intros H. induction l; cbn; constructor; auto. Qed.

Section Typing.
Context {rt : Runtime}.

(** Every value a field step stores has the shape of its coercion rule. *)
Lemma field_step_typed (tmpl : Template) (text : string) (out : output)
  (fld : string) (regex : list string) (v : pyval) (lg : list log_entry) :
  field_step tmpl text out fld regex = Ok (Some v, lg) -> field_typed fld v.
Proof.
  unfold field_step, field_typed.
  destruct (_match_patterns text regex (String.eqb fld "items")) as [|first others].
  { destruct (str_in fld (optional_fields tmpl)); discriminate. }
  destruct ((1 <? length (first :: others))%nat && str_in fld _unique_value_fields);
    [discriminate |].
  destruct (classify fld).
  - (* amount *)
    intros H. apply bind_ok in H as (a & Ha & H).
    apply parse_number_float in Ha as [q ->].
    destruct (num_leb (NFloat q) (NFloat 0)) eqn:Hle; [discriminate H |].
    injection H as <- _. exists q. split; [reflexivity |].
    unfold num_leb in Hle. cbn [num_val] in Hle.
    apply Qnot_le_lt. intros Hq. apply Qle_bool_iff in Hq. congruence.
  - (* zip, archive_number, branch *)
    intros H. apply bind_ok in H as (u & _ & H).
    apply bind_ok in H as (a & Ha & H).
    apply parse_number_int in Ha as [z ->]. injection H as <- _. eauto.
  - (* supplier, document_number, identifier, backreference_number *)
    intros H. apply bind_ok in H as (a & Ha & H). injection H as <- _.
    exists a. split; [reflexivity |].
    apply parse_number_int_ignore in Ha as [Hi | ->]; [now left | right].
    now exists first.
  - (* tax *)
    destruct others as [|second others].
    + intros H. apply bind_ok in H as (a & Ha & H).
      apply parse_number_float in Ha as [q ->]. injection H as <- _. left. eauto.
    + intros H. apply bind_ok in H as (l & Hl & H). injection H as <- _.
      right. exists l. split; [reflexivity | exact (parse_numbers_float _ _ Hl)].
  - (* subtotals *)
    intros H. apply bind_ok in H as (l & Hl & H). injection H as <- _.
    exists l. split; [reflexivity | exact (parse_numbers_float _ _ Hl)].
  - (* delivery, invoice, purchase order, return and agreement numbers *)
    intros H. apply bind_ok in H as (u & _ & H).
    destruct others as [|second others].
    + apply bind_ok in H as (a & Ha & H).
      apply parse_number_int in Ha as [z ->]. injection H as <- _. left. eauto.
    + apply bind_ok in H as (l & Hl & H). injection H as <- _.
      right. exists l. split; [reflexivity | exact (parse_numbers_int _ _ Hl)].
  - (* items *)
    destruct (is_composite (parser tmpl)).
    + destruct (out !! "amount") as [[[| amount | |] | |]|]; try discriminate.
      intros H. apply bind_ok in H as ([items lg'] & _ & H).
      destruct items as [rs|]; injection H as <- _; [right; left; eauto | now left].
    + intros [= <- _]. right. right. eexists. split; [reflexivity |].
      apply (Forall_fmap_all atom_of is_match (first :: others)).
      intros m. now exists m.
  - (* email *)
    destruct first as [s | l]; [|discriminate]. intros [= <- _]. eauto.
  - (* reason *)
    destruct first as [s | l]; intros [= <- _].
    + left. unfold strip_str. eauto.
    + right. eexists. split; [reflexivity |].
      apply (Forall_fmap_all strip_str is_str l).
      intros m. unfold strip_str. eexists. reflexivity.
  - (* any other field *)
    intros [= <- _]. eauto.
Qed.

(** Only the items read the output built so far. *)
Lemma field_step_output (tmpl : Template) (text : string) (out out' : output)
  (fld : string) (regex : list string) :
  fld <> "items" ->
  field_step tmpl text out fld regex = field_step tmpl text out' fld regex.
Proof.
  intros Hne. unfold field_step.
  destruct (classify fld) eqn:Hc; try reflexivity.
  apply classify_items in Hc. contradiction.
Qed.

Lemma header_in_keys (tmpl : Template) (f : string) (v : pyval) :
  header tmpl !! f = Some v -> In f header_keys.
Proof.
  unfold header, header_keys. intros H.
  repeat (apply lookup_insert_Some in H as [[<- _] | [_ H]]; [cbn; tauto |]).
  exfalso. revert H. apply lookup_empty_Some.
Qed.

Lemma extract_fields_typed (tmpl : Template) (text : string)
  (flds : list (string * list string)) (out out' : output)
  (logs logs' : list log_entry) :
  extract_fields tmpl text flds out logs = Ok (out', logs') ->
  (forall f v, out !! f = Some v -> In f header_keys \/ field_typed f v) ->
  forall f v, out' !! f = Some v -> In f header_keys \/ field_typed f v.
Proof.
  revert out logs. induction flds as [|[fld regex] rest IH]; intros out logs H Hinv.
  - injection H as <- _. exact Hinv.
  - cbn [extract_fields] in H. apply bind_ok in H as ([w lg] & Hstep & H).
    apply (IH _ _ H). intros f v Hf. destruct w as [w|]; cbn [store] in Hf.
    + apply lookup_insert_Some in Hf as [[<- <-] | [_ Hf]]; [|now apply Hinv].
      right. exact (field_step_typed _ _ _ _ _ _ _ Hstep).
    + now apply Hinv.
Qed.

Lemma finish_required (tmpl : Template) (out out' : output)
  (logs logs' : list log_entry) :
  finish tmpl out logs = Ok (out', logs') ->
  out' = out /\
  forall f, In f (fst <$> fields tmpl) -> ~ In f (optional_fields tmpl) ->
            is_Some (out !! f).
Proof.
  unfold finish. destruct (required_unmatched tmpl out) as [|x xs] eqn:Hreq;
    [|discriminate].
  intros H. split.
  - repeat (apply bind_ok in H as (? & _ & H)). now injection H as <- _.
  - intros f Hf Hopt.
    destruct (out !! f) as [v|] eqn:Hv; [eauto |]. exfalso.
    assert (Hin : In f (required_unmatched tmpl out)).
    { unfold required_unmatched. apply filter_In. split.
      - apply list_elem_of_In, elem_of_remove_dups, list_elem_of_In, Hf.
      - rewrite Hv. destruct (str_in f (optional_fields tmpl)) eqn:Ho.
        + exfalso. apply Hopt. unfold str_in in Ho. apply existsb_exists in Ho.
          destruct Ho as (x & Hx & E). apply String.eqb_eq in E. now subst.
        + reflexivity. }
    rewrite Hreq in Hin. destruct Hin.
Qed.

Lemma field_typed_not_none (f : string) (v : pyval) :
  field_typed f v -> f <> "items" -> v <> VAtom ANone.
Proof.
  unfold field_typed. intros H Hne.
  destruct (classify f) eqn:Hc.
  - destruct H as (q & -> & _). discriminate.
  - destruct H as (z & ->). discriminate.
  - destruct H as (a & -> & [[z ->] | [m ->]]); [discriminate |].
    destruct m; discriminate.
  - destruct H as [(q & ->) | (l & -> & _)]; discriminate.
  - destruct H as (l & -> & _). discriminate.
  - destruct H as [(z & ->) | (l & -> & _)]; discriminate.
  - apply classify_items in Hc. contradiction.
  - destruct H as (s & ->). discriminate.
  - destruct H as [(s & ->) | (l & -> & _)]; discriminate.
  - destruct H as (m & ->). destruct m; discriminate.
Qed.

Lemma extract_typed (tmpl : Template) (text : string) (out : output)
  (logs : list log_entry) :
  extract tmpl text = Ok (out, logs) ->
  forall f, In f (fst <$> fields tmpl) -> ~ In f (optional_fields tmpl) ->
    exists v, out !! f = Some v /\
      (~ In f header_keys -> field_typed f v /\ (f <> "items" -> v <> VAtom ANone)).
Proof.
  unfold extract. intros H f Hf Hopt.
  apply bind_ok in H as ([out1 logs1] & Hloop & Hfin).
  apply finish_required in Hfin as [-> Hreq].
  destruct (Hreq f Hf Hopt) as [v Hv]. exists v. split; [exact Hv |].
  intros Hhdr.
  destruct (extract_fields_typed _ _ _ _ _ _ _ Hloop (fun g w Hg => or_introl (header_in_keys tmpl g w Hg)) f v Hv)
    as [Hk | Ht]; [contradiction |].
  split; [exact Ht | now apply field_typed_not_none].
Qed.

(** C8 (amended): the first template of the list whose keywords match the
    text it prepared is the one used for the extraction, whatever the
    templates after it match; there is no error for several matching
    templates. *)
Theorem first_matching_template_is_used (pre post : list Template)
  (tmpl : Template) (text prepared : string) :
  (forall t, In t pre ->
     exists s, prepare_input t text = Ok s /\ matches_keywords t s = false) ->
  prepare_input tmpl text = Ok prepared ->
  matches_keywords tmpl prepared = true ->
  _extract_data text (pre ++ tmpl :: post) = extract tmpl prepared.
Proof.
  intros Hpre Hprep Hmatch. induction pre as [|t pre IH].
  - cbn. rewrite Hprep. cbn. now rewrite Hmatch.
  - destruct (Hpre t (or_introl eq_refl)) as (s & Hs & Hm).
    cbn. rewrite Hs. cbn. rewrite Hm. cbn.
    apply IH. intros t' Ht'. apply Hpre. now right.
Qed.

Lemma no_template_matches (templates : list Template) (text : string) :
  (forall tmpl, In tmpl templates ->
     exists s, prepare_input tmpl text = Ok s /\ matches_keywords tmpl s = false) ->
  _extract_data text templates = Raise TemplateNotFoundError.
Proof.
  induction templates as [|t ts IH]; intros Hnone; [reflexivity |].
  destruct (Hnone t (or_introl eq_refl)) as (s & Hs & Hm).
  cbn. rewrite Hs. cbn. rewrite Hm. cbn. apply IH.
  intros t' Ht'. apply Hnone. now right.
Qed.

(** C1 (amended): when the extraction returns a record, the record comes
    from one of the templates and holds every required field of that
    template; a field with a coercion rule has the type of its rule and is
    not null, except that the items may be null. *)
Theorem extracted_record_typed (templates : list Template) (text : string)
  (out : output) (logs : list log_entry) :
  _extract_data text templates = Ok (out, logs) ->
  exists tmpl, In tmpl templates /\
    forall f, In f (fst <$> fields tmpl) -> ~ In f (optional_fields tmpl) ->
      exists v, out !! f = Some v /\
        (~ In f header_keys ->
           field_typed f v /\ (f <> "items" -> v <> VAtom ANone)).
Proof.
  revert out logs.
  induction templates as [|t ts IH]; intros out logs H; [discriminate H |].
  cbn [_extract_data] in H. apply bind_ok in H as (s & Hs & H).
  destruct (matches_keywords t s); cbn [negb] in H.
  - exists t. split; [now left |]. exact (extract_typed _ _ _ _ H).
  - destruct (IH _ _ H) as (tmpl & Hin & Hreq). exists tmpl.
    split; [now right | exact Hreq].
Qed.

End Typing.

Section ItemsMismatch.
Context {rt : Runtime}.

Lemma filter_nil_iff {A : Type} (p : A -> bool) (l : list A) :
  List.filter p l = [] <-> forall x, In x l -> p x = false.
Proof.
  induction l as [|a l IH]; cbn.
  - split; [intros _ x [] | reflexivity].
  - destruct (p a) eqn:Hp.
    + split; [discriminate |]. intros H. specialize (H a (or_introl eq_refl)).
      congruence.
    + rewrite IH. split.
      * intros H x [<- | Hx]; [exact Hp | now apply H].
      * intros H x Hx. apply H. now right.
Qed.

Lemma required_unmatched_nil (tmpl : Template) (out : output) :
  required_unmatched tmpl out = [] <->
  forall f, In f (fst <$> fields tmpl) ->
    str_in f (optional_fields tmpl) = true \/ is_Some (out !! f).
Proof.
  unfold required_unmatched. rewrite filter_nil_iff. split.
  - intros H f Hf.
    assert (Hd : In f (remove_dups (fst <$> fields tmpl))).
    { apply list_elem_of_In, elem_of_remove_dups, list_elem_of_In, Hf. }
    specialize (H f Hd). apply andb_false_iff in H as [H | H].
    + left. now apply negb_false_iff.
    + right. apply negb_false_iff, bool_decide_eq_true in H. exact H.
  - intros H f Hf.
    rewrite <- list_elem_of_In, elem_of_remove_dups, list_elem_of_In in Hf.
    destruct (H f Hf) as [-> | Hs]; [reflexivity |].
    rewrite (bool_decide_eq_true_2 _ Hs). apply andb_false_r.
Qed.

Lemma without_items_names (tmpl : Template) (f : string) :
  In f (fst <$> fields tmpl) ->
  f = "items" \/ In f (fst <$> fields (without_items tmpl)).
Proof.
  cbn [without_items fields]. induction (fields tmpl) as [|[g rx] l IH]; cbn.
  - intros [].
  - intros [<- | Hf].
    + destruct (String.eqb g "items") eqn:E.
      * left. now apply String.eqb_eq.
      * right. cbn. now left.
    + destruct (IH Hf) as [-> | Hin]; [now left |]. right.
      destruct (negb (String.eqb g "items")); [now right | exact Hin].
Qed.

Lemma filter_not_items (l : list (string * list string)) :
  ~ In "items" (fst <$> l) ->
  List.filter (fun f => negb (String.eqb (fst f) "items")) l = l.
Proof.
  induction l as [|[g rx] l IH]; cbn; [reflexivity |].
  intros H. destruct (String.eqb g "items") eqn:E.
  - exfalso. apply H. left. now apply String.eqb_eq.
  - cbn. f_equal. apply IH. intros Hin. apply H. now right.
Qed.

Lemma filter_items_split (pre post : list (string * list string))
  (rx : list string) :
  ~ In "items" (fst <$> pre) -> ~ In "items" (fst <$> post) ->
  List.filter (fun f => negb (String.eqb (fst f) "items"))
    (pre ++ ("items", rx) :: post)%list = (pre ++ post)%list.
Proof.
  intros Hpre Hpost. rewrite List.filter_app. cbn [List.filter fst].
  rewrite String.eqb_refl. cbn [negb]. now rewrite !filter_not_items.
Qed.

Lemma assert_present_insert (out : output) (key : string) (x : pyval) :
  key <> "items" ->
  assert_present (<["items" := x]> out) key = assert_present out key.
Proof.
  intros Hne. unfold assert_present, output.
  rewrite lookup_insert_ne by congruence. reflexivity.
Qed.

(** The closing checks pass with the items entry when they pass on the
    record of the other fields. *)
Lemma finish_insert_items (tmpl : Template) (out out' : output)
  (logs logs' logs2 : list log_entry) (x : pyval) :
  finish (without_items tmpl) out logs = Ok (out', logs') ->
  finish tmpl (<["items" := x]> out) logs2 = Ok (<["items" := x]> out, logs2).
Proof.
  unfold finish.
  destruct (required_unmatched (without_items tmpl) out) as [|? ?] eqn:Hreq;
    [|discriminate].
  intros H.
  assert (Hnil : required_unmatched tmpl (<["items" := x]> out) = []).
  { apply required_unmatched_nil. intros f Hf.
    destruct (without_items_names _ _ Hf) as [-> | Hin].
    - right. unfold output. rewrite lookup_insert_eq. eauto.
    - destruct (proj1 (required_unmatched_nil _ _) Hreq f Hin) as [Ho | Hs].
      + left. exact Ho.
      + right. unfold output. destruct (decide (f = "items")) as [-> | Hne].
        * rewrite lookup_insert_eq. eauto.
        * rewrite lookup_insert_ne by congruence. exact Hs. }
  rewrite Hnil. rewrite !assert_present_insert by discriminate.
  repeat match type of H with
  | (assert_present ?o ?k ≫= _) = _ =>
      destruct (assert_present o k) as [[]|?]; [cbn in H |- * | discriminate H]
  end.
  reflexivity.
Qed.

Lemma finish_same (tmpl : Template) (out out' : output)
  (logs logs' : list log_entry) :
  finish tmpl out logs = Ok (out', logs') -> out' = out /\ logs' = logs.
Proof.
  unfold finish. destruct (required_unmatched tmpl out); [|discriminate].
  intros H. repeat (apply bind_ok in H as (? & _ & H)). now injection H as <- <-.
Qed.

Lemma extract_fields_without_items (tmpl : Template) (text : string)
  (flds : list (string * list string)) (out : output) (logs : list log_entry) :
  extract_fields (without_items tmpl) text flds out logs
  = extract_fields tmpl text flds out logs.
Proof.
  revert out logs. induction flds as [|[fld rx] rest IH]; intros out logs;
    [reflexivity |].
  cbn [extract_fields].
  change (field_step (without_items tmpl) text out fld rx)
    with (field_step tmpl text out fld rx).
  destruct (field_step tmpl text out fld rx) as [[v lg]|e]; [|reflexivity].
  cbn. apply IH.
Qed.

Lemma extract_fields_app (tmpl : Template) (text : string)
  (a b : list (string * list string)) (out : output) (logs : list log_entry) :
  extract_fields tmpl text (a ++ b)%list out logs
  = (r ← extract_fields tmpl text a out logs;
     extract_fields tmpl text b r.1 r.2).
Proof.
  revert out logs. induction a as [|[fld rx] a IH]; intros out logs;
    [reflexivity |].
  cbn [extract_fields app].
  destruct (field_step tmpl text out fld rx) as [[v lg]|e]; [|reflexivity].
  cbn. apply IH.
Qed.

(** The loop only appends to the log it is given. *)
Lemma extract_fields_logs (tmpl : Template) (text : string)
  (flds : list (string * list string)) (out out' : output)
  (logs logs' : list log_entry) :
  extract_fields tmpl text flds out logs = Ok (out', logs') ->
  exists d, logs' = (logs ++ d)%list /\
    forall logs2, extract_fields tmpl text flds out logs2 = Ok (out', (logs2 ++ d)%list).
Proof.
  revert out logs. induction flds as [|[fld rx] rest IH]; intros out logs H.
  - injection H as <- <-. exists []. split; [now rewrite app_nil_r |].
    intros logs2. cbn. now rewrite app_nil_r.
  - cbn [extract_fields] in H. apply bind_ok in H as ([v lg] & Hstep & H).
    destruct (IH _ _ H) as (d & -> & Hd).
    exists (lg ++ d)%list. split; [now rewrite app_assoc |].
    intros logs2. cbn [extract_fields]. rewrite Hstep. cbn.
    rewrite Hd. now rewrite app_assoc.
Qed.

(** A field other than those of the list keeps its entry. *)
Lemma extract_fields_lookup_other (tmpl : Template) (text : string)
  (flds : list (string * list string)) (out out' : output)
  (logs logs' : list log_entry) (f : string) :
  ~ In f (fst <$> flds) ->
  extract_fields tmpl text flds out logs = Ok (out', logs') ->
  out' !! f = out !! f.
Proof.
  revert out logs. induction flds as [|[fld rx] rest IH]; intros out logs Hf H.
  - now injection H as <- _.
  - cbn [extract_fields] in H. apply bind_ok in H as ([v lg] & Hstep & H).
    rewrite (IH _ _ (fun Hin => Hf (or_intror Hin)) H).
    destruct v as [v|]; cbn [store]; [|reflexivity].
    apply lookup_insert_ne. intros ->. apply Hf. now left.
Qed.

(** The fields other than the items are extracted alike with and without
    an items entry in the record. *)
Lemma extract_fields_insert_items (tmpl : Template) (text : string)
  (flds : list (string * list string)) (out out' : output)
  (logs logs' : list log_entry) (x : pyval) :
  ~ In "items" (fst <$> flds) ->
  extract_fields tmpl text flds out logs = Ok (out', logs') ->
  extract_fields tmpl text flds (<["items" := x]> out) logs
  = Ok (<["items" := x]> out', logs').
Proof.
  revert out logs. induction flds as [|[fld rx] rest IH]; intros out logs Hf H.
  - now injection H as <- <-.
  - cbn [extract_fields] in H |- *.
    assert (Hne : fld <> "items") by (intros ->; apply Hf; now left).
    rewrite (field_step_output tmpl text (<["items" := x]> out) out fld rx Hne).
    apply bind_ok in H as ([v lg] & Hstep & H). rewrite Hstep. cbn.
    assert (Hst : store (<["items" := x]> out) fld v
                  = <["items" := x]> (store out fld v)).
    { destruct v as [v|]; cbn [store]; [|reflexivity].
      apply insert_insert_ne. congruence. }
    rewrite Hst. apply IH; [|exact H]. intros Hin. apply Hf. now right.
Qed.

Lemma parse_items_none_log (p : parser_t) (items : list rmatch) (amount : num)
  (lg : list log_entry) :
  parse_items p items amount = Ok (None, lg) ->
  lg = mismatch_log \/ lg = rate_log.
Proof.
  unfold parse_items, Markant._parse_debit, Obi._parse_delivery,
    Obi._parse_penalty, Obi._parse_return, Roller._parse_return,
    Toom._parse_return, Hornbach._parse_delivery_price.
  intros H.
  repeat match type of H with
  | match ?p with _ => _ end = _ => destruct p; try discriminate H
  | (if ?c then _ else _) = _ => destruct c; try discriminate H
  | (_ ≫= _) = Ok _ => apply bind_ok in H as (? & _ & H)
  | Ok (None, _) = Ok (None, _) => injection H as <-
  end; auto.
Qed.

(** The comparison with the total amount raises nothing: an error of a
    reconciler comes from reading the rows and is the same for every
    total. *)
Lemma parse_items_error_not_from_total (p : parser_t) (items : list rmatch)
  (a1 a2 : num) (e : exn) :
  parse_items p items a1 = Raise e -> parse_items p items a2 = Raise e.
Proof.
  unfold parse_items, Markant._parse_debit, Obi._parse_delivery,
    Obi._parse_penalty, Obi._parse_return, Roller._parse_return,
    Toom._parse_return, Hornbach._parse_delivery_price.
  destruct p; repeat match goal with
  | |- context [if ?c then _ else _] =>
      match c with
      | context [a1] => fail 1
      | context [a2] => fail 1
      | _ => destruct c
      end
  end; try (intros H; exact H);
  match goal with
  | |- (?m ≫= _) = _ -> _ => destruct m as [[[? ?] ?]|?] || destruct m as [[? ?]|?]
  end; cbn; intros H; try exact H;
  repeat match type of H with
  | (if ?c then _ else _) = _ => destruct c; try discriminate H
  end.
Qed.

(** C7: when the line items of a document are extracted and their
    reconciler rejects them against the document total (it returns no
    rows), the extraction succeeds whenever that of the other fields does;
    it returns the record of the other fields with the items set to no
    value, and the diagnostic of the reconciler, with the warning that the
    items are removed, is in the log.  This holds for every reconciler. *)
Theorem items_mismatch_keeps_extraction (tmpl : Template) (text : string)
  (pre post : list (string * list string)) (rx : list string)
  (amount : num) (lg lg0 : list log_entry) (out0 : output) :
  fields tmpl = (pre ++ ("items", rx) :: post)%list ->
  NoDup (fst <$> fields tmpl) ->
  In "amount" (fst <$> pre) ->
  is_composite (parser tmpl) = true ->
  extract (without_items tmpl) text = Ok (out0, lg0) ->
  out0 !! "amount" = Some (VAtom (ANum amount)) ->
  _match_patterns text rx true <> [] ->
  parse_items (parser tmpl) (_match_patterns text rx true) amount = Ok (None, lg) ->
  exists logs,
    extract tmpl text = Ok (<["items" := VAtom ANone]> out0, logs) /\
    (forall e, In e lg -> In e logs) /\
    In (LogWarning msg_removed) logs.
Proof.
  intros Hfields Hnodup Hamount Hcomp Hrest Hout0 Hitems Hparse.
  rewrite Hfields, fmap_app, fmap_cons in Hnodup. cbn [fst] in Hnodup.
  apply NoDup_app in Hnodup as (_ & Hdisj & Hnd).
  apply NoDup_cons in Hnd as [Hpost _].
  assert (Hpre_items : ~ In "items" (fst <$> pre)).
  { intros Hin. apply list_elem_of_In in Hin. apply (Hdisj _ Hin). left. }
  assert (Hpost_items : ~ In "items" (fst <$> post)).
  { intros Hin. apply Hpost. now apply list_elem_of_In. }
  assert (Hpost_amount : ~ In "amount" (fst <$> post)).
  { intros Hin. apply list_elem_of_In in Hamount. apply (Hdisj _ Hamount).
    right. now apply list_elem_of_In. }
  (* the run on the other fields *)
  unfold extract in Hrest.
  apply bind_ok in Hrest as ([o l] & Hloop & Hfin).
  destruct (finish_same _ _ _ _ _ Hfin) as [-> ->].
  rewrite extract_fields_without_items in Hloop.
  cbn [without_items fields] in Hloop. rewrite Hfields in Hloop.
  rewrite filter_items_split in Hloop by assumption.
  change (header (without_items tmpl)) with (header tmpl) in Hloop.
  rewrite extract_fields_app in Hloop.
  apply bind_ok in Hloop as ([out1 lg1] & Hpre & Hpostrun).
  cbn [fst snd] in Hpostrun.
  assert (Hamt1 : out1 !! "amount" = Some (VAtom (ANum amount))).
  { rewrite <- (extract_fields_lookup_other _ _ _ _ _ _ _ _ Hpost_amount Hpostrun).
    exact Hout0. }
  destruct (extract_fields_logs _ _ _ _ _ _ _ Hpostrun) as (d & -> & Hd).
  (* the turn of the items *)
  assert (Hstep : field_step tmpl text out1 "items" rx
                  = Ok (Some (VAtom ANone), lg)).
  { unfold field_step. rewrite String.eqb_refl.
    destruct (_match_patterns text rx true) as [|first others] eqn:Hm;
      [contradiction |].
    change (str_in "items" _unique_value_fields) with false.
    rewrite andb_false_r. change (classify "items") with FItems.
    rewrite Hcomp, Hamt1, Hparse. reflexivity. }
  exists ((lg1 ++ lg) ++ d)%list. split; [|split].
  - unfold extract. rewrite Hfields, extract_fields_app, Hpre.
    change (extract_fields tmpl text (("items", rx) :: post) out1 lg1
            ≫= (fun '(out, logs) => finish tmpl out logs)
            = Ok (<["items" := VAtom ANone]> o, ((lg1 ++ lg) ++ d)%list)).
    cbn [extract_fields]. rewrite Hstep.
    change (extract_fields tmpl text post (<["items" := VAtom ANone]> out1)
              (lg1 ++ lg)%list
            ≫= (fun '(out, logs) => finish tmpl out logs)
            = Ok (<["items" := VAtom ANone]> o, ((lg1 ++ lg) ++ d)%list)).
    rewrite (extract_fields_insert_items _ _ _ _ _ _ _ _ Hpost_items (Hd (lg1 ++ lg)%list)).
    exact (finish_insert_items _ _ _ _ _ _ _ Hfin).
  - intros e He. apply in_or_app. left. apply in_or_app. now right.
  - apply in_or_app. left. apply in_or_app. right.
    destruct (parse_items_none_log _ _ _ _ Hparse) as [-> | ->]; cbn; tauto.
Qed.

End ItemsMismatch.

End ExtractionFacts.


Module ExtractionClaims.
Import Items Extraction ExtractionSamples ExtractionFacts.

(** C1 (as stated) fails: a document whose total reads 0,00 makes the
    extraction raise ValueError, which is neither of the two extraction
    errors. *)
Theorem zero_amount_raises_value_error :
  @_extract_data zero_engine zero_text [bauhaus_debit]
    = Raise (ValueError "Extracted document amount must be a non-zero positive float!")
  /\ ~ @spec_extract_contract zero_engine [bauhaus_debit] zero_text.
Proof.
  assert (H : @_extract_data zero_engine zero_text [bauhaus_debit]
    = Raise (ValueError "Extracted document amount must be a non-zero positive float!"))
    by (vm_compute; reflexivity).
  split; [exact H |].
  unfold spec_extract_contract. rewrite H. intros [E | E]; discriminate E.
Qed.

Lemma extracted_record_typed_witness :
  exists tmpl, In tmpl [obi_penalty; bauhaus_debit] /\
    forall f, In f (fst <$> fields tmpl) -> ~ In f (optional_fields tmpl) ->
      exists v,
        (<["amount" := VAtom (ANum (NFloat (1250 # 100)))]>
         (<["document_number" := VAtom (ANum (NInt 815))]> (header bauhaus_debit)))
          !! f = Some v /\
        (~ In f header_keys ->
           field_typed f v /\ (f <> "items" -> v <> VAtom ANone)).
Proof.
  apply (@extracted_record_typed debit_engine [obi_penalty; bauhaus_debit]
           debit_text _ []).
  vm_compute. reflexivity.
Defined.

(** C8 (as stated) fails: two templates match the debit note, and the
    extraction returns the record of the first one. *)
Theorem two_matching_templates_first_wins :
  List.filter (@template_matches debit_engine debit_text)
    [bauhaus_debit; bauhaus_charge] = [bauhaus_debit; bauhaus_charge]
  /\ (exists out logs,
        @_extract_data debit_engine debit_text [bauhaus_debit; bauhaus_charge]
          = Ok (out, logs)
        /\ out !! "template_id" = Some (VAtom (AStr "191001DE001")))
  /\ ~ @spec_ambiguity_is_an_error debit_engine [bauhaus_debit; bauhaus_charge]
         debit_text.
Proof.
  assert (H : @_extract_data debit_engine debit_text [bauhaus_debit; bauhaus_charge]
    = Ok (<["amount" := VAtom (ANum (NFloat (1250 # 100)))]>
          (<["document_number" := VAtom (ANum (NInt 815))]> (header bauhaus_debit)),
          [])) by (vm_compute; reflexivity).
  split; [vm_compute; reflexivity |]. split.
  - eexists _, _. split; [exact H |]. vm_compute. reflexivity.
  - intros Hspec. destruct Hspec as [e He].
    + vm_compute. lia.
    + rewrite H in He. discriminate He.
Qed.

Lemma first_matching_template_is_used_witness :
  @_extract_data debit_engine debit_text
    ([obi_penalty] ++ bauhaus_debit :: [bauhaus_charge])
  = @extract debit_engine bauhaus_debit debit_text.
Proof.
  apply (@first_matching_template_is_used debit_engine).
  - intros t [<- | []]. exists debit_text. split; vm_compute; reflexivity.
  - vm_compute. reflexivity.
  - vm_compute. reflexivity.
Defined.

Lemma items_mismatch_keeps_extraction_witness :
  exists logs,
    @extract penalty_engine obi_penalty penalty_text
      = Ok (<["items" := VAtom ANone]> penalty_record, logs) /\
    (forall e, In e mismatch_log -> In e logs) /\
    In (LogWarning msg_removed) logs.
Proof.
  apply (@items_mismatch_keeps_extraction penalty_engine obi_penalty penalty_text
           [("document_number", [rx_document]); ("amount", [rx_amount])] []
           [rx_items] (NFloat (25000 # 100)) mismatch_log []).
  - reflexivity.
  - apply (bool_decide_unpack _). vm_compute. exact I.
  - vm_compute. tauto.
  - reflexivity.
  - vm_compute. reflexivity.
  - vm_compute. reflexivity.
  - vm_compute. discriminate.
  - vm_compute. reflexivity.
Defined.

End ExtractionClaims.

(** ** Record ids in file names *)

Module FilesFacts.
Import PyStr PyStrFacts NumberFormat NumbersFacts Files.

Lemma lower_char_not_equals (c : ascii) :
  Ascii.eqb c "=" = false -> Ascii.eqb (lower_char c) "=" = false.
Proof.
  destruct c as [[] [] [] [] [] [] [] []]; intros H; try reflexivity;
    discriminate H.
Qed.

Lemma lower_no_equals_sign (s : string) :
  no_equals_sign s = true -> no_equals_sign (lower s) = true.
Proof.
  unfold no_equals_sign. induction s as [|c s IH]; [reflexivity |].
  cbn [all_chars lower]. intros H. apply andb_prop in H as [Hc Hs].
  apply negb_true_iff in Hc. now rewrite (lower_char_not_equals c Hc), (IH Hs).
Qed.

(** No match of the tag starts inside a text without an equals sign. *)
Lemma search_skips_prefix (p tail : string) :
  no_equals_sign p = true ->
  search_record_id (p +:+ ("_id=" +:+ tail)) = search_record_id ("_id=" +:+ tail).
Proof.
  unfold no_equals_sign. induction p as [|c p IH]; [reflexivity |].
  intros H. cbn [all_chars] in H. apply andb_prop in H as [Hc Hp].
  rewrite append_cons. cbn [search_record_id]. rewrite (IH Hp).
  assert (Hnone : after_prefix "_id=" (String c (p +:+ ("_id=" +:+ tail))) = None).
  { destruct p as [|c2 [|c3 [|c4 p]]]; rewrite ?append_cons, ?append_nil_l;
      cbn [after_prefix append].
    - destruct (Ascii.eqb "_" c); reflexivity.
    - destruct (Ascii.eqb "_" c); [|reflexivity].
      destruct (Ascii.eqb "i" c2); reflexivity.
    - destruct (Ascii.eqb "_" c); [|reflexivity].
      destruct (Ascii.eqb "i" c2); [|reflexivity].
      destruct (Ascii.eqb "d" c3); reflexivity.
    - destruct (Ascii.eqb "_" c); [|reflexivity].
      destruct (Ascii.eqb "i" c2); [|reflexivity].
      destruct (Ascii.eqb "d" c3); [|reflexivity].
      cbn [all_chars] in Hp.
      apply andb_prop in Hp as [_ Hp]. apply andb_prop in Hp as [_ Hp].
      apply andb_prop in Hp as [H4 _]. apply negb_true_iff in H4.
      rewrite Ascii.eqb_sym, H4. reflexivity. }
  now rewrite Hnone.
Qed.

Lemma leading_digits_app (ds ext : string) :
  all_chars is_digit ds = true -> is_extension ext = true ->
  leading_digits (ds +:+ ext) = ds.
Proof.
  intros Hds Hext. induction ds as [|c ds IH].
  - rewrite append_nil_l. destruct ext as [|e ext]; [reflexivity |].
    cbn [is_extension] in Hext. apply Ascii.eqb_eq in Hext. now subst e.
  - cbn [all_chars] in Hds. apply andb_prop in Hds as [Hc Hs].
    rewrite append_cons. cbn [leading_digits]. now rewrite Hc, (IH Hs).
Qed.

Lemma search_finds_tag (p ds ext : string) :
  no_equals_sign p = true -> all_chars is_digit ds = true -> ds <> "" ->
  is_extension ext = true ->
  search_record_id (p +:+ ("_id=" +:+ ds) +:+ ext) = Some ds.
Proof.
  intros Hp Hds Hne Hext.
  replace (p +:+ ("_id=" +:+ ds) +:+ ext) with (p +:+ ("_id=" +:+ (ds +:+ ext))).
  2:{ now rewrite !append_assoc. }
  rewrite (search_skips_prefix _ _ Hp).
  change (search_record_id ("_id=" +:+ (ds +:+ ext)))
    with (match leading_digits (ds +:+ ext) with
          | EmptyString => search_record_id ("id=" +:+ (ds +:+ ext))
          | str_id => Some str_id
          end).
  rewrite (leading_digits_app _ _ Hds Hext). destruct ds; [congruence | reflexivity].
Qed.

(** The number of digits of a number, against 1000. *)
Lemma width_fuel_lower (fuel : nat) (n : Z) :
  0 <= n -> 10 ^ (Z.of_nat (width_fuel fuel n) - 1) <= Z.max n 1.
Proof.
  revert n. induction fuel as [|f IH]; intros n Hn; [simpl; lia |].
  cbn [width_fuel]. destruct (Z.ltb_spec n 10) as [Hlt | Hge]; [simpl; lia |].
  rewrite Nat2Z.inj_succ.
  replace (Z.succ (Z.of_nat (width_fuel f (n / 10))) - 1)
    with (Z.succ (Z.of_nat (width_fuel f (n / 10)) - 1)) by lia.
  pose proof (width_fuel_pos f (n / 10)).
  rewrite Z.pow_succ_r by lia.
  assert (Hq : 1 <= n / 10) by (apply Z.div_le_lower_bound; lia).
  specialize (IH (n / 10) ltac:(lia)).
  pose proof (Z.mul_div_le n 10 ltac:(lia)). lia.
Qed.

Lemma width_four (n : Z) : 0 <= n -> (width n <? 4)%nat = (n <? 1000).
Proof.
  intros Hn. destruct (Z.ltb_spec n 1000) as [Hlt | Hge].
  - apply Nat.ltb_lt. pose proof (width_fuel_lower (Z.to_nat (Z.log2 n) + 1) n Hn) as H.
    fold (width n) in H.
    destruct (Nat.lt_ge_cases (width n) 4) as [? | Hw]; [assumption | exfalso].
    assert (10 ^ 3 <= 10 ^ (Z.of_nat (width n) - 1))
      by (apply Z.pow_le_mono_r; lia).
    change (10 ^ 3) with 1000 in *. lia.
  - apply Nat.ltb_ge. pose proof (width_bound n Hn) as H.
    destruct (Nat.lt_ge_cases (width n) 4) as [Hw | ?]; [exfalso | assumption].
    assert (10 ^ Z.of_nat (width n) <= 10 ^ 3)
      by (apply Z.pow_le_mono_r; lia).
    change (10 ^ 3) with 1000 in *. lia.
Qed.

Lemma extract_tagged (p ext : string) (n : Z) :
  no_equals_sign p = true -> is_extension ext = true -> 0 <= n ->
  extract_record_id (p +:+ ("_id=" +:+ str_of_int n) +:+ ext) =
  if n <? 1000 then Failed FileNameFormatError else Done n.
Proof.
  intros Hp Hext Hn. unfold extract_record_id, str_of_int.
  destruct (Z.ltb_spec n 0) as [? | _]; [lia |].
  rewrite (search_finds_tag p (digits n) ext Hp (digits_all_digits n)
             (digits_nonempty n) Hext).
  unfold digits at 1. rewrite digits_w_length, (width_four n Hn).
  destruct (n <? 1000); [reflexivity |].
  unfold int_of_digits. rewrite (digits_value 0 n Hn). reflexivity.
Qed.

(** The record id the extractor and the claim manager read from the name
    of a file is the one [FileManager.rename_files] wrote into it, when
    the id has four digits or more; with an id below 1000 the name is
    refused.  The folder and the new name hold no equals sign. *)
Theorem tagged_name_gives_record_id (folder new_name ext : string) (rec_id : Z) :
  no_equals_sign (folder +:+ new_name) = true ->
  is_extension ext = true ->
  0 <= rec_id ->
  extract_record_id (tagged_path folder new_name rec_id ext) =
  if rec_id <? 1000 then Failed FileNameFormatError else Done rec_id.
Proof.
  intros Hp Hext Hn. unfold tagged_path.
  rewrite <- (extract_tagged (folder +:+ new_name) ext rec_id Hp Hext Hn).
  now rewrite !append_assoc.
Qed.

Lemma tagged_name_gives_record_id_witness :
  extract_record_id (tagged_path "upload/" "obi_de_retoure" 125478 ".json")
  = Done 125478.
Proof.
  exact (tagged_name_gives_record_id "upload/" "obi_de_retoure" ".json" 125478
           eq_refl eq_refl ltac:(lia)).
Defined.

(** The file the downloader renames after its database record gives the
    record id back to [File.extract_record_id], when the id has four
    digits or more; with an id below 1000 the name is refused. *)
Theorem renamed_file_gives_record_id (folder customer : string) (rec_id : Z) :
  no_equals_sign (folder +:+ customer) = true ->
  0 <= rec_id ->
  extract_record_id (folder +:+ Downloader.file_path customer rec_id) =
  if rec_id <? 1000 then Failed FileNameFormatError else Done rec_id.
Proof.
  intros Hp Hn. unfold Downloader.file_path.
  assert (Hq : no_equals_sign (folder +:+ (lower customer +:+ "_document")) = true).
  { unfold no_equals_sign in *. rewrite all_chars_app in Hp.
    apply andb_prop in Hp as [Hf Hc].
    rewrite !all_chars_app, Hf.
    pose proof (lower_no_equals_sign customer Hc) as Hl.
    unfold no_equals_sign in Hl. rewrite Hl. reflexivity. }
  rewrite <- (extract_tagged _ ".pdf" rec_id Hq eq_refl Hn).
  f_equal. rewrite !append_assoc. reflexivity.
Qed.

Lemma renamed_file_gives_record_id_witness :
  extract_record_id ("input/" +:+ Downloader.file_path "OBI_DE" 12345)
  = Done 12345.
Proof.
  exact (renamed_file_gives_record_id "input/" "OBI_DE" 12345 eq_refl ltac:(lia)).
Defined.

End FilesFacts.

(** ** The categories of a message and the records of the table *)

Module MessageCategoryFacts.
Import PyStr Downloader MessageCategory.

Lemma str_in_true (s : string) (l : list string) : str_in s l = true <-> In s l.
Proof.
  unfold str_in. rewrite existsb_exists. split.
  - intros (x & Hx & E). apply String.eqb_eq in E. now subst.
  - intros H. exists s. split; [exact H | apply String.eqb_refl].
Qed.

Lemma get_message_category_select (msg : message) (msg_categs ctrl_categs : list string) :
  _get_message_category msg msg_categs ctrl_categs
  = select_categories (valid_categories msg msg_categs ctrl_categs)
      msg_categs ctrl_categs.
Proof. reflexivity. Qed.

Lemma valid_category_applied (msg : message) (msg_categs ctrl_categs : list string)
  (x : string) :
  In x (valid_categories msg msg_categs ctrl_categs) ->
  In x (categories msg) /\ (In x msg_categs \/ In x ctrl_categs).
Proof.
  unfold valid_categories. intros H.
  apply list_elem_of_In, elem_of_remove_dups, list_elem_of_In, filter_In in H
    as [Hc Hv].
  split; [exact Hc |]. apply str_in_true, in_app_or in Hv. exact Hv.
Qed.

(** The category and the control category [_get_message_category] returns
    are categories the user applied to the message; the first is one of
    the message categories of the configuration, the second one of its
    control categories; and the message carries at most two valid
    categories (three or more are an error). *)
Theorem message_category_is_applied (msg : message)
  (msg_categs ctrl_categs : list string) (categ control : option string) :
  _get_message_category msg msg_categs ctrl_categs = Ok (categ, control) ->
  (forall x, categ = Some x -> In x (categories msg) /\ In x msg_categs) /\
  (forall y, control = Some y -> In y (categories msg) /\ In y ctrl_categs) /\
  (length (valid_categories msg msg_categs ctrl_categs) <= 2)%nat.
Proof.
  rewrite get_message_category_select.
  pose proof (valid_category_applied msg msg_categs ctrl_categs) as Hv.
  destruct (valid_categories msg msg_categs ctrl_categs) as [|a [|b [|c l]]];
    cbn [select_categories length]; intros H.
  - injection H as <- <-. (split; [|split; [|lia]]); intros ? [=].
  - destruct (Hv a (or_introl eq_refl)) as [Ha Hk].
    destruct (str_in a ctrl_categs) eqn:Hc; injection H as <- <-;
      (split; [|split; [|lia]]); intros ? [= <-].
    + split; [exact Ha | now apply str_in_true].
    + split; [exact Ha |]. destruct Hk as [Hk | Hk]; [exact Hk |].
      apply str_in_true in Hk. congruence.
  - destruct (Hv a (or_introl eq_refl)) as [Ha _].
    destruct (Hv b (or_intror (or_introl eq_refl))) as [Hb _].
    destruct (str_in a ctrl_categs && str_in b msg_categs) eqn:H1.
    + apply andb_prop in H1 as [Hac Hbm]. injection H as <- <-.
      (split; [|split; [|lia]]); intros ? [= <-];
        (split; [assumption | now apply str_in_true]).
    + destruct (str_in b ctrl_categs && str_in a msg_categs) eqn:H2;
        [|discriminate H].
      apply andb_prop in H2 as [Hbc Ham]. injection H as <- <-.
      (split; [|split; [|lia]]); intros ? [= <-];
        (split; [assumption | now apply str_in_true]).
  - discriminate H.
Qed.

Lemma message_category_is_applied_witness :
  (forall x, Some "PENALTY" = Some x ->
     In x ["PENALTY"; "unknown"; "IGNORE_ALREADY_EXISTING"] /\
     In x (msg_categs sample_config)) /\
  (forall y, Some "IGNORE_ALREADY_EXISTING" = Some y ->
     In y ["PENALTY"; "unknown"; "IGNORE_ALREADY_EXISTING"] /\
     In y (ctrl_categs sample_config)) /\
  (length (valid_categories
             {| msg_id := "msg-3";
                categories := ["PENALTY"; "unknown"; "IGNORE_ALREADY_EXISTING"];
                hash_note := None; content_hash := "9f2c"; saved := Saved;
                rename_ok := true |}
             (msg_categs sample_config) (ctrl_categs sample_config)) <= 2)%nat.
Proof.
  exact (message_category_is_applied
           {| msg_id := "msg-3";
              categories := ["PENALTY"; "unknown"; "IGNORE_ALREADY_EXISTING"];
              hash_note := None; content_hash := "9f2c"; saved := Saved;
              rename_ok := true |}
           (msg_categs sample_config) (ctrl_categs sample_config)
           (Some "PENALTY") (Some "IGNORE_ALREADY_EXISTING") eq_refl).
Defined.

(** When no name is both a message category and a control category, the
    result of [_get_message_category] is the same for every order in which
    the set of the valid categories is listed. *)
Theorem message_category_any_order (msg : message)
  (msg_categs ctrl_categs categs : list string) :
  (forall x, In x msg_categs -> ~ In x ctrl_categs) ->
  categs ≡ₚ valid_categories msg msg_categs ctrl_categs ->
  select_categories categs msg_categs ctrl_categs
  = _get_message_category msg msg_categs ctrl_categs.
Proof.
  intros Hdisj Hperm. rewrite get_message_category_select.
  destruct (valid_categories msg msg_categs ctrl_categs) as [|a [|b [|c l]]].
  - apply Permutation_nil_r in Hperm. now subst.
  - apply Permutation_sym, Permutation_length_1_inv in Hperm. now subst.
  - apply Permutation_sym, Permutation_length_2_inv in Hperm as [-> | ->];
      [reflexivity |].
    cbn [select_categories].
    destruct (str_in a ctrl_categs) eqn:Hac, (str_in b msg_categs) eqn:Hbm,
      (str_in b ctrl_categs) eqn:Hbc, (str_in a msg_categs) eqn:Ham;
      cbn [andb]; try reflexivity; exfalso.
    all: apply str_in_true in Hbc; apply str_in_true in Hbm ||
         (apply str_in_true in Hac; apply str_in_true in Ham);
         eapply Hdisj; eassumption.
  - pose proof (Permutation_length Hperm) as Hlen. cbn [length] in Hlen.
    destruct categs as [|x [|y [|z k]]]; try discriminate Hlen. reflexivity.
Qed.

Lemma message_category_any_order_witness :
  select_categories ["IGNORE_ALREADY_EXISTING"; "PENALTY"]
    (msg_categs sample_config) (ctrl_categs sample_config)
  = _get_message_category
      {| msg_id := "msg-3"; categories := ["PENALTY"; "IGNORE_ALREADY_EXISTING"];
         hash_note := None; content_hash := "9f2c"; saved := Saved;
         rename_ok := true |}
      (msg_categs sample_config) (ctrl_categs sample_config).
Proof.
  apply message_category_any_order.
  - intros x Hx Hc. cbn in Hx, Hc.
    destruct Hx as [<- | [<- | []]]; destruct Hc as [Hc | []]; discriminate Hc.
  - vm_compute. apply perm_swap.
Defined.

(** *** What a pass does to the table *)

Lemma keys_update (t : table) (i : Z) (f : doc_record -> doc_record) :
  (forall r, record_key (f r) = record_key r) ->
  record_key <$> update_record t i f = record_key <$> t.
Proof.
  intros Hf. unfold update_record. induction t as [|r t IH]; [reflexivity |].
  cbn [fmap list_fmap] in *. rewrite IH. f_equal.
  destruct (id r =? i); [apply Hf | reflexivity].
Qed.

Lemma keys_store_file (cfg : config) (msg : message) (t : table) (i : Z)
  (acts : list action) :
  record_key <$> records (store_file cfg msg t i acts) = record_key <$> t.
Proof.
  unfold store_file. destruct (negb (rename_ok msg)); [reflexivity |].
  cbn [records]. now apply keys_update.
Qed.

(** A turn of the loop over one message never removes a record and never
    changes the id or the hash of one, however it ends and whatever the
    mailbox holds: the keys of the table stay as they are, in their order,
    and at most one key is added, that of a new record with the next id and
    the hash the downloader takes for the message (the note [hash = ...] of
    the mail body when there is one, otherwise the digest of the saved
    PDF), and only when the table had no record of that hash. *)
Theorem download_keeps_keys (cfg : config) (inbox : list string) (msg : message)
  (t : table) :
  exists added,
    record_key <$> records (download_message cfg inbox msg t)
      = ((record_key <$> t) ++ added)%list /\
    (added = [] \/
     added = [(next_id t, file_hash_of msg)] /\
     file_hash_of msg = match hash_note msg with
                        | Some note => strip is_space note
                        | None => content_hash msg
                        end /\
     get_records t (file_hash_of msg) = []).
Proof.
  unfold download_message.
  destruct (saved msg); try (exists []; rewrite app_nil_r; auto; fail).
  destruct (_get_message_category msg (msg_categs cfg) (ctrl_categs cfg))
    as [[categ control]|e]; [|exists []; rewrite app_nil_r; auto].
  destruct (get_records t (file_hash_of msg)) as [|rec [|rec2 recs]] eqn:Hrecs.
  - exists [(next_id t, file_hash_of msg)]. split; [|right; auto].
    unfold create_record. rewrite keys_store_file, fmap_app. reflexivity.
  - exists []. rewrite app_nil_r. split; [|now left].
    set (t1 := update_record t (id rec) (set_subfolder (cust_folder cfg))).
    assert (H1 : record_key <$> t1 = record_key <$> t) by now apply keys_update.
    destruct (negb _ && _); [exact H1 |].
    set (t2 := if option_eqb control (Some "IGNORE_ALREADY_EXISTING")
               then update_record t1 (id rec) (set_control_category control)
               else t1).
    assert (H2 : record_key <$> t2 = record_key <$> t).
    { unfold t2. destruct (option_eqb _ _); [|exact H1].
      now rewrite keys_update. }
    destruct (get_message_category t2 (id rec)) as [prev|e]; [|exact H2].
    set (t3 := if negb (option_eqb prev categ)
               then update_record t2 (id rec) (set_message_category categ)
               else t2).
    assert (H3 : record_key <$> t3 = record_key <$> t).
    { unfold t3. destruct (negb (option_eqb prev categ)); [|exact H2].
      now rewrite keys_update. }
    set (t4 := if negb (String.eqb (doc_status rec) (registered cfg))
               then update_record t3 (id rec) (set_doc_status (registered cfg))
               else t3).
    assert (H4 : record_key <$> t4 = record_key <$> t).
    { unfold t4.
      destruct (negb (String.eqb (doc_status rec) (registered cfg))); [|exact H3].
      now rewrite keys_update. }
    assert (H5 : record_key <$> update_record t4 (id rec) (set_message_id (msg_id msg))
                 = record_key <$> t) by now rewrite keys_update.
    destruct (negb (String.eqb (message_id rec) (msg_id msg)));
      [|rewrite keys_store_file; exact H4].
    destruct (get_message inbox (message_id rec)); [|exact H5].
    rewrite keys_store_file. exact H5.
  - exists []. rewrite app_nil_r. auto.
Qed.

End MessageCategoryFacts.

(** ** Reading and changing the parameters of a case *)

Module DmsReadFacts.
Import PyStr Dms DmsRead.

Lemma reversed_field_map_sound (key r : string) :
  reversed_field_map !! key = Some r -> _field_map r = Some key.
Proof.
  unfold reversed_field_map, field_entries. cbn [fold_left]. intros H.
  repeat (apply lookup_insert_Some in H as [[<- <-] | [_ H]]; [reflexivity |]).
  exfalso. revert H. apply lookup_empty_Some.
Qed.

Lemma reversed_field_map_complete (key r : string) :
  _field_map r = Some key -> reversed_field_map !! key = Some r.
Proof.
  unfold _field_map.
  repeat match goal with
  | |- (if String.eqb ?x ?s then _ else _) = _ -> _ =>
      destruct (String.eqb_spec x s) as [-> | _];
        [intros H; injection H as <-; vm_compute; reflexivity |]
  end.
  intros H. discriminate H.
Qed.

(** No two parameters share an attribute of the ERP. *)
Lemma field_map_injective (r1 r2 a : string) :
  _field_map r1 = Some a -> _field_map r2 = Some a -> r1 = r2.
Proof.
  intros H1 H2. apply reversed_field_map_complete in H1, H2. congruence.
Qed.

Lemma last_value_snoc (a key val : string) (detail : list (string * string)) :
  last_value a (detail ++ [(key, val)])
  = if String.eqb key a then Some val else last_value a detail.
Proof.
  induction detail as [|[k v] detail IH]; cbn [last_value app].
  - reflexivity.
  - rewrite IH. destruct (String.eqb key a); reflexivity.
Qed.

(** [get_case_parameters] returns, under the name the application gives
    to a parameter, the value of the last record of the answer that
    carries the attribute of that parameter, stripped of surrounding white
    space; records with other attributes are left out, and a parameter
    without a record has no entry. *)
Theorem case_parameters_by_name (case_detail : list (string * string))
  (name : string) :
  get_case_parameters case_detail !! name =
  match _field_map name with
  | Some attr_id => strip is_space <$> last_value attr_id case_detail
  | None => None
  end.
Proof.
  unfold get_case_parameters.
  induction case_detail as [|[key val] detail IH] using rev_ind.
  - cbn. rewrite lookup_empty. now destruct (_field_map name).
  - rewrite fold_left_app. cbn [fold_left].
    destruct (reversed_field_map !! key) as [rev_key|] eqn:Hrev.
    + apply reversed_field_map_sound in Hrev.
      destruct (String.eqb_spec rev_key name) as [-> | Hne].
      * rewrite lookup_insert_eq, Hrev, last_value_snoc, String.eqb_refl.
        reflexivity.
      * rewrite lookup_insert_ne by exact Hne. rewrite IH.
        destruct (_field_map name) as [a|] eqn:Ha; [|reflexivity].
        rewrite last_value_snoc.
        destruct (String.eqb_spec key a) as [-> | _]; [|reflexivity].
        exfalso. apply Hne. exact (field_map_injective _ _ _ Hrev Ha).
    + rewrite IH. destruct (_field_map name) as [a|] eqn:Ha; [|reflexivity].
      rewrite last_value_snoc.
      destruct (String.eqb_spec key a) as [-> | _]; [|reflexivity].
      apply reversed_field_map_complete in Ha. congruence.
Qed.

(** *** The retry loop *)

Lemma change_attributes_locked (attempts k : nat) (attrs : list (string * kwval))
  (st : erp_state) (rest : list bool) :
  locks st = (repeat true k ++ false :: rest)%list -> (k < attempts)%nat ->
  change_attributes attempts attrs st
  = ({| case_attrs := store_attributes attrs (case_attrs st);
        locks := rest;
        trace := (trace st ++ [EvChange attrs])%list |}, true).
Proof.
  revert attempts st. induction k as [|k IH]; intros attempts st Hl Hk;
    (destruct attempts as [|n]; [lia |]); cbn [change_attributes].
  - rewrite Hl. reflexivity.
  - rewrite Hl. cbn [repeat app].
    exact (IH n {| case_attrs := case_attrs st;
                   locks := (repeat true k ++ false :: rest)%list;
                   trace := trace st |} eq_refl ltac:(lia)).
Qed.

Lemma change_attributes_exhausted (attempts : nat) (attrs : list (string * kwval))
  (st : erp_state) (rest : list bool) :
  locks st = (repeat true attempts ++ rest)%list ->
  change_attributes attempts attrs st
  = ({| case_attrs := case_attrs st; locks := rest; trace := trace st |}, false).
Proof.
  revert st. induction attempts as [|n IH]; intros st Hl; cbn [change_attributes].
  - destruct st as [a l t]. cbn in *. now subst.
  - rewrite Hl. cbn [repeat app]. now rewrite IH.
Qed.

(** A change of parameters that leaves the status alone goes through when
    the case is locked by a user fewer than 20 times in a row: the
    parameters with a value are written in one call, once.  After 20
    locked attempts it gives up with an error and nothing is written. *)
Theorem locked_case_is_retried (kwargs attrs : list (string * kwval))
  (st : erp_state) :
  root_cause_accepted kwargs = true ->
  kw_get kwargs "status" = None ->
  attribs_b_of kwargs false = Ok attrs ->
  (forall k rest, (k < 20)%nat ->
     locks st = (repeat true k ++ false :: rest)%list ->
     modify_case_params kwargs st
     = ({| case_attrs := store_attributes attrs (case_attrs st);
           locks := rest;
           trace := (trace st ++ [EvChange attrs])%list |}, Ok tt)) /\
  (forall rest,
     locks st = (repeat true 20 ++ rest)%list ->
     modify_case_params kwargs st
     = ({| case_attrs := case_attrs st; locks := rest; trace := trace st |},
        Raise (RuntimeError "Attempts to handle the 'CaseLockedError' failed!"))).
Proof.
  intros Hrc Hstatus Hb. unfold root_cause_accepted in Hrc.
  split; [intros k rest Hk Hl | intros rest Hl];
    unfold modify_case_params; rewrite Hrc, Hstatus, Hb; cbn [negb].
  - now rewrite (change_attributes_locked n_attempts k attrs st rest Hl Hk).
  - now rewrite (change_attributes_exhausted n_attempts attrs st rest Hl).
Qed.

Lemma locked_case_is_retried_witness :
  (forall k rest, (k < 20)%nat ->
     locks CreditSample.sample_case = (repeat true k ++ false :: rest)%list ->
     modify_case_params [("processor", KStr "PROC"); ("responsible", KNone)]
       CreditSample.sample_case
     = ({| case_attrs :=
             store_attributes [("PROCESSOR", KStr "PROC")]
               (case_attrs CreditSample.sample_case);
           locks := rest;
           trace := (trace CreditSample.sample_case
                     ++ [EvChange [("PROCESSOR", KStr "PROC")]])%list |}, Ok tt)) /\
  (forall rest,
     locks CreditSample.sample_case = (repeat true 20 ++ rest)%list ->
     modify_case_params [("processor", KStr "PROC"); ("responsible", KNone)]
       CreditSample.sample_case
     = ({| case_attrs := case_attrs CreditSample.sample_case; locks := rest;
           trace := trace CreditSample.sample_case |},
        Raise (RuntimeError "Attempts to handle the 'CaseLockedError' failed!"))).
Proof.
  exact (locked_case_is_retried [("processor", KStr "PROC"); ("responsible", KNone)]
           [("PROCESSOR", KStr "PROC")] CreditSample.sample_case
           eq_refl eq_refl eq_refl).
Defined.

(** *** The status of a case *)

Lemma attribs_b_no_status (kwargs attrs : list (string * kwval)) (b : bool) :
  attribs_b_of kwargs b = Ok attrs -> ~ In "STAT_ORDERNO" (fst <$> attrs).
Proof.
  revert attrs. induction kwargs as [|[key val] rest IH]; intros attrs H.
  - injection H as <-. intros [].
  - cbn [attribs_b_of] in H.
    destruct (String.eqb key "status") eqn:Hne; [now apply IH |].
    apply String.eqb_neq in Hne.
    destruct (String.eqb key "root_cause_code" && b); [now apply IH |].
    destruct val; [now apply IH | |];
      (destruct (_field_map key) as [a|] eqn:Ha; [|discriminate H]);
      (destruct (attribs_b_of rest b) as [bs|e]; [|discriminate H]);
      injection H as <-; cbn; intros [-> | Hin]; try (now apply (IH bs));
      apply Hne;
      exact (field_map_injective key "status" "STAT_ORDERNO" Ha eq_refl).
Qed.

Lemma attribs_b_no_root_cause (kwargs attrs : list (string * kwval)) :
  attribs_b_of kwargs true = Ok attrs -> ~ In "FIN_ROOT_CCODE" (fst <$> attrs).
Proof.
  revert attrs. induction kwargs as [|[key val] rest IH]; intros attrs H.
  - injection H as <-. intros [].
  - cbn [attribs_b_of] in H.
    destruct (String.eqb key "status"); [now apply IH |].
    destruct (String.eqb key "root_cause_code") eqn:Hne;
      cbn [andb] in H; [now apply IH |].
    apply String.eqb_neq in Hne.
    destruct val; [now apply IH | |];
      (destruct (_field_map key) as [a|] eqn:Ha; [|discriminate H]);
      (destruct (attribs_b_of rest true) as [bs|e]; [|discriminate H]);
      injection H as <-; cbn; intros [-> | Hin]; try (now apply (IH bs));
      apply Hne;
      exact (field_map_injective key "root_cause_code" "FIN_ROOT_CCODE" Ha eq_refl).
Qed.

Lemma change_attributes_unlocked (attrs : list (string * kwval)) (st : erp_state) :
  locks st = [] ->
  change_attributes n_attempts attrs st
  = ({| case_attrs := store_attributes attrs (case_attrs st);
        locks := [];
        trace := (trace st ++ [EvChange attrs])%list |}, true).
Proof.
  intros Hl. change n_attempts with (S 19). generalize 19%nat. intros k.
  cbn [change_attributes]. now rewrite Hl.
Qed.

Lemma raise_status_unlocked (steps : nat) (curr_status : Z) (root_cause : kwval)
  (st : erp_state) :
  locks st = [] ->
  exists st',
    raise_status steps curr_status root_cause st
    = (st', Ok (existsb (Z.eqb 2) (seqZ (curr_status + 1) (Z.of_nat steps)))) /\
    locks st' = [] /\
    trace st' = (trace st ++ (status_event root_cause
                              <$> seqZ (curr_status + 1) (Z.of_nat steps)))%list.
Proof.
  revert curr_status st. induction steps as [|k IH]; intros curr st Hl.
  - exists st. cbn. rewrite app_nil_r. auto.
  - cbn [raise_status]. rewrite change_attributes_unlocked by exact Hl.
    match goal with
    | |- context [raise_status k (curr + 1) root_cause ?s] =>
        destruct (IH (curr + 1) s eq_refl) as (st' & -> & Hl' & Ht')
    end.
    exists st'. rewrite Nat2Z.inj_succ.
    rewrite (seqZ_cons (curr + 1) (Z.succ (Z.of_nat k))) by lia.
    replace (Z.pred (Z.succ (Z.of_nat k))) with (Z.of_nat k) by lia.
    replace (Z.succ (curr + 1)) with (curr + 1 + 1) by lia.
    split; [|split; [exact Hl' |]].
    + cbn [existsb]. rewrite (Z.eqb_sym 2). reflexivity.
    + rewrite Ht'. cbn [trace fmap list_fmap]. rewrite <- app_assoc.
      f_equal. cbn [app]. f_equal. unfold status_event.
      destruct (curr + 1 =? 2); [|reflexivity]. now destruct root_cause.
Qed.

(** A change that sets the status to 2, 3 or 4 raises it one step at a
    time, each step in a call of its own; the call of the step to 2
    carries the root cause code, and the last call, with the other
    parameters, repeats neither the status nor the root cause code.  (The
    case is not locked.) *)
Theorem status_raised_step_by_step (kwargs attrs_b : list (string * kwval))
  (st : erp_state) (status : Z) (root_cause : kwval) :
  root_cause_accepted kwargs = true ->
  kw_get kwargs "status" = Some (KInt status) ->
  2 <= status <= 4 ->
  kw_get kwargs "root_cause_code" = Some root_cause ->
  attribs_b_of kwargs true = Ok attrs_b ->
  locks st = [] ->
  exists st',
    modify_case_params kwargs st = (st', Ok tt) /\
    trace st' = (trace st ++ status_events status root_cause
                 ++ [EvChange attrs_b])%list /\
    ~ In "STAT_ORDERNO" (fst <$> attrs_b) /\
    ~ In "FIN_ROOT_CCODE" (fst <$> attrs_b).
Proof.
  intros Hrc Hstatus Hrange Hroot Hb Hl. unfold root_cause_accepted in Hrc.
  unfold modify_case_params. rewrite Hrc, Hstatus. cbn [negb].
  replace ((1 <=? status) && (status <=? 4)) with true by lia.
  rewrite Hroot. rewrite bool_decide_eq_true_2 by eauto.
  cbn [negb andb default]. rewrite andb_false_r.
  change (id root_cause) with root_cause.
  destruct (raise_status_unlocked (Z.to_nat (status - 1)) 1 root_cause st Hl)
    as (st1 & -> & Hl1 & Ht1).
  rewrite Z2Nat.id in * by lia. change (1 + 1) with 2 in *.
  assert (Hupd : existsb (Z.eqb 2) (seqZ 2 (status - 1)) = true).
  { rewrite seqZ_cons by lia. cbn. reflexivity. }
  rewrite Hupd, Hb, (change_attributes_unlocked attrs_b st1 Hl1).
  eexists. split; [reflexivity |]. cbn [trace]. rewrite Ht1.
  split; [now rewrite <- app_assoc |].
  split; [exact (attribs_b_no_status _ _ _ Hb) | exact (attribs_b_no_root_cause _ _ Hb)].
Qed.

Lemma status_raised_step_by_step_witness :
  exists st',
    modify_case_params
      (creation_kwargs (KStr "COORD") (KStr "PROC") KNone (KStr "AB")
         (inject_Z 20) (inject_Z 50))
      {| case_attrs := ∅; locks := []; trace := [] |} = (st', Ok tt) /\
    trace st' =
      ([] ++ status_events 3 (KStr "L14")
       ++ [EvChange [("FIN_COORDINATOR", KStr "COORD"); ("PROCESSOR", KStr "PROC");
                     ("ZZ_STAT_AC", KStr "AB")]])%list /\
    ~ In "STAT_ORDERNO"
        (fst <$> [("FIN_COORDINATOR", KStr "COORD"); ("PROCESSOR", KStr "PROC");
                  ("ZZ_STAT_AC", KStr "AB")]) /\
    ~ In "FIN_ROOT_CCODE"
        (fst <$> [("FIN_COORDINATOR", KStr "COORD"); ("PROCESSOR", KStr "PROC");
                  ("ZZ_STAT_AC", KStr "AB")]).
Proof.
  apply (status_raised_step_by_step
           (creation_kwargs (KStr "COORD") (KStr "PROC") KNone (KStr "AB")
              (inject_Z 20) (inject_Z 50))
           [("FIN_COORDINATOR", KStr "COORD"); ("PROCESSOR", KStr "PROC");
            ("ZZ_STAT_AC", KStr "AB")]
           {| case_attrs := ∅; locks := []; trace := [] |} 3 (KStr "L14"));
    try reflexivity. lia.
Defined.

(** A case created for an amount below the threshold of the claim is
    closed at once: its status is raised to 2 with the root cause L14 and
    then to 3, before the other parameters are written.  For any other
    amount neither the status nor a root cause is written.  (The case is
    not locked.) *)
Theorem case_below_threshold_is_closed
  (coordinator processor responsible status_ac : kwval) (amount threshold : Q)
  (st : erp_state) :
  locks st = [] ->
  exists st',
    modify_case_params
      (creation_kwargs coordinator processor responsible status_ac amount threshold) st
    = (st', Ok tt) /\
    trace st' =
      (trace st
       ++ (if Qlt_bool amount threshold then status_events 3 (KStr "L14") else [])
       ++ [EvChange (with_value [("FIN_COORDINATOR", coordinator);
                                 ("PROCESSOR", processor);
                                 ("RESPONSIBLE", responsible);
                                 ("ZZ_STAT_AC", status_ac)])])%list.
Proof.
  intros Hl. unfold creation_kwargs.
  destruct (raise_status_unlocked 2 1 (KStr "L14") st Hl) as (st1 & Hr & Hl1 & Ht1).
  change (existsb (Z.eqb 2) (seqZ (1 + 1) (Z.of_nat 2))) with true in Hr.
  change (status_event (KStr "L14") <$> seqZ (1 + 1) (Z.of_nat 2))
    with (status_events 3 (KStr "L14")) in Ht1.
  destruct (Qlt_bool amount threshold);
    destruct coordinator, processor, responsible, status_ac;
    unfold modify_case_params;
    cbn -[raise_status change_attributes n_attempts status_events Z.to_nat];
    change (Z.to_nat (3 - 1)) with 2%nat; change (Z.to_nat (1 - 1)) with 0%nat;
    rewrite ?Hr; cbn -[change_attributes n_attempts status_events];
    rewrite ?(change_attributes_unlocked _ st1 Hl1),
            ?(change_attributes_unlocked _ st Hl);
    (eexists; split; [reflexivity |]); cbn [trace]; rewrite ?Ht1;
    rewrite <- ?app_assoc; reflexivity.
Qed.

Lemma case_below_threshold_is_closed_witness :
  exists st',
    modify_case_params
      (creation_kwargs (KStr "COORD") (KStr "PROC") KNone KNone
         (inject_Z 80) (inject_Z 50))
      {| case_attrs := ∅; locks := []; trace := [] |}
    = (st', Ok tt) /\
    trace st' =
      ([] ++ (if Qlt_bool (inject_Z 80) (inject_Z 50)
              then status_events 3 (KStr "L14") else [])
       ++ [EvChange (with_value [("FIN_COORDINATOR", KStr "COORD");
                                 ("PROCESSOR", KStr "PROC");
                                 ("RESPONSIBLE", KNone);
                                 ("ZZ_STAT_AC", KNone)])])%list.
Proof.
  exact (case_below_threshold_is_closed (KStr "COORD") (KStr "PROC") KNone KNone
           (inject_Z 80) (inject_Z 50)
           {| case_attrs := ∅; locks := []; trace := [] |} eq_refl).
Defined.

End DmsReadFacts.

(** ** Accounting documents and processing rules *)

Module AccountingFacts.
Import PyStr Compiler AccountingSamples.

(** The sales documents a search starts from. *)
Lemma get_accounting_docs_records (erp : Va03.Erp) (sales_docs : list Z)
  (recs : list Va03.accdoc) :
  Va03._get_accounting_docs erp sales_docs = Ok recs ->
  Va03.sales_document <$> recs = sales_docs /\
  forall r, In r recs ->
    head (Va03.vbfa_subsequent erp (Va03.sales_document r) "M") = Some (Va03.invoice r) /\
    head (Va03.vbfa_subsequent erp (Va03.sales_document r) "J") = Some (Va03.delivery r) /\
    head (Va03.vbak_sold_to erp (Va03.sales_document r)) = Some (Va03.account r).
Proof.
  revert recs. induction sales_docs as [|sd rest IH]; intros recs H.
  - injection H as <-. split; [reflexivity | intros r []].
  - cbn [Va03._get_accounting_docs] in H.
    destruct (head (Va03.vbak_sold_to erp sd)) as [a|] eqn:Ha; [|discriminate H].
    destruct (head (Va03.vbfa_subsequent erp sd "M")) as [i|] eqn:Hi,
             (head (Va03.vbfa_subsequent erp sd "J")) as [d|] eqn:Hd;
      try discriminate H.
    destruct (Va03._get_accounting_docs erp rest) as [rs|e]; [|discriminate H].
    injection H as <-. destruct (IH rs eq_refl) as [Hsd Hall].
    split; [cbn; now rewrite Hsd |].
    intros r [<- | Hr]; [cbn; auto | now apply Hall].
Qed.

Lemma find_accounting_documents_records (erp : Va03.Erp) (doc : Va03.document)
  (acc : option Z) (recs : list Va03.accdoc) :
  Va03.find_accounting_documents erp doc acc = Ok recs ->
  recs <> [] /\
  Va03.sales_document <$> recs = remove_dups (sales_documents_found erp doc acc) /\
  forall r, In r recs ->
    head (Va03.vbfa_subsequent erp (Va03.sales_document r) "M") = Some (Va03.invoice r) /\
    head (Va03.vbfa_subsequent erp (Va03.sales_document r) "J") = Some (Va03.delivery r) /\
    head (Va03.vbak_sold_to erp (Va03.sales_document r)) = Some (Va03.account r).
Proof.
  unfold Va03.find_accounting_documents. fold (sales_documents_found erp doc acc).
  intros H.
  match type of H with
  | match ?m with Some e => _ | None => _ end = _ =>
      destruct m; [discriminate H |]
  end.
  destruct (Va03._get_accounting_docs erp
              (remove_dups (sales_documents_found erp doc acc))) as [rs|e] eqn:Hrs;
    [|discriminate H].
  cbn in H. destruct rs as [|r rs]; [discriminate H |]. injection H as <-.
  split; [discriminate |]. exact (get_accounting_docs_records _ _ _ Hrs).
Qed.

(** A successful search returns one record for every distinct sales
    document of the first query, and at least one; each record holds the
    first invoice and the first delivery that follow its sales document
    and the customer the document was sold to. *)
Theorem accounting_records_follow_sales_documents (erp : Va03.Erp)
  (doc : Va03.document) (acc : option Z) (recs : list Va03.accdoc) :
  Va03.find_accounting_documents erp doc acc = Ok recs ->
  recs <> [] /\
  NoDup (Va03.sales_document <$> recs) /\
  (forall sd, In sd (Va03.sales_document <$> recs)
              <-> In sd (sales_documents_found erp doc acc)) /\
  forall r, In r recs ->
    head (Va03.vbfa_subsequent erp (Va03.sales_document r) "M") = Some (Va03.invoice r) /\
    head (Va03.vbfa_subsequent erp (Va03.sales_document r) "J") = Some (Va03.delivery r) /\
    head (Va03.vbak_sold_to erp (Va03.sales_document r)) = Some (Va03.account r).
Proof.
  intros H. destruct (find_accounting_documents_records _ _ _ _ H) as (Hne & Hsd & Hall).
  split; [exact Hne |]. split; [rewrite Hsd; apply NoDup_remove_dups |].
  split; [|exact Hall].
  intros sd. rewrite Hsd, <- !list_elem_of_In. apply elem_of_remove_dups.
Qed.

Lemma accounting_records_follow_sales_documents_witness :
  [ {| Va03.sales_document := 200000001; Va03.invoice := 900000001;
       Va03.delivery := 310000001; Va03.account := 1000001 |} ] <> [] /\
  NoDup (Va03.sales_document <$>
           [ {| Va03.sales_document := 200000001; Va03.invoice := 900000001;
                Va03.delivery := 310000001; Va03.account := 1000001 |} ]) /\
  (forall sd,
     In sd (Va03.sales_document <$>
              [ {| Va03.sales_document := 200000001; Va03.invoice := 900000001;
                   Va03.delivery := 310000001; Va03.account := 1000001 |} ])
     <-> In sd (sales_documents_found AccountingSamples.erp_delivered
                  (Va03.PurchaseOrder 12345) None)) /\
  forall r,
    In r [ {| Va03.sales_document := 200000001; Va03.invoice := 900000001;
              Va03.delivery := 310000001; Va03.account := 1000001 |} ] ->
    head (Va03.vbfa_subsequent AccountingSamples.erp_delivered
            (Va03.sales_document r) "M") = Some (Va03.invoice r) /\
    head (Va03.vbfa_subsequent AccountingSamples.erp_delivered
            (Va03.sales_document r) "J") = Some (Va03.delivery r) /\
    head (Va03.vbak_sold_to AccountingSamples.erp_delivered
            (Va03.sales_document r)) = Some (Va03.account r).
Proof.
  exact (accounting_records_follow_sales_documents AccountingSamples.erp_delivered
           (Va03.PurchaseOrder 12345) None _ eq_refl).
Defined.

(** Without a customer account as filter, the numbers the compiler draws
    from a purchase order are those of a single sales document: one
    invoice number and one delivery number. *)
Theorem order_without_account_has_one_document (erp : Va03.Erp)
  (claim_create data : gmap string cval) (invs dels : list cval)
  (log : list log_entry) :
  dict_get data "invoice_number" = None ->
  dict_get data "delivery_number" = None ->
  _get_accounting_docs erp claim_create data None = Ok (Some invs, Some dels, log) ->
  exists i d, invs = [CInt i] /\ dels = [CInt d].
Proof.
  intros Hi Hd. unfold _get_accounting_docs. rewrite Hi, Hd.
  destruct (claim_create !! "reference_from") as [rf|]; [|discriminate].
  destruct (negb _); [discriminate |].
  match goal with
  | |- (let '(po_num, log1) := ?p in _) = _ -> _ => destruct p as [po log1]
  end.
  destruct (negb (dict_has data "purchase_order_number")); [discriminate |].
  destruct (Va03.make_PurchaseOrder (default CNone po)) as [doc|e]; cbn [mbind result_bind].
  - destruct (Va03.find_accounting_documents erp doc None) as [recs|e] eqn:Hf.
    + destruct (find_accounting_documents_records _ _ _ _ Hf) as (Hne & _).
      rewrite bool_decide_eq_true_2 by reflexivity. cbn [andb].
      destruct recs as [|r [|r2 recs]]; [congruence | | discriminate].
      cbn. intros [= <- <- _]. eauto.
    + destruct (_ || _); discriminate.
  - destruct (_ || _); discriminate.
Qed.

Lemma order_without_account_has_one_document_witness :
  exists i d, [CInt 900000001] = [CInt i] /\ [CInt 310000001] = [CInt d].
Proof.
  exact (order_without_account_has_one_document AccountingSamples.erp_delivered
           ReferenceOrder.rule_reference_from_po ReferenceOrder.data_po_only
           [CInt 900000001] [CInt 310000001] [] eq_refl eq_refl eq_refl).
Defined.

(** *** The rule of a document *)

Lemma matching_rules_split (data : DocData) (rules : list rule) (r : rule) :
  matching_rules data rules = Ok [r] ->
  exists pre post,
    rules = (pre ++ r :: post)%list /\
    rule_matches data r = Ok true /\
    forall r', In r' (pre ++ post)%list -> rule_matches data r' = Ok false.
Proof.
  assert (Hnone : forall l, matching_rules data l = Ok [] ->
            forall r', In r' l -> rule_matches data r' = Ok false).
  { induction l as [|x l IH]; intros H r' Hin; [destruct Hin |].
    cbn [matching_rules] in H.
    destruct (rule_matches data x) as [b|e] eqn:Hx; [|discriminate H].
    destruct (matching_rules data l) as [ms|e]; [|discriminate H].
    cbn in H. destruct b; [discriminate H |]. injection H as ->.
    destruct Hin as [<- | Hin]; [exact Hx | now apply IH]. }
  induction rules as [|x rules IH]; intros H; [discriminate H |].
  cbn [matching_rules] in H.
  destruct (rule_matches data x) as [b|e] eqn:Hx; [|discriminate H].
  destruct (matching_rules data rules) as [ms|e] eqn:Hms; [|discriminate H].
  cbn in H. destruct b.
  - injection H as -> ->. exists [], rules. split; [reflexivity |].
    split; [exact Hx |]. exact (Hnone rules Hms).
  - injection H as ->. destruct (IH eq_refl) as (pre & post & -> & Hr & Hothers).
    exists (x :: pre), post. split; [reflexivity |]. split; [exact Hr |].
    intros r' [<- | Hin]; [exact Hx | now apply Hothers].
Qed.

(** The rule [_assign_rules] returns is a rule of the issuer of the
    document that matches it (same template and, for a debit note, a
    category of the rule), and no other rule of the issuer matches: with
    no match or with several the compilation stops. *)
Theorem assigned_rule_is_the_only_match (data : DocData)
  (rules_map : gmap string (list rule)) (r : rule) :
  _assign_rules data rules_map = Ok r ->
  exists rules pre post,
    rules_map !! issuer data = Some rules /\
    rules = (pre ++ r :: post)%list /\
    rule_matches data r = Ok true /\
    forall r', In r' (pre ++ post)%list -> rule_matches data r' = Ok false.
Proof.
  unfold _assign_rules. intros H.
  destruct (rules_map !! issuer data) as [rules|]; [|discriminate H].
  destruct (matching_rules data rules) as [[|m [|m2 ms]]|e] eqn:Hm;
    try discriminate H.
  cbn in H. injection H as ->.
  destruct (matching_rules_split _ _ _ Hm) as (pre & post & Hr).
  exists rules, pre, post. split; [reflexivity | exact Hr].
Qed.

Lemma assigned_rule_is_the_only_match_witness :
  exists rules pre post,
    ReferenceOrder.sample_rules !! issuer (init_data ReferenceOrder.sample_data)
      = Some rules /\
    rules = (pre ++ ReferenceOrder.sample_rule :: post)%list /\
    rule_matches (init_data ReferenceOrder.sample_data) ReferenceOrder.sample_rule
      = Ok true /\
    forall r', In r' (pre ++ post)%list ->
      rule_matches (init_data ReferenceOrder.sample_data) r' = Ok false.
Proof.
  apply (assigned_rule_is_the_only_match (init_data ReferenceOrder.sample_data)
           ReferenceOrder.sample_rules ReferenceOrder.sample_rule).
  vm_compute. reflexivity.
Defined.

End AccountingFacts.

(** ** Document numbers (storage/sap/__init__.py) *)

Module DocumentNumberFacts.
Import PyStr PyStrFacts NumberFormat NumbersFacts.

(** *** The number of digits of an integer *)

Lemma width_lower (n : Z) : 0 <= n -> 10 ^ (Z.of_nat (width n) - 1) <= Z.max n 1.
Proof. intros Hn. exact (FilesFacts.width_fuel_lower _ n Hn). Qed.

Lemma width_pos (n : Z) : (1 <= width n)%nat.
Proof. apply width_fuel_pos. Qed.

Lemma width_le (n : Z) (b : nat) :
  0 <= n -> (1 <= b)%nat -> (width n <= b)%nat <-> n < 10 ^ Z.of_nat b.
Proof.
  intros Hn Hb. pose proof (width_bound n Hn) as Hu.
  pose proof (width_lower n Hn) as Hl. pose proof (width_pos n) as Hw. split.
  - intros H.
    assert (10 ^ Z.of_nat (width n) <= 10 ^ Z.of_nat b)
      by (apply Z.pow_le_mono_r; lia). lia.
  - intros H. destruct (Nat.le_gt_cases (width n) b) as [? | Hgt]; [assumption | exfalso].
    assert (10 ^ Z.of_nat b <= 10 ^ (Z.of_nat (width n) - 1))
      by (apply Z.pow_le_mono_r; lia).
    assert (10 ^ 1 <= 10 ^ Z.of_nat b) by (apply Z.pow_le_mono_r; lia).
    change (10 ^ 1) with 10 in *. lia.
Qed.

Lemma width_ge (n : Z) (a : nat) :
  0 <= n -> (2 <= a)%nat -> (a <= width n)%nat <-> 10 ^ (Z.of_nat a - 1) <= n.
Proof.
  intros Hn Ha. pose proof (width_bound n Hn) as Hu.
  pose proof (width_lower n Hn) as Hl. pose proof (width_pos n) as Hw.
  assert (10 ^ 1 <= 10 ^ (Z.of_nat a - 1)) by (apply Z.pow_le_mono_r; lia).
  change (10 ^ 1) with 10 in *. split.
  - intros H'.
    assert (10 ^ (Z.of_nat a - 1) <= 10 ^ (Z.of_nat (width n) - 1))
      by (apply Z.pow_le_mono_r; lia). lia.
  - intros H'. destruct (Nat.le_gt_cases a (width n)) as [? | Hlt]; [assumption | exfalso].
    assert (10 ^ Z.of_nat (width n) <= 10 ^ (Z.of_nat a - 1))
      by (apply Z.pow_le_mono_r; lia). lia.
Qed.

(** [len(str(v))] lies between [a] and [b]. *)
Lemma length_str_of_int (v : Z) (a b : nat) :
  (3 <= a)%nat -> (a <= b)%nat ->
  (a <=? String.length (str_of_int v))%nat && (String.length (str_of_int v) <=? b)%nat
    = true
  <-> 10 ^ (Z.of_nat a - 1) <= v < 10 ^ Z.of_nat b
      \/ 10 ^ (Z.of_nat a - 2) <= - v < 10 ^ (Z.of_nat b - 1).
Proof.
  intros Ha Hab. rewrite andb_true_iff, Nat.leb_le, Nat.leb_le.
  unfold str_of_int. destruct (Z.ltb_spec v 0) as [Hneg | Hpos].
  - rewrite append_cons, append_nil_l. cbn [String.length].
    unfold digits. rewrite digits_w_length.
    pose proof (width_le (- v) (b - 1) ltac:(lia) ltac:(lia)) as Hle.
    pose proof (width_ge (- v) (a - 1) ltac:(lia) ltac:(lia)) as Hge.
    replace (Z.of_nat (b - 1)) with (Z.of_nat b - 1) in Hle by lia.
    replace (Z.of_nat (a - 1) - 1) with (Z.of_nat a - 2) in Hge by lia.
    assert (0 < 10 ^ (Z.of_nat a - 1)) by (apply Z.pow_pos_nonneg; lia).
    split.
    + intros [H1 H2]. right. split; [apply Hge | apply Hle]; lia.
    + intros [[H1 _] | [H1 H2]]; [lia |].
      apply Hge in H1. apply Hle in H2. lia.
  - unfold digits. rewrite digits_w_length.
    pose proof (width_le v b Hpos ltac:(lia)) as Hle.
    pose proof (width_ge v a Hpos ltac:(lia)) as Hge.
    assert (0 < 10 ^ (Z.of_nat a - 2)) by (apply Z.pow_pos_nonneg; lia).
    split.
    + intros [H1 H2]. left. split; [apply Hge | apply Hle]; lia.
    + intros [[H1 H2] | [H1 _]]; [|lia].
      apply Hge in H1. apply Hle in H2. lia.
Qed.

Lemma digit_char_eqb (j k : Z) :
  0 <= j < 10 -> 0 <= k < 10 -> Ascii.eqb (digit_char j) (digit_char k) = (j =? k).
Proof.
  intros Hj Hk. destruct (Z.eqb_spec j k) as [-> | Hne].
  - apply Ascii.eqb_refl.
  - apply Ascii.eqb_neq. intros E. apply Hne.
    rewrite <- (digit_val_char j Hj), <- (digit_val_char k Hk). now rewrite E.
Qed.

(** The first two characters of a number of nine digits. *)
Lemma startswith_31 (v : Z) :
  100000000 <= v <= 999999999 ->
  startswith "31" (digits_w 9 v) = true <-> 310000000 <= v <= 319999999.
Proof.
  intros Hv. cbn [digits_w].
  rewrite !append_assoc, !append_cons, !append_nil_l.
  cbn [startswith].
  change "3"%char with (digit_char 3). change "1"%char with (digit_char 1).
  rewrite (digit_char_eqb 3 _ ltac:(lia) (mod10_bound _)).
  rewrite (digit_char_eqb 1 _ ltac:(lia) (mod10_bound _)).
  rewrite andb_true_r, andb_true_iff, !Z.eqb_eq.
  Z.to_euclidean_division_equations. lia.
Qed.

Lemma length_nine (v : Z) :
  (String.length (str_of_int v) =? 9)%nat = true
  <-> 100000000 <= v <= 999999999 \/ -99999999 <= v <= -10000000.
Proof.
  pose proof (length_str_of_int v 9 9 ltac:(lia) ltac:(lia)) as H9.
  change (10 ^ (Z.of_nat 9 - 1)) with 100000000 in H9.
  change (10 ^ Z.of_nat 9) with 1000000000 in H9.
  change (10 ^ (Z.of_nat 9 - 2)) with 10000000 in H9.
  rewrite andb_true_iff, !Nat.leb_le in H9. rewrite Nat.eqb_eq. lia.
Qed.

Lemma make_Invoice_accepts (v : Z) :
  Va03.make_Invoice (CInt v) = Ok (Va03.Invoice v)
  <-> 100000000 <= v <= 999999999 \/ -99999999 <= v <= -10000000.
Proof.
  rewrite <- length_nine. unfold Va03.make_Invoice.
  destruct (String.length (str_of_int v) =? 9)%nat; cbn [negb].
  - split; reflexivity.
  - split; discriminate.
Qed.

Lemma make_Delivery_accepts (v : Z) :
  Va03.make_Delivery (CInt v) = Ok (Va03.Delivery v)
  <-> 310000000 <= v <= 319999999.
Proof.
  pose proof (length_nine v) as Hlen9. unfold Va03.make_Delivery.
  destruct (String.length (str_of_int v) =? 9)%nat eqn:E9; cbn [andb negb].
  - destruct (proj1 Hlen9 eq_refl) as [Hpos | Hneg].
    + assert (Hs : str_of_int v = digits_w 9 v).
      { apply Nat.eqb_eq in E9. unfold str_of_int in E9 |- *.
        destruct (Z.ltb_spec v 0); [lia |].
        unfold digits in *. rewrite digits_w_length in E9. now rewrite E9. }
      rewrite Hs. pose proof (startswith_31 v ltac:(lia)) as H31.
      destruct (startswith "31" (digits_w 9 v)); cbn [negb].
      * split; [intros _; now apply H31 | reflexivity].
      * split; [discriminate |]. intros H. apply H31 in H. discriminate.
    + unfold str_of_int. destruct (Z.ltb_spec v 0); [|lia].
      rewrite append_cons. cbn [startswith Ascii.eqb Bool.eqb andb negb].
      split; [discriminate | lia].
  - split; [discriminate |]. intros H.
    assert (false = true) by (apply Hlen9; lia). discriminate.
Qed.

Lemma make_PurchaseOrder_accepts (v : Z) :
  Va03.make_PurchaseOrder (CInt v) = Ok (Va03.PurchaseOrder v)
  <-> 10000 <= v <= 9999999 \/ -999999 <= v <= -1000.
Proof.
  pose proof (length_str_of_int v 5 7 ltac:(lia) ltac:(lia)) as H57.
  change (10 ^ (Z.of_nat 5 - 1)) with 10000 in H57.
  change (10 ^ Z.of_nat 7) with 10000000 in H57.
  change (10 ^ (Z.of_nat 5 - 2)) with 1000 in H57.
  change (10 ^ (Z.of_nat 7 - 1)) with 1000000 in H57.
  unfold Va03.make_PurchaseOrder. cbv zeta.
  match goal with
  | |- context [negb ?b] => destruct b; cbn [negb]
  end.
  - split; [intros _ | reflexivity]. destruct (proj1 H57 eq_refl); lia.
  - split; [discriminate |]. intros H.
    assert (false = true) by (apply H57; lia). discriminate.
Qed.

(** The three document classes accept exactly these integers: an invoice
    number has nine digits, or eight digits after a minus sign; a delivery
    number has nine digits of which the first two are 31; a purchase order
    number has five to seven digits, or four to six after a minus sign. *)
Theorem document_number_ranges (v : Z) :
  (Va03.make_Invoice (CInt v) = Ok (Va03.Invoice v)
     <-> 100000000 <= v <= 999999999 \/ -99999999 <= v <= -10000000) /\
  (Va03.make_Delivery (CInt v) = Ok (Va03.Delivery v)
     <-> 310000000 <= v <= 319999999) /\
  (Va03.make_PurchaseOrder (CInt v) = Ok (Va03.PurchaseOrder v)
     <-> 10000 <= v <= 9999999 \/ -999999 <= v <= -1000).
Proof.
  split; [apply make_Invoice_accepts |].
  split; [apply make_Delivery_accepts | apply make_PurchaseOrder_accepts].
Qed.

(** *** From a validated string to a document *)

Lemma digit_val_bound (c : ascii) : is_digit c = true -> 0 <= digit_val c <= 9.
Proof.
  unfold is_digit, digit_val. rewrite andb_true_iff, !N.leb_le. lia.
Qed.

Lemma digit_val_nonzero (c : ascii) :
  is_digit c = true -> Ascii.eqb "0" c = false -> 1 <= digit_val c.
Proof.
  intros Hd Hz. pose proof (digit_val_bound c Hd) as Hb.
  destruct (Z.eq_dec (digit_val c) 0) as [E | ?]; [exfalso | lia].
  apply Ascii.eqb_neq in Hz. apply Hz.
  unfold digit_val in E.
  assert (HN : N_of_ascii c = 48%N) by lia.
  rewrite <- (ascii_N_embedding c), HN. reflexivity.
Qed.

Lemma int_of_digits_from_shift (acc : Z) (s : string) :
  all_chars is_digit s = true ->
  int_of_digits_from acc s = acc * 10 ^ Z.of_nat (String.length s) + int_of_digits s /\
  0 <= int_of_digits s < 10 ^ Z.of_nat (String.length s).
Proof.
  unfold int_of_digits. revert acc. induction s as [|c s IH]; intros acc Hs.
  - cbn. lia.
  - cbn [all_chars] in Hs. apply andb_prop in Hs as [Hc Hs].
    pose proof (digit_val_bound c Hc) as Hb.
    cbn [int_of_digits_from String.length]. rewrite Nat2Z.inj_succ, Z.pow_succ_r by lia.
    destruct (IH (10 * acc + digit_val c) Hs) as [E1 B].
    destruct (IH (10 * 0 + digit_val c) Hs) as [E2 _].
    rewrite E1, E2. split; [lia |]. nia.
Qed.

Lemma int_of_digits_range (s : string) :
  isnumeric s = true -> startswith "0" s = false ->
  10 ^ (Z.of_nat (String.length s) - 1) <= int_of_digits s
    < 10 ^ Z.of_nat (String.length s).
Proof.
  destruct s as [|c s]; [discriminate |]. intros Hs Hz.
  cbn [isnumeric] in Hs.
  destruct (int_of_digits_from_shift 0 (String c s) Hs) as [_ Hb].
  split; [|apply Hb].
  cbn [all_chars] in Hs. apply andb_prop in Hs as [Hc Hs].
  cbn [startswith] in Hz. rewrite andb_true_r in Hz.
  pose proof (digit_val_nonzero c Hc Hz) as Hnz.
  unfold int_of_digits. cbn [int_of_digits_from String.length].
  destruct (int_of_digits_from_shift (10 * 0 + digit_val c) s Hs) as [E B].
  rewrite E. replace (Z.of_nat (S (String.length s)) - 1)
    with (Z.of_nat (String.length s)) by lia.
  assert (0 < 10 ^ Z.of_nat (String.length s)) by (apply Z.pow_pos_nonneg; lia).
  nia.
Qed.

(** The parser on a string of digits. *)
Lemma parse_number_digits (s : string) :
  isnumeric s = true ->
  Numbers.parse_number (AStr s) Numbers.CoerceInt Numbers.ErrRaise
  = Ok (ANum (NInt (int_of_digits s))).
Proof.
  intros Hn.
  assert (Hne : s <> "") by (destruct s; [discriminate | discriminate]).
  assert (Hs : all_chars is_digit s = true) by (destruct s; [discriminate | exact Hn]).
  unfold Numbers.parse_number.
  rewrite (replace_char_remove " " s), (remove_char_digits " " s eq_refl Hs).
  assert (Hstrip : strip (Ascii.eqb "-") s = s).
  { unfold strip.
    assert (Hl : lstrip (Ascii.eqb "-") s = s).
    { destruct s as [|c s']; [reflexivity |]. apply lstrip_outside.
      cbn [all_chars] in Hs. apply andb_prop in Hs as [Hc _].
      exact (digit_not_char "-" c eq_refl Hc). }
    rewrite Hl. apply rstrip_ends_outside.
    apply ends_outside_digits; [|exact Hne | exact Hs].
    intros c Hc. exact (digit_not_char "-" c eq_refl Hc). }
  rewrite Hstrip.
  rewrite (any_char_all_false (fun c => negb (is_digit c)) s).
  2:{ eapply all_chars_impl; [|exact Hs]. intros c Hc. now rewrite Hc. }
  rewrite !replace_char_remove.
  rewrite (remove_char_digits "." s eq_refl Hs), (remove_char_digits "," s eq_refl Hs).
  rewrite Hn. cbn [negb].
  unfold contains_char. rewrite (digits_no_minus s Hs). reflexivity.
Qed.

(** An invoice or purchase order number made of ASCII characters that
    passes the validation of the extractor is parsed to an integer which
    the document class of the ERP module accepts.  (Beyond ASCII
    [str.isnumeric] accepts more than the digits 0 to 9, and such a number
    can pass the validation without being one the classes accept.) *)
Theorem validated_number_is_a_document (fld num : string) :
  fld = "invoice_number" \/ fld = "purchase_order_number" ->
  PyAscii.isascii num = true ->
  Extraction.valid_numbering fld (MStr num) = Ok tt ->
  exists v,
    Numbers.parse_number (AStr num) Numbers.CoerceInt Numbers.ErrRaise
      = Ok (ANum (NInt v)) /\
    if String.eqb fld "invoice_number"
    then Va03.make_Invoice (CInt v) = Ok (Va03.Invoice v)
    else Va03.make_PurchaseOrder (CInt v) = Ok (Va03.PurchaseOrder v).
Proof.
  intros [-> | ->] _ H;
    cbn [Extraction.valid_numbering String.eqb Ascii.eqb Bool.eqb] in H |- *.
  - destruct (isnumeric num) eqn:Hn; [|discriminate H].
    destruct (startswith "0" num) eqn:Hz; [discriminate H |].
    destruct (String.length num =? 9)%nat eqn:Hl; [|discriminate H].
    apply Nat.eqb_eq in Hl.
    exists (int_of_digits num). split; [exact (parse_number_digits num Hn) |].
    apply make_Invoice_accepts.
    pose proof (int_of_digits_range num Hn Hz) as Hr. rewrite Hl in Hr.
    change (10 ^ (Z.of_nat 9 - 1)) with 100000000 in Hr.
    change (10 ^ Z.of_nat 9) with 1000000000 in Hr. lia.
  - destruct (isnumeric num) eqn:Hn; [|discriminate H].
    destruct (startswith "0" num) eqn:Hz; [discriminate H |].
    destruct (Extraction.len_between 5 7 num) eqn:Hl; [|discriminate H].
    unfold Extraction.len_between in Hl. apply andb_prop in Hl as [H5 H7].
    apply Nat.leb_le in H5, H7.
    exists (int_of_digits num). split; [exact (parse_number_digits num Hn) |].
    apply make_PurchaseOrder_accepts.
    pose proof (int_of_digits_range num Hn Hz) as Hr.
    assert (10 ^ (5 - 1) <= 10 ^ (Z.of_nat (String.length num) - 1))
      by (apply Z.pow_le_mono_r; lia).
    assert (10 ^ Z.of_nat (String.length num) <= 10 ^ 7)
      by (apply Z.pow_le_mono_r; lia).
    change (10 ^ (5 - 1)) with 10000 in *. change (10 ^ 7) with 10000000 in *. lia.
Qed.

Lemma validated_number_is_a_document_witness :
  exists v,
    Numbers.parse_number (AStr "900000001") Numbers.CoerceInt Numbers.ErrRaise
      = Ok (ANum (NInt v)) /\
    if String.eqb "invoice_number" "invoice_number"
    then Va03.make_Invoice (CInt v) = Ok (Va03.Invoice v)
    else Va03.make_PurchaseOrder (CInt v) = Ok (Va03.PurchaseOrder v).
Proof.
  exact (validated_number_is_a_document "invoice_number" "900000001"
           (or_introl eq_refl) eq_refl eq_refl).
Defined.

End DocumentNumberFacts.

(** ** Fields with a single value and accepted line items *)

Module FieldFacts.
Import PyStr Numbers PyNum Items Extraction ExtractionFacts.

(** *** What the parsers raise *)

Lemma parse_number_not_pattern_error (v : atom) (c : coerce_t) (errors : errors_t) :
  parse_number v c errors <> Raise PatternMatchError.
Proof.
  unfold parse_number, on_error.
  destruct v as [| n | s | l]; try (destruct errors; discriminate).
  destruct (negb (isnumeric _)); [destruct errors; discriminate | discriminate].
Qed.

Lemma parse_numbers_not_pattern_error (l : list atom) (c : coerce_t) :
  parse_numbers l c <> Raise PatternMatchError.
Proof.
  unfold parse_numbers. induction l as [|v l IH]; [discriminate |].
  cbn [mapM]. pose proof (parse_number_not_pattern_error v c ErrRaise) as Hv.
  destruct (parse_number v c ErrRaise) as [a|e]; cbn; [|congruence].
  destruct (mapM _ l) as [k|e]; cbn; [discriminate | exact IH].
Qed.

Lemma validate_numbering_not_pattern_error (vals : list rmatch) (fld : string) :
  _validate_numbering vals fld <> Raise PatternMatchError.
Proof.
  induction vals as [|v vals IH]; [discriminate |].
  cbn [_validate_numbering].
  assert (Hv : valid_numbering fld v <> Raise PatternMatchError).
  { unfold valid_numbering. destruct v; [|discriminate].
    repeat match goal with
    | |- (if ?c then _ else _) <> _ => destruct c
    end; discriminate. }
  destruct (valid_numbering fld v) as [[]|e]; cbn; [exact IH | congruence].
Qed.

Section Unique.
Context {rt : Runtime}.

(** A field that takes a single value is ambiguous exactly when the
    pattern that matched found two or more different values: the same
    value found several times is one value, and no other failure of such
    a field is reported as a pattern mismatch. *)
Theorem unique_field_is_ambiguous_iff (tmpl : Template) (text : string)
  (out : output) (fld : string) (regex : list string) :
  str_in fld _unique_value_fields = true ->
  field_step tmpl text out fld regex = Raise PatternMatchError
  <-> (1 < length (remove_dups (first_matches text regex)))%nat.
Proof.
  intros Hu.
  assert (Hitems : String.eqb fld "items" = false).
  { destruct (String.eqb_spec fld "items") as [-> | ?]; [discriminate Hu | reflexivity]. }
  unfold field_step, _match_patterns. rewrite Hitems. cbn [negb].
  rewrite <- (Permutation_length (set_list_perm (first_matches text regex))).
  destruct (set_list (first_matches text regex)) as [|first others] eqn:Hl.
  - cbn [length]. split; [|lia].
    destruct (str_in fld (optional_fields tmpl)); discriminate.
  - rewrite Hu, andb_true_r.
    destruct (Nat.ltb_spec 1 (length (first :: others))) as [Hlt | Hge].
    + split; [intros _; exact Hlt | reflexivity].
    + split; [|lia]. intros H. exfalso. revert H.
      pose proof (parse_number_not_pattern_error (atom_of first)) as Hp.
      pose proof (parse_numbers_not_pattern_error) as Hps.
      pose proof (validate_numbering_not_pattern_error (first :: others) fld) as Hvn.
      unfold str_in, _unique_value_fields in Hu. cbn [existsb] in Hu.
      repeat match type of Hu with
      | (String.eqb ?a ?b || _) = true =>
          destruct (String.eqb_spec a b) as [-> | _]; cbn [orb] in Hu
      | false = true => discriminate Hu
      end;
      cbv [classify str_in existsb String.eqb Ascii.eqb Bool.eqb orb];
      repeat match goal with
      | |- (?m ≫= _) = _ -> False =>
          let E := fresh "E" in
          destruct m as [?|?] eqn:E; cbn [mbind result_bind];
          [| intros [= ->];
             first [ congruence | exact (Hp _ _ E) | exact (Hps _ _ E) | exact (Hvn E)
                   | revert E; unfold _validate_number;
                     repeat match goal with
                     | |- context [match ?x with _ => _ end] => destruct x
                     end; discriminate ] ]
      | |- match ?x with _ => _ end = _ -> False => destruct x
      | |- (if ?c then _ else _) = _ -> False => destruct c
      | |- _ = _ -> False => discriminate
      end.
Qed.

End Unique.

Lemma unique_field_is_ambiguous_iff_witness :
  field_step (rt := scripted [("nr (\d+)", [MStr "4711"; MStr "4712"; MStr "4711"])])
    ExtractionSamples.obi_penalty "nr 4711 nr 4712 nr 4711" ∅
    "document_number" ["nr (\d+)"] = Raise PatternMatchError
  <-> (1 < length (remove_dups
             (first_matches
                (rt := scripted [("nr (\d+)", [MStr "4711"; MStr "4712"; MStr "4711"])])
                "nr 4711 nr 4712 nr 4711" ["nr (\d+)"])))%nat.
Proof.
  exact (unique_field_is_ambiguous_iff
           (rt := scripted [("nr (\d+)", [MStr "4711"; MStr "4712"; MStr "4711"])])
           ExtractionSamples.obi_penalty "nr 4711 nr 4712 nr 4711" ∅
           "document_number" ["nr (\d+)"] eq_refl).
Defined.

(** *** Accepted line items *)

Ltac loop_step H :=
  repeat match type of H with
  | (?m ≫= _) = Ok _ =>
      let a := fresh "a" in let E := fresh "E" in
      destruct m as [a|?] eqn:E; [cbn [mbind result_bind] in H | discriminate H];
      try destruct a as [[? ?] ?]
  | (if ?c then _ else _) = Ok _ => destruct c; try discriminate H
  | (let '(_, _) := ?p in _) = Ok _ => destruct p
  end.

Lemma markant_loop_length (items : list rmatch) (res res' : rows) (d c d' c' : num) :
  Markant.loop items res d c = Ok (res', d', c') ->
  length res' = (length res + length items)%nat.
Proof.
  revert res d c. induction items as [|item items IH]; intros res d c H.
  - injection H as <- _ _. cbn. lia.
  - cbn [Markant.loop] in H.
    destruct (Markant.parse_item item) as [[[row dd] cd]|e]; [|discriminate H].
    cbn [mbind result_bind] in H. apply IH in H.
    rewrite H, length_app. cbn. lia.
Qed.

Lemma delivery_loop_length (items : list rmatch) (res res' : rows) (x x' : num) :
  Obi.delivery_loop items res x = Ok (res', x') ->
  length res' = (length res + length items)%nat.
Proof.
  revert res x. induction items as [|item items IH]; intros res x H.
  - injection H as <- _. cbn. lia.
  - cbn [Obi.delivery_loop] in H. loop_step H. apply IH in H.
    rewrite H, length_app. cbn. lia.
Qed.

Lemma return_loop_length (items : list rmatch) (res res' : rows) (x x' : num) :
  Obi.return_loop items res x = Ok (res', x') ->
  length res' = (length res + length items)%nat.
Proof.
  revert res x. induction items as [|item items IH]; intros res x H.
  - injection H as <- _. cbn. lia.
  - cbn [Obi.return_loop] in H. loop_step H. apply IH in H.
    rewrite H, length_app. cbn. lia.
Qed.

Lemma penalty_loop_length (items : list rmatch) (res res' : rows) (x x' : num) :
  Obi.penalty_loop items res x = Ok (res', x', false) ->
  length res' = (length res + length items)%nat.
Proof.
  revert res x. induction items as [|item items IH]; intros res x H.
  - injection H as <- _. cbn. lia.
  - cbn [Obi.penalty_loop] in H. loop_step H. apply IH in H.
    rewrite H, length_app. cbn. lia.
Qed.

Lemma roller_loop_length (items : list rmatch) (res res' : rows) (x x' : num) :
  Roller.loop items res x = Ok (res', x') ->
  length res' = (length res + length items)%nat.
Proof.
  revert res x. induction items as [|item items IH]; intros res x H.
  - injection H as <- _. cbn. lia.
  - cbn [Roller.loop] in H. loop_step H. apply IH in H.
    rewrite H, length_app. cbn. lia.
Qed.

Lemma toom_loop_length (items : list rmatch) (res res' : rows) (x x' : num) :
  Toom.loop items res x = Ok (res', x') ->
  length res' = (length res + length items)%nat.
Proof.
  revert res x. induction items as [|item items IH]; intros res x H.
  - injection H as <- _. cbn. lia.
  - cbn [Toom.loop] in H. loop_step H. apply IH in H.
    rewrite H, length_app. cbn. lia.
Qed.

Lemma hornbach_loop_length (items : list rmatch) (res res' : rows) (x x' : num) :
  Hornbach.loop items res x = Ok (res', x') ->
  length res' = (length res + length items)%nat.
Proof.
  revert res x. induction items as [|item items IH]; intros res x H.
  - injection H as <- _. cbn. lia.
  - cbn [Hornbach.loop] in H. loop_step H. apply IH in H.
    rewrite H, length_app. cbn. lia.
Qed.

(** When a reconciler accepts the line items it returns one row for every
    matched line and writes nothing to the logs. *)
Theorem accepted_items_one_row_per_line (p : parser_t) (items : list rmatch)
  (amount : num) (rs : rows) (lg : list log_entry) :
  parse_items p items amount = Ok (Some rs, lg) ->
  lg = [] /\ length rs = length items.
Proof.
  unfold parse_items, Markant._parse_debit, Obi._parse_delivery,
    Obi._parse_penalty, Obi._parse_return, Roller._parse_return,
    Toom._parse_return, Hornbach._parse_delivery_price.
  intros H. destruct p; try discriminate H;
  repeat match type of H with
  | (if ?c then _ else _) = _ =>
      match c with
      | context [amount] => fail 1
      | _ => destruct c; try discriminate H
      end
  end;
  match type of H with
  | (?m ≫= _) = _ =>
      let E := fresh "E" in
      destruct m as [[a b]|?] eqn:E; [cbn [mbind result_bind] in H | discriminate H];
      try destruct a as [a a']
  end;
  repeat match type of H with
  | (if ?c then _ else _) = _ => destruct c; try discriminate H
  end;
  injection H as <- <-; (split; [reflexivity |]);
  first [ apply markant_loop_length in E | apply delivery_loop_length in E
        | apply return_loop_length in E | apply penalty_loop_length in E
        | apply roller_loop_length in E | apply toom_loop_length in E
        | apply hornbach_loop_length in E ];
  exact E.
Qed.

Lemma accepted_items_one_row_per_line_witness :
  @nil log_entry = [] /\
  length [[ANum (NFloat (200 # 100)); ANum (NInt 123456); ANum (NFloat (10000 # 100))];
          [ANum (NFloat (2500 # 100)); ANum (NInt 123457); ANum (NFloat (10000 # 100))]]
  = length [MTup ["2,00"; "123456"; "100,00"]; MTup ["25,00"; "123457"; "100,00"]].
Proof.
  apply (accepted_items_one_row_per_line (ObiParser "161001DE001")
           [MTup ["2,00"; "123456"; "100,00"]; MTup ["25,00"; "123457"; "100,00"]]
           (NFloat (2700 # 100))).
  vm_compute. reflexivity.
Defined.

(** *** The total of a Roller return *)

Lemma roller_loop_last (items : list rmatch) (item : rmatch) (res res' : rows)
  (x x' : num) :
  Roller.loop (items ++ [item]) res x = Ok (res', x') ->
  exists i1 i3 net tax,
    item_get item 1 = Ok i1 /\ parse_num i1 CoerceFloat = Ok net /\
    item_get item 3 = Ok i3 /\ parse_num i3 CoerceFloat = Ok tax /\
    x' = num_add net tax.
Proof.
  revert res x. induction items as [|it items IH]; intros res x H.
  - cbn [app Roller.loop] in H. loop_step H. injection H as _ <-.
    eauto 10.
  - change ((it :: items) ++ [item])%list with (it :: (items ++ [item]))%list in H.
    cbn [Roller.loop] in H. loop_step H. exact (IH _ _ H).
Qed.

(** The reconciler of Roller returns compares the document total with the
    last line only: when it accepts the items, the net amount and the tax
    of the last line, added and rounded to two places, are the total. *)
Theorem roller_total_is_last_line (items : list rmatch) (item : rmatch)
  (amount : num) (rs : rows) (lg : list log_entry) :
  Roller._parse_return (items ++ [item]) amount = Ok (Some rs, lg) ->
  exists i1 i3 net tax,
    item_get item 1 = Ok i1 /\ parse_num i1 CoerceFloat = Ok net /\
    item_get item 3 = Ok i3 /\ parse_num i3 CoerceFloat = Ok tax /\
    num_eqb (round2 (num_add net tax)) amount = true.
Proof.
  unfold Roller._parse_return. intros H.
  destruct (Roller.loop (items ++ [item]) [] (NInt 0)) as [[res total]|e] eqn:E;
    [cbn [mbind result_bind] in H | discriminate H].
  destruct (num_eqb (round2 total) amount) eqn:Heq; [|discriminate H].
  destruct (roller_loop_last _ _ _ _ _ _ E) as (i1 & i3 & net & tax & H1 & H2 & H3 & H4 & ->).
  exists i1, i3, net, tax. auto.
Qed.

Lemma roller_total_is_last_line_witness :
  exists i1 i3 net tax,
    item_get (MTup ["1"; "10,00"; "19,00"; "1,90"; "11,90"]) 1 = Ok i1 /\
    parse_num i1 CoerceFloat = Ok net /\
    item_get (MTup ["1"; "10,00"; "19,00"; "1,90"; "11,90"]) 3 = Ok i3 /\
    parse_num i3 CoerceFloat = Ok tax /\
    num_eqb (round2 (num_add net tax)) (NFloat (1190 # 100)) = true.
Proof.
  apply (roller_total_is_last_line
           [MTup ["3"; "200,00"; "19,00"; "38,00"; "238,00"]]
           (MTup ["1"; "10,00"; "19,00"; "1,90"; "11,90"])
           (NFloat (1190 # 100))
           [[ANum (NInt 3); ANum (NFloat (20000 # 100)); ANum (NFloat (1900 # 100));
             ANum (NFloat (23800 # 100))];
            [ANum (NInt 1); ANum (NFloat (1000 # 100)); ANum (NFloat (1900 # 100));
             ANum (NFloat (1190 # 100))]] []).
  vm_compute. reflexivity.
Defined.

(** An error of a reconciler does not depend on the document total: the
    penalty reconciler of OBI on a line whose amount is zero divides by it,
    whatever the total. *)
Lemma reconciler_error_witness :
  parse_items (ObiParser "161001DE001") [MTup ["5,00"; "4500123456"; "0,00"]]
    (NFloat (500 # 100))
  = Raise ZeroDivisionError.
Proof.
  exact (parse_items_error_not_from_total (ObiParser "161001DE001")
           [MTup ["5,00"; "4500123456"; "0,00"]]
           (NInt 0) (NFloat (500 # 100)) ZeroDivisionError eq_refl).
Defined.

End FieldFacts.

(** ** Document categories *)

Module CategorizerFacts.
Import PyStr Numbers PyNum Items Extraction Categorizers ExtractionFacts.

Ltac bind_step H :=
  repeat match type of H with
  | (?m ≫= _) = Ok _ =>
      let a := fresh "a" in let E := fresh "E" in
      destruct m as [a|?] eqn:E; [cbn [mbind result_bind] in H | discriminate H];
      try destruct a as [[? ?] ?]
  | (if ?c then _ else _) = Ok _ => destruct c; try discriminate H
  end.

(** *** The rows of the reconcilers *)

Lemma hornbach_loop_rows (items : list rmatch) (res res' : rows) (x x' : num) :
  Hornbach.loop items res x = Ok (res', x') ->
  Forall (numeric_row 7) res -> Forall (numeric_row 7) res'.
Proof.
  revert res x. induction items as [|item items IH]; intros res x H Hres.
  - injection H as <- _. exact Hres.
  - cbn [Hornbach.loop] in H. bind_step H.
    apply IH in H; [exact H |].
    apply Forall_app. split; [exact Hres |]. constructor; [|constructor].
    eexists _, [_; _; _; _; _; _; _]. split; reflexivity.
Qed.

Lemma markant_loop_rows (items : list rmatch) (res res' : rows) (d c d' c' : num) :
  Markant.loop items res d c = Ok (res', d', c') ->
  Forall (numeric_row 4) res -> Forall (numeric_row 4) res'.
Proof.
  revert res d c. induction items as [|item items IH]; intros res d c H Hres.
  - injection H as <- _ _. exact Hres.
  - cbn [Markant.loop] in H.
    destruct (Markant.parse_item item) as [[[row dd] cd]|e] eqn:E; [|discriminate H].
    cbn [mbind result_bind] in H. apply IH in H; [exact H |].
    apply Forall_app. split; [exact Hres |]. constructor; [|constructor].
    unfold Markant.parse_item in E. bind_step E. injection E as <- _ _.
    eexists _, [_; _; _; _]. split; reflexivity.
Qed.

(** *** The categorisers on rows of numbers *)

Lemma rechnungskuerzung_numeric (rs : rows) (price_diff pieces_diff : num) :
  Forall (numeric_row 7) rs ->
  (exists p q, rechnungskuerzung_loop (IRow <$> rs) price_diff pieces_diff = Ok (p, q))
  \/ rechnungskuerzung_loop (IRow <$> rs) price_diff pieces_diff
     = Raise (ValueError msg_count_exceeds).
Proof.
  intros Hrs. revert price_diff pieces_diff.
  induction Hrs as [|row rs Hrow _ IH]; intros price_diff pieces_diff.
  - left. cbn. eauto.
  - destruct Hrow as (a & cells & -> & Hlen).
    destruct cells as [|c1 [|c2 [|c3 [|c4 [|c5 [|c6 [|c7 [|]]]]]]]]; try discriminate Hlen.
    cbn [fmap list_fmap rechnungskuerzung_loop item_cell nth_error mbind result_bind
         atom_lt as_num].
    destruct (negb (num_leb c3 c2)); [apply IH |].
    cbn [atom_eqb]. destruct (num_eqb c2 c3); [apply IH | now right].
Qed.

Lemma bgl_dp_numeric (rs : rows) (price_diff pieces_diff : num) :
  Forall (numeric_row 4) rs ->
  (exists p q, bgl_dp_loop (IRow <$> rs) price_diff pieces_diff = Ok (p, q))
  \/ bgl_dp_loop (IRow <$> rs) price_diff pieces_diff
     = Raise (ValueError msg_count_exceeds).
Proof.
  intros Hrs. revert price_diff pieces_diff.
  induction Hrs as [|row rs Hrow _ IH]; intros price_diff pieces_diff.
  - left. cbn. eauto.
  - destruct Hrow as (a & cells & -> & Hlen).
    destruct cells as [|c1 [|c2 [|c3 [|c4 [|]]]]]; try discriminate Hlen.
    cbn [fmap list_fmap bgl_dp_loop item_cell nth_error mbind result_bind
         atom_lt as_num].
    destruct (negb (num_leb c2 c1)); [apply IH |].
    cbn [atom_eqb]. destruct (num_eqb c1 c2); [apply IH | now right].
Qed.

(** The categoriser of Hornbach reads the rows the reconciler of Hornbach
    wrote: on the accepted items of a document it finds every cell it
    indexes and only numbers in them, so that the category is price or
    delivery, or the document is refused because a line has more pieces
    with the customer than were sent. *)
Theorem hornbach_rows_are_categorized (items : list rmatch) (amount : num)
  (rs : rows) (lg : list log_entry) (data : output) :
  Hornbach._parse_delivery_price items amount = Ok (Some rs, lg) ->
  data !! "items" = Some (VRows rs) ->
  _categorize_rechnungskuerzung data = Ok "price"
  \/ _categorize_rechnungskuerzung data = Ok "delivery"
  \/ _categorize_rechnungskuerzung data = Raise (ValueError msg_count_exceeds).
Proof.
  intros H Hitems. unfold Hornbach._parse_delivery_price in H.
  destruct (Hornbach.loop items [] (NInt 0)) as [[res total]|e] eqn:E;
    [cbn [mbind result_bind] in H | discriminate H].
  destruct (negb (isclose total amount)); [discriminate H |].
  injection H as -> _.
  pose proof (hornbach_loop_rows _ _ _ _ _ E (List.Forall_nil _)) as Hrows.
  unfold _categorize_rechnungskuerzung. rewrite Hitems. cbn [iter_items mbind result_bind].
  destruct (rechnungskuerzung_numeric rs (NInt 0) (NInt 0) Hrows) as [(p & q & ->) | ->];
    cbn [mbind result_bind]; [|auto].
  destruct (negb (num_leb p q)); auto.
Qed.

Lemma hornbach_rows_are_categorized_witness :
  _categorize_rechnungskuerzung
    {[ "items" := VRows [[ANum (NInt 12345); ANum (NInt 310000001);
                          ANum (NInt 4); ANum (NInt 5);
                          ANum (NFloat (1000 # 100)); ANum (NFloat (1000 # 100));
                          ANum (NFloat (1000 # 100)); ANum (NFloat (1900 # 100))]] ]}
    = Ok "price"
  \/ _categorize_rechnungskuerzung
    {[ "items" := VRows [[ANum (NInt 12345); ANum (NInt 310000001);
                          ANum (NInt 4); ANum (NInt 5);
                          ANum (NFloat (1000 # 100)); ANum (NFloat (1000 # 100));
                          ANum (NFloat (1000 # 100)); ANum (NFloat (1900 # 100))]] ]}
    = Ok "delivery"
  \/ _categorize_rechnungskuerzung
    {[ "items" := VRows [[ANum (NInt 12345); ANum (NInt 310000001);
                          ANum (NInt 4); ANum (NInt 5);
                          ANum (NFloat (1000 # 100)); ANum (NFloat (1000 # 100));
                          ANum (NFloat (1000 # 100)); ANum (NFloat (1900 # 100))]] ]}
    = Raise (ValueError msg_count_exceeds).
Proof.
  apply (hornbach_rows_are_categorized
           [MTup ["12345"; "310000001"; "4"; "5"; "10,00"; "10,00"; "10,00"; "19,00"]]
           (NFloat (1190 # 100))
           [[ANum (NInt 12345); ANum (NInt 310000001); ANum (NInt 4); ANum (NInt 5);
             ANum (NFloat (1000 # 100)); ANum (NFloat (1000 # 100));
             ANum (NFloat (1000 # 100)); ANum (NFloat (1900 # 100))]] []).
  - vm_compute. reflexivity.
  - vm_compute. reflexivity.
Defined.

(** The categoriser of the Markant BGL and DP debit notes reads the rows
    the reconciler of Markant wrote: on the accepted items of a document
    the category is price or delivery, or the document is refused because
    a line has more pieces ordered than delivered. *)
Theorem markant_rows_are_categorized (items : list rmatch) (amount : num)
  (rs : rows) (lg : list log_entry) (data : output) :
  Markant._parse_debit items amount = Ok (Some rs, lg) ->
  data !! "items" = Some (VRows rs) ->
  _categorize_bgl_dp_debitnote data = Ok "price"
  \/ _categorize_bgl_dp_debitnote data = Ok "delivery"
  \/ _categorize_bgl_dp_debitnote data = Raise (ValueError msg_count_exceeds).
Proof.
  intros H Hitems. unfold Markant._parse_debit in H.
  destruct (Markant.loop items [] (NInt 0) (NInt 0)) as [[[res d] c]|e] eqn:E;
    [cbn [mbind result_bind] in H | discriminate H].
  match type of H with
  | (if ?b then _ else _) = _ => destruct b; [discriminate H |]
  end.
  injection H as -> _.
  pose proof (markant_loop_rows _ _ _ _ _ _ _ E (List.Forall_nil _)) as Hrows.
  unfold _categorize_bgl_dp_debitnote. rewrite Hitems. cbn [iter_items mbind result_bind].
  destruct (bgl_dp_numeric rs (NInt 0) (NInt 0) Hrows) as [(p & q & ->) | ->];
    cbn [mbind result_bind]; [|auto].
  destruct (negb (num_leb p q)); auto.
Qed.

Lemma markant_rows_are_categorized_witness :
  _categorize_bgl_dp_debitnote
    {[ "items" := VRows [[ANum (NFloat (500 # 100)); ANum (NInt 10); ANum (NInt 10);
                          ANum (NFloat (20000 # 10000));
                          ANum (NFloat (25000 # 10000))]] ]}
    = Ok "price"
  \/ _categorize_bgl_dp_debitnote
    {[ "items" := VRows [[ANum (NFloat (500 # 100)); ANum (NInt 10); ANum (NInt 10);
                          ANum (NFloat (20000 # 10000));
                          ANum (NFloat (25000 # 10000))]] ]}
    = Ok "delivery"
  \/ _categorize_bgl_dp_debitnote
    {[ "items" := VRows [[ANum (NFloat (500 # 100)); ANum (NInt 10); ANum (NInt 10);
                          ANum (NFloat (20000 # 10000));
                          ANum (NFloat (25000 # 10000))]] ]}
    = Raise (ValueError msg_count_exceeds).
Proof.
  apply (markant_rows_are_categorized
           [MTup ["5,00"; "10,000"; "10,000"; "2,0000"; "2,5000"]]
           (NFloat (500 # 100))
           [[ANum (NFloat (500 # 100)); ANum (NInt 10); ANum (NInt 10);
             ANum (NFloat (20000 # 10000)); ANum (NFloat (25000 # 10000))]] []).
  - vm_compute. reflexivity.
  - vm_compute. reflexivity.
Defined.

(** *** The category of a debit note *)

Lemma categ_in_declares (c : string) (l : list atom) :
  existsb (atom_eqb (AStr c)) l = true -> In (AStr c) l.
Proof.
  intros H. apply existsb_exists in H as (a & Ha & Heq).
  destruct a as [| n | s | t]; try discriminate Heq.
  cbn in Heq. apply String.eqb_eq in Heq. now subst.
Qed.

(** The category [_identify_category] gives to a debit note, whether the
    user applied it to the message or a categoriser found it, is one the
    template of the document declares. *)
Theorem identified_category_is_declared
  (documents : string -> option (output -> attempt string))
  (msg_categ : option string) (data : output) (c : string) :
  _identify_category documents msg_categ data = Done (Some c) ->
  exists declared, data !! "category" = Some declared /\ declares declared c.
Proof.
  unfold _identify_category. intros H.
  destruct (data !! "kind") as [kind|] eqn:Hk; [|discriminate H].
  destruct (negb (is_str_value kind "debit" || is_str_value kind "credit"));
    [discriminate H |].
  destruct (is_str_value kind "credit"); [discriminate H |].
  destruct (data !! "category") as [declared|] eqn:Hc; [|discriminate H].
  exists declared. split; [reflexivity |].
  destruct msg_categ as [m|]; cbn [fmap option_fmap option_map] in H.
  - destruct declared as [[| n | s | t] | l | rs]; try discriminate H;
      cbn [categ_in lift_result mbind attempt_bind] in H.
    + cbn [existsb atom_eqb] in H. rewrite orb_false_r in H.
      destruct (String.eqb_spec (lower (rename_category m)) s) as [E | ?];
        [|discriminate H].
      cbn in H. injection H as <-. exact E.
    + destruct (existsb _ l) eqn:E; [|discriminate H].
      cbn in H. injection H as <-. exact (categ_in_declares _ _ E).
  - destruct declared as [[| n | s | t] | l | rs]; try discriminate H.
    + injection H as <-. reflexivity.
    + unfold categorize in H. rewrite Hc, Hk in H.
      repeat match type of H with
      | (if ?b then _ else _) ≫= _ = _ => destruct b; [discriminate H |]
      | (match ?x with _ => _ end) ≫= _ = _ => destruct x; try discriminate H
      end.
      cbn [default] in H.
      match type of H with
      | (?m ≫= _) ≫= _ = _ => destruct m as [categ|e]; [|discriminate H]
      end.
      cbn [mbind attempt_bind categ_in lift_result id] in H.
      destruct (existsb _ l) eqn:E; [|discriminate H].
      cbn in H. injection H as <-. exact (categ_in_declares _ _ E).
    + unfold categorize in H. rewrite Hc, Hk in H.
      repeat match type of H with
      | (if ?b then _ else _) ≫= _ = _ => destruct b; [discriminate H |]
      | (match ?x with _ => _ end) ≫= _ = _ => destruct x; try discriminate H
      end.
      cbn [default] in H.
      match type of H with
      | (?m ≫= _) ≫= _ = _ => destruct m as [categ|e]; [|discriminate H]
      end.
      discriminate H.
Qed.

Lemma identified_category_is_declared_witness :
  exists declared,
    (<["category" := VList [AStr "penalty_delay"; AStr "penalty_general"]]>
       (<["kind" := VAtom (AStr "debit")]> (∅ : output))) !! "category" = Some declared /\
    declares declared "penalty_general".
Proof.
  apply (identified_category_is_declared (fun _ => None) (Some "PENALTY")).
  vm_compute. reflexivity.
Defined.

End CategorizerFacts.

(** ** The claim manager *)

Module CreatorFacts.
Import PyStr Compiler Creator CreatorSamples.

(** *** The notification of a new case *)

Lemma fold_min_spec (l : list Z) (x : Z) :
  (fold_left Z.min l x = x \/ In (fold_left Z.min l x) l) /\
  fold_left Z.min l x <= x /\
  forall y, In y l -> fold_left Z.min l x <= y.
Proof.
  revert x. induction l as [|a l IH]; intros x.
  - cbn. split; [now left |]. split; [lia | intros y []].
  - cbn [fold_left]. destruct (IH (Z.min x a)) as (Hin & Hle & Hall).
    split; [|split].
    + destruct Hin as [E | Hin]; [|right; now right].
      rewrite E. destruct (Z.min_spec x a) as [[_ ->] | [_ ->]];
        [now left | right; now left].
    + lia.
    + intros y [<- | Hy]; [lia | now apply Hall].
Qed.

Lemma list_min_spec (l : list Z) (m : Z) :
  list_min l = Ok m -> In m l /\ forall y, In y l -> m <= y.
Proof.
  destruct l as [|x l]; [discriminate |]. intros [= <-].
  destruct (fold_min_spec l x) as (Hin & Hle & Hall). split.
  - destruct Hin as [-> | Hin]; [now left | now right].
  - intros y [<- | Hy]; [exact Hle | now apply Hall].
Qed.

Lemma fold_max_spec (l : list Z) (x : Z) :
  (fold_left Z.max l x = x \/ In (fold_left Z.max l x) l) /\
  x <= fold_left Z.max l x /\
  forall y, In y l -> y <= fold_left Z.max l x.
Proof.
  revert x. induction l as [|a l IH]; intros x.
  - cbn. split; [now left |]. split; [lia | intros y []].
  - cbn [fold_left]. destruct (IH (Z.max x a)) as (Hin & Hle & Hall).
    split; [|split].
    + destruct Hin as [E | Hin]; [|right; now right].
      rewrite E. destruct (Z.max_spec x a) as [[_ ->] | [_ ->]];
        [right; now left | now left].
    + lia.
    + intros y [<- | Hy]; [lia | now apply Hall].
Qed.

Lemma list_max_spec (l : list Z) (m : Z) :
  list_max l = Ok m -> In m l /\ forall y, In y l -> y <= m.
Proof.
  destruct l as [|x l]; [discriminate |]. intros [= <-].
  destruct (fold_max_spec l x) as (Hin & Hle & Hall). split.
  - destruct Hin as [-> | Hin]; [now left | now right].
  - intros y [<- | Hy]; [exact Hle | now apply Hall].
Qed.

Lemma list_remove_spec (x : Z) (l : list Z) :
  In x l -> List.NoDup l ->
  exists rest,
    list_remove x l = Ok rest /\ List.NoDup rest /\
    length l = S (length rest) /\
    forall y, In y rest <-> In y l /\ y <> x.
Proof.
  induction l as [|a l IH]; intros Hin Hnd; [destruct Hin |].
  inversion Hnd as [|? ? Ha Hnd']; subst. cbn [list_remove].
  destruct (Z.eqb_spec x a) as [-> | Hne].
  - exists l. split; [reflexivity |]. split; [exact Hnd' |]. split; [reflexivity |].
    intros y. split.
    + intros Hy. split; [now right |]. intros ->. contradiction.
    + intros [[<- | Hy] Hne]; [congruence | exact Hy].
  - destruct Hin as [-> | Hin]; [congruence |].
    destruct (IH Hin Hnd') as (rest & -> & Hnd2 & Hlen & Hiff).
    exists (a :: rest). split; [reflexivity |]. split; [|split].
    + constructor; [|exact Hnd2]. intros Hc. apply Hiff in Hc as [Hc _]. contradiction.
    + cbn. now rewrite Hlen.
    + intros y. cbn. rewrite Hiff. split.
      * intros [<- | [Hy Hn]]; [split; [now left | congruence] | split; [now right | exact Hn]].
      * intros [[<- | Hy] Hn]; [now left | right; now split].
Qed.

(** The loop: the notification found is live, and every notification the
    loop passed over is flagged for deletion. *)
Lemma add_case_loop_spec (add_case : Z -> attempt (Z * string)) (fuel : nat)
  (notif_id : Z) (notifs : list Z) (n : Z) (case : Z * string) :
  List.NoDup notifs -> In notif_id notifs ->
  add_case_loop add_case fuel notif_id notifs = Done (n, case) ->
  In n notifs /\ add_case n = Done case /\
  (n = notif_id \/
   add_case notif_id = Failed NotificationDeletedError /\
   forall y, In y notifs -> y < n -> add_case y = Failed NotificationDeletedError).
Proof.
  revert notif_id notifs. induction fuel as [|k IH]; intros notif_id notifs Hnd Hin H;
    cbn [add_case_loop] in H;
    destruct (add_case notif_id) as [c|e] eqn:Ha;
    try (injection H as <- <-; split; [exact Hin | split; [exact Ha | now left]]);
    destruct e; try discriminate H;
    destruct (list_remove_spec notif_id notifs Hin Hnd) as (rest & Hr & Hnd2 & Hlen & Hiff);
    rewrite Hr in H; cbn [lift_result mbind attempt_bind] in H;
    destruct (list_min rest) as [next|e] eqn:Hm; try discriminate H;
    cbn [lift_result mbind attempt_bind] in H.
  destruct (list_min_spec rest next Hm) as [Hnext Hleast].
  destruct (IH next rest Hnd2 Hnext H) as (Hn & Hok & Hcase).
  split; [now apply Hiff in Hn |]. split; [exact Hok |]. right.
  split; [reflexivity |]. intros y Hy Hlt.
  destruct (Z.eq_dec y notif_id) as [-> | Hne]; [exact Ha |].
  assert (Hyr : In y rest) by (apply Hiff; now split).
  destruct Hcase as [-> | [Hdel Hall]].
  - specialize (Hleast y Hyr). lia.
  - now apply Hall.
Qed.

(** The loop does not run out of turns: with as many turns as there are
    notifications it never ends on a notification flagged for deletion. *)
Lemma add_case_loop_fuel (add_case : Z -> attempt (Z * string)) (fuel : nat)
  (notif_id : Z) (notifs : list Z) :
  List.NoDup notifs -> In notif_id notifs -> (length notifs <= S fuel)%nat ->
  add_case_loop add_case fuel notif_id notifs <> Failed NotificationDeletedError.
Proof.
  revert notif_id notifs. induction fuel as [|k IH]; intros notif_id notifs Hnd Hin Hlen;
    cbn [add_case_loop];
    destruct (add_case notif_id) as [c|e] eqn:Ha; try discriminate;
    destruct e; try discriminate;
    destruct (list_remove_spec notif_id notifs Hin Hnd) as (rest & Hr & Hnd2 & Hl & Hiff);
    rewrite Hr; cbn [lift_result mbind attempt_bind];
    destruct (list_min rest) as [next|e] eqn:Hm; cbn [lift_result mbind attempt_bind];
    try discriminate.
  - destruct rest; [discriminate Hm | cbn in Hl; lia].
  - destruct (list_min_spec rest next Hm) as [Hnext _].
    apply IH; [exact Hnd2 | exact Hnext | lia].
Qed.

(** A case is added to a notification of the list that is not flagged for
    deletion.  Under "first" it is the oldest such notification: every
    older one is flagged.  Under "last" it is the latest notification, or,
    when that one is flagged, the oldest of the others that is not. *)
Theorem case_is_added_to_live_notification
  (add_case : Z -> attempt (Z * string)) (duplicates : string)
  (notifs : list Z) (n : Z) (case : Z * string) :
  List.NoDup notifs ->
  select_notification add_case duplicates notifs = Done (n, case) ->
  In n notifs /\ add_case n = Done case /\
  (duplicates = "first" \/ duplicates = "last") /\
  (duplicates = "first" ->
     forall y, In y notifs -> y < n -> add_case y = Failed NotificationDeletedError) /\
  (duplicates = "last" ->
     (forall y, In y notifs -> y <= n) \/
     (forall y, In y notifs -> y < n -> add_case y = Failed NotificationDeletedError) /\
     exists m, In m notifs /\ (forall y, In y notifs -> y <= m) /\
               add_case m = Failed NotificationDeletedError).
Proof.
  intros Hnd H.
  unfold select_notification, initial_notification in H.
  destruct (String.eqb_spec duplicates "first") as [-> | Hnf].
  - destruct (list_min notifs) as [m|e] eqn:Hm; [|discriminate H].
    cbn [lift_result mbind attempt_bind] in H.
    destruct (list_min_spec notifs m Hm) as [Hin Hleast].
    destruct (add_case_loop_spec _ _ _ _ _ _ Hnd Hin H) as (Hn & Hok & Hcase).
    split; [exact Hn |]. split; [exact Hok |]. split; [now left |].
    split; [|discriminate].
    intros _ y Hy Hlt. destruct Hcase as [-> | [_ Hall]]; [|now apply Hall].
    specialize (Hleast y Hy). lia.
  - destruct (String.eqb_spec duplicates "last") as [-> | Hnl].
    + destruct (list_max notifs) as [m|e] eqn:Hm; [|discriminate H].
      cbn [lift_result mbind attempt_bind] in H.
      destruct (list_max_spec notifs m Hm) as [Hin Hmost].
      destruct (add_case_loop_spec _ _ _ _ _ _ Hnd Hin H) as (Hn & Hok & Hcase).
      split; [exact Hn |]. split; [exact Hok |]. split; [now right |].
      split; [discriminate |].
      intros _. destruct Hcase as [-> | [Hdel Hall]]; [now left | right].
      split; [exact Hall |]. exists m. auto.
    + destruct (String.eqb duplicates "error"); discriminate H.
Qed.

Lemma case_is_added_to_live_notification_witness :
  In 4002 [4003; 4001; 4002] /\ only_4002 4002 = Done (77, "guid") /\
  ("last" = "first" \/ "last" = "last") /\
  ("last" = "first" ->
     forall y, In y [4003; 4001; 4002] -> y < 4002 ->
       only_4002 y = Failed NotificationDeletedError) /\
  ("last" = "last" ->
     (forall y, In y [4003; 4001; 4002] -> y <= 4002) \/
     (forall y, In y [4003; 4001; 4002] -> y < 4002 ->
        only_4002 y = Failed NotificationDeletedError) /\
     exists m, In m [4003; 4001; 4002] /\
               (forall y, In y [4003; 4001; 4002] -> y <= m) /\
               only_4002 m = Failed NotificationDeletedError).
Proof.
  apply (case_is_added_to_live_notification only_4002 "last" [4003; 4001; 4002]
           4002 (77, "guid")).
  - repeat constructor; cbn; lia.
  - vm_compute. reflexivity.
Defined.

(** The deletion flag of a notification never ends the creation of a
    case: the loop goes on to the next notification, and when every
    notification of the list is flagged, it ends in the [ValueError] of
    [min] on the emptied list. *)
Theorem deletion_flag_never_ends_the_search (add_case : Z -> attempt (Z * string))
  (duplicates : string) (notifs : list Z) :
  List.NoDup notifs ->
  select_notification add_case duplicates notifs <> Failed NotificationDeletedError /\
  (notifs <> [] ->
   duplicates = "first" \/ duplicates = "last" ->
   (forall y, In y notifs -> add_case y = Failed NotificationDeletedError) ->
   select_notification add_case duplicates notifs
   = Failed (Builtin (ValueError "min() arg is an empty sequence"))).
Proof.
  intros Hnd. split.
  - unfold select_notification, initial_notification.
    destruct (String.eqb duplicates "first").
    + destruct (list_min notifs) as [m|e] eqn:Hm; [|discriminate].
      cbn [lift_result mbind attempt_bind].
      destruct (list_min_spec _ _ Hm) as [Hin _].
      apply add_case_loop_fuel; [exact Hnd | exact Hin | lia].
    + destruct (String.eqb duplicates "last").
      * destruct (list_max notifs) as [m|e] eqn:Hm; [|discriminate].
        cbn [lift_result mbind attempt_bind].
        destruct (list_max_spec _ _ Hm) as [Hin _].
        apply add_case_loop_fuel; [exact Hnd | exact Hin | lia].
      * destruct (String.eqb duplicates "error"); discriminate.
  - intros Hne Hd Hall.
    assert (Hloop : forall fuel notif_id l,
              List.NoDup l -> In notif_id l -> (length l <= S fuel)%nat ->
              (forall y, In y l -> add_case y = Failed NotificationDeletedError) ->
              add_case_loop add_case fuel notif_id l
              = Failed (Builtin (ValueError "min() arg is an empty sequence"))).
    { induction fuel as [|k IH]; intros notif_id l Hndl Hin Hlen Hdel;
        cbn [add_case_loop]; rewrite (Hdel _ Hin);
        destruct (list_remove_spec notif_id l Hin Hndl) as (rest & Hr & Hnd2 & Hl & Hiff);
        rewrite Hr; cbn [lift_result mbind attempt_bind];
        (destruct rest as [|x rest']; [reflexivity |]).
      - cbn in Hl. lia.
      - destruct (list_min (x :: rest')) as [next|e] eqn:Hm; [|discriminate Hm].
        cbn [lift_result mbind attempt_bind].
        destruct (list_min_spec _ _ Hm) as [Hnext _].
        apply IH; [exact Hnd2 | exact Hnext | cbn in Hl |- *; lia |].
        intros y Hy. apply Hdel. now apply Hiff in Hy. }
    unfold select_notification, initial_notification.
    destruct notifs as [|x l]; [congruence |].
    destruct Hd as [-> | ->]; cbn [String.eqb Ascii.eqb Bool.eqb].
    + destruct (list_min (x :: l)) as [m|e] eqn:Hm; [|discriminate Hm].
      cbn [lift_result mbind attempt_bind].
      destruct (list_min_spec _ _ Hm) as [Hin _].
      apply Hloop; [exact Hnd | exact Hin | cbn; lia | exact Hall].
    + destruct (list_max (x :: l)) as [m|e] eqn:Hm; [|discriminate Hm].
      cbn [lift_result mbind attempt_bind].
      destruct (list_max_spec _ _ Hm) as [Hin _].
      apply Hloop; [exact Hnd | exact Hin | cbn; lia | exact Hall].
Qed.

Lemma deletion_flag_never_ends_the_search_witness :
  select_notification all_deleted "first" [4002; 4001]
    <> Failed NotificationDeletedError /\
  ([4002; 4001] <> [] ->
   "first" = "first" \/ "first" = "last" ->
   (forall y, In y [4002; 4001] -> all_deleted y = Failed NotificationDeletedError) ->
   select_notification all_deleted "first" [4002; 4001]
   = Failed (Builtin (ValueError "min() arg is an empty sequence"))).
Proof.
  apply (deletion_flag_never_ends_the_search all_deleted "first" [4002; 4001]).
  repeat constructor; cbn; lia.
Defined.

(** *** One document *)

Lemma moved_completed (s : site) (claim : claim_view) (r : result Z) :
  single_move claim (created s r).1.
Proof.
  destruct r as [case_id|e]; cbn; [right; right; eauto | now left].
Qed.

Lemma moved_duplicate (s : site) (claim : claim_view) :
  single_move claim (duplicate s claim).1.
Proof.
  unfold duplicate. destruct (contains "BAHAG" (issuer claim)) eqn:E; cbn;
    [now left | right; left; auto].
Qed.

Lemma route_moves (s : site) (claim : claim_view) (ctrl_categ : option string) :
  single_move claim (route s claim ctrl_categ).1.
Proof.
  unfold route.
  repeat match goal with
  | |- single_move _ (created _ _).1 => apply moved_completed
  | |- single_move _ (duplicate _ _).1 => apply moved_duplicate
  | |- single_move _ ([], _).1 => now left
  | |- single_move _ (if ?b then _ else _).1 => destruct b
  | |- single_move _ (match ?r with _ => _ end).1 => destruct r
  end.
Qed.

(** Whatever SAP, the database and the file system answer, a document of
    BAHAG is never filed as a duplicate. *)
Theorem bahag_is_never_filed_as_duplicate (s : site) (claim : claim_view)
  (ctrl_categ : option string) (case_id : option Z) :
  contains "BAHAG" (issuer claim) = true ->
  ~ In (EvMove "duplicate" case_id) (process_document s claim ctrl_categ).1.
Proof.
  intros Hb. unfold process_document.
  pose proof (route_moves s claim ctrl_categ) as Hm.
  destruct (route s claim ctrl_categ) as [evs r]. cbn [fst] in Hm.
  assert (Hevs : ~ In (EvMove "duplicate" case_id) evs).
  { destruct Hm as [-> | [[_ Hn] | [c ->]]]; [intros [] | congruence |].
    intros [E | []]. discriminate E. }
  assert (Htail : forall tl, ~ In (EvMove "duplicate" case_id) tl ->
                  ~ In (EvMove "duplicate" case_id) (evs ++ tl)%list).
  { intros tl Htl Hin. apply in_app_or in Hin as [Hin | Hin]; auto. }
  destruct r as [[]|e]; cbn [fst].
  - apply Htail. intros [E | []]. discriminate E.
  - assert (Hfail : ~ In (EvMove "duplicate" case_id)
                      (match move_files s "processing_error" None with
                       | Ok _ => ((evs ++ [EvMove "processing_error" None;
                                           EvMail msg_error])%list, Ok tt)
                       | Raise e0 => ((evs ++ [EvMove "processing_error" None])%list,
                                      Raise e0)
                       end).1).
    { destruct (move_files s "processing_error" None); cbn [fst]; apply Htail;
        cbn; intros H; repeat destruct H as [H | H]; try discriminate H; exact H. }
    destruct e; try exact Hfail.
    cbn [fst]. apply Htail. intros [E | []]. discriminate E.
Qed.

Lemma bahag_is_never_filed_as_duplicate_witness :
  ~ In (EvMove "duplicate" None)
       (process_document
          {| exist_dms_cases := Ok true;
             exists_qm_notification := exists_qm_notification fresh_site;
             creditnote_recorded := creditnote_recorded fresh_site;
             create_zqm_notification := create_zqm_notification fresh_site;
             create_qm_notification := create_qm_notification fresh_site;
             create_dms_case := create_dms_case fresh_site;
             record_creditnote := record_creditnote fresh_site;
             move_files := move_files fresh_site |}
          {| transaction := "ZQM"; issuer := "BAHAG_DE";
             reference_by := "account_number" |}
          None).1.
Proof.
  apply bahag_is_never_filed_as_duplicate. reflexivity.
Defined.

(** The message the user receives tells what was done with the document.
    One text is appended, after everything else: the notice of success
    when the files were moved once, to the completed or to the duplicate
    documents (or the transaction is none of the three); the notice of
    failure right after the move to the failed documents; a warning
    without that move. *)
Theorem mail_tells_what_was_done (s : site) (claim : claim_view)
  (ctrl_categ : option string) (evs : list event) :
  process_document s claim ctrl_categ = (evs, Ok tt) ->
  exists pre,
    single_move claim pre /\
    (evs = (pre ++ [EvMail msg_info])%list \/
     evs = (pre ++ [EvMove "processing_error" None; EvMail msg_error])%list \/
     exists wng, evs = (pre ++ [EvMail (msg_warning wng)])%list).
Proof.
  unfold process_document.
  pose proof (route_moves s claim ctrl_categ) as Hm.
  destruct (route s claim ctrl_categ) as [pre r]. cbn [fst] in Hm.
  intros H. exists pre. split; [exact Hm |].
  destruct r as [[]|e].
  - injection H as <-. now left.
  - destruct e;
      try (destruct (move_files s "processing_error" None); [|discriminate H];
           injection H as <-; right; now left).
    injection H as <-. right. right. eauto.
Qed.

Lemma mail_tells_what_was_done_witness :
  exists pre,
    single_move {| transaction := "DMS"; issuer := "OBI_DE";
                   reference_by := "invoice_number" |} pre /\
    ([EvMove "completed" (Some 4711); EvMail msg_info]
       = (pre ++ [EvMail msg_info])%list \/
     [EvMove "completed" (Some 4711); EvMail msg_info]
       = (pre ++ [EvMove "processing_error" None; EvMail msg_error])%list \/
     exists wng, [EvMove "completed" (Some 4711); EvMail msg_info]
                 = (pre ++ [EvMail (msg_warning wng)])%list).
Proof.
  apply (mail_tells_what_was_done fresh_site
           {| transaction := "DMS"; issuer := "OBI_DE";
              reference_by := "invoice_number" |}
           None).
  reflexivity.
Defined.

(** *** The rules read at start *)

Lemma lookup_update_key (data : rule) (key : string) (v : rule_param) :
  rule_lookup (update_key data key v) key = Some v.
Proof.
  induction data as [|[k w] data IH]; cbn.
  - now rewrite String.eqb_refl.
  - destruct (String.eqb key k) eqn:E; cbn; rewrite E; [reflexivity | exact IH].
Qed.

Lemma lookup_update_key_ne (data : rule) (key key' : string) (v : rule_param) :
  key' <> key -> rule_lookup (update_key data key v) key' = rule_lookup data key'.
Proof.
  intros Hne. induction data as [|[k w] data IH]; cbn.
  - apply String.eqb_neq in Hne. now rewrite Hne.
  - destruct (String.eqb_spec key k) as [-> | Hk]; cbn.
    + apply String.eqb_neq in Hne. now rewrite Hne.
    + now rewrite IH.
Qed.

Lemma lookup_del_key (data : rule) (key : string) :
  rule_lookup (del_key data key) key = None.
Proof.
  unfold del_key. induction data as [|[k w] data IH]; [reflexivity |].
  cbn [List.filter fst]. destruct (String.eqb key k) eqn:E; cbn [negb]; [exact IH |].
  cbn [rule_lookup]. rewrite E. exact IH.
Qed.

Lemma lookup_del_key_ne (data : rule) (key key' : string) :
  key' <> key -> rule_lookup (del_key data key) key' = rule_lookup data key'.
Proof.
  intros Hne. unfold del_key. induction data as [|[k w] data IH]; [reflexivity |].
  cbn [List.filter fst]. destruct (String.eqb_spec key k) as [<- | Hk]; cbn [negb].
  - cbn [rule_lookup]. apply String.eqb_neq in Hne. now rewrite Hne.
  - cbn [rule_lookup]. now rewrite IH.
Qed.

(** What [drop_user] leaves: the other keys as they were, and no [user]
    among the parameters of [claim_create]. *)
Lemma drop_user_spec (data data' : rule) :
  drop_user data = Ok data' ->
  (forall key, key <> "claim_create" -> rule_lookup data' key = rule_lookup data key) /\
  (forall params, rule_lookup data' "claim_create" = Some (Ruleset params) ->
                  ~ In "user" (fst <$> params)).
Proof.
  unfold drop_user. intros H.
  destruct (rule_lookup data "claim_create") as [[v|params]|] eqn:Hc; [| |discriminate H].
  - assert (data' = data) as ->.
    { destruct v; try discriminate H;
        repeat match type of H with
        | (if ?b then _ else _) = _ => destruct b; try discriminate H
        end; now injection H. }
    split; [reflexivity |]. intros params Hp. congruence.
  - destruct (existsb _ params) eqn:Hu.
    + injection H as <-. split.
      * intros key Hne. now apply lookup_update_key_ne.
      * intros ps Hp. rewrite lookup_update_key in Hp. injection Hp as <-.
        intros Hin. apply in_map_iff in Hin as ([k w] & Hk & Hin).
        apply filter_In in Hin as [_ Hf]. cbn in Hk, Hf. subst k.
        discriminate Hf.
    + injection H as <-. split; [reflexivity |].
      intros ps Hp. rewrite Hc in Hp. injection Hp as <-.
      intros Hin. apply in_map_iff in Hin as ([k w] & Hk & Hin). cbn in Hk. subst k.
      assert (existsb (fun kv => String.eqb "user" (fst kv)) params = true)
        by (apply existsb_exists; exists ("user", w); split; [exact Hin | reflexivity]).
      congruence.
Qed.

Lemma kept_rule_of_file (files : list rule_file) (f : rule_file) (data : rule) :
  In f files ->
  rule_complete (content f) = true ->
  (if is_zqm_category (content f)
   then drop_user (if has_key (content f) "case_add"
                   then del_key (content f) "case_add" else content f)
   else Ok (content f)) = Ok data ->
  kept_rule files (dir_name f)
    (update_key data "name" (Plain (CStr (fullname f)))).
Proof.
  intros Hf Hc Hd.
  unfold rule_complete, has_key in Hc.
  repeat match type of Hc with
  | _ && _ = true => apply andb_prop in Hc as [Hc ?]
  end.
  repeat match goal with
  | H : bool_decide _ = true |- _ => apply bool_decide_eq_true_1 in H
  end.
  (* the cleaning leaves every key but [case_add] and [claim_create] *)
  assert (Hsame : forall key, key <> "claim_create" -> key <> "case_add" ->
            rule_lookup data key = rule_lookup (content f) key).
  { intros key Hk1 Hk2. destruct (is_zqm_category (content f)).
    - apply drop_user_spec in Hd as [Hd _]. rewrite (Hd key Hk1).
      destruct (has_key (content f) "case_add"); [|reflexivity].
      now apply lookup_del_key_ne.
    - now injection Hd as <-. }
  assert (Hother : forall key, key <> "name" ->
            rule_lookup (update_key data "name" (Plain (CStr (fullname f)))) key
            = rule_lookup data key)
    by (intros key Hk; now apply lookup_update_key_ne).
  split; [|split; [|split]].
  - intros key Hk. unfold required_keys in Hk. cbn [In] in Hk.
    destruct Hk as [<- | Hk]; [rewrite lookup_update_key; eauto |].
    repeat destruct Hk as [<- | Hk]; try destruct Hk;
      rewrite Hother, Hsame by discriminate; assumption.
  - unfold value_is. rewrite !Hother, !Hsame by discriminate.
    intros Hk. fold (value_is (content f) "kind" "debit") in Hk.
    match goal with
    | H : negb (negb _ && value_is _ _ _) = true |- _ =>
        rewrite Hk, andb_true_r, negb_involutive in H;
        apply bool_decide_eq_true_1 in H; exact H
    end.
  - unfold is_zqm_category. rewrite !Hother, !Hsame by discriminate.
    fold (is_zqm_category (content f)). intros Hz. rewrite Hz in Hd.
    pose proof (drop_user_spec _ _ Hd) as [Hkeys Huser].
    split; [|exact Huser].
    rewrite Hkeys by discriminate. unfold has_key.
    destruct (rule_lookup (content f) "case_add") eqn:Hca.
    + rewrite bool_decide_eq_true_2 by eauto. apply lookup_del_key.
    + rewrite bool_decide_eq_false_2 by (intros [? ?]; discriminate). exact Hca.
  - exists f. split; [exact Hf |]. split; [reflexivity |].
    split; [apply lookup_update_key |].
    unfold is_zqm_category. rewrite !Hother, !Hsame by discriminate.
    fold (is_zqm_category (content f)). intros Hz key Hk.
    rewrite Hz in Hd. injection Hd as <-. now apply Hother.
Qed.

Lemma load_rules_kept (all files : list rule_file)
  (acc rules : gmap string (list rule)) :
  (forall f, In f files -> In f all) ->
  (forall cust rs r, acc !! cust = Some rs -> In r rs -> kept_rule all cust r) ->
  load_rules files acc = Ok rules ->
  forall cust rs r, rules !! cust = Some rs -> In r rs -> kept_rule all cust r.
Proof.
  revert acc. induction files as [|f files IH]; intros acc Hsub Hacc H.
  - injection H as <-. exact Hacc.
  - cbn [load_rules] in H.
    destruct (rule_complete (content f)) eqn:Hc; cbn [negb] in H.
    + match type of H with
      | (?m ≫= _) = _ => destruct m as [data|e] eqn:Hd; [|discriminate H]
      end.
      cbn [mbind result_bind] in H.
      refine (IH _ (fun g Hg => Hsub g (or_intror Hg)) _ H).
      intros cust rs r Hl Hr.
      destruct (decide (dir_name f = cust)) as [<- | Hne].
      * rewrite lookup_insert_eq in Hl. injection Hl as <-.
        apply in_app_or in Hr as [Hr | [<- | []]].
        -- destruct (acc !! dir_name f) as [old|] eqn:Ho; [|destruct Hr].
           exact (Hacc _ _ _ Ho Hr).
        -- apply kept_rule_of_file; [apply Hsub; now left | exact Hc | exact Hd].
      * rewrite lookup_insert_ne in Hl by exact Hne. exact (Hacc _ _ _ Hl Hr).
    + exact (IH _ (fun g Hg => Hsub g (or_intror Hg)) Hacc H).
Qed.

(** Every rule the loader hands to the compiler carries the name of its
    file and the parameters [template_id], [kind], [company_code],
    [threshold] and [tolerance], and a category when its kind is debit.  A
    rule whose category is the string bonus, promo or quality carries no
    [case_add] action and no [user] among the parameters of
    [claim_create]; a rule with any other category, a list of categories
    that holds one of the three among them, has every parameter as its
    file gives it.  The rule is filed under the directory of its file. *)
Theorem loaded_rules_are_complete (files : list rule_file)
  (rules : gmap string (list rule)) (cust : string) (rs : list rule) (r : rule) :
  _load_processing_rules files = Ok rules ->
  rules !! cust = Some rs -> In r rs ->
  kept_rule files cust r.
Proof.
  intros H. apply (load_rules_kept files files ∅ rules); [auto | | exact H].
  intros c l x Hl. exfalso. revert Hl. apply lookup_empty_Some.
Qed.

Lemma loaded_rules_are_complete_witness :
  kept_rule [quality_file] "OBI_DE" quality_rule.
Proof.
  apply (loaded_rules_are_complete [quality_file] {[ "OBI_DE" := [quality_rule] ]}
           "OBI_DE" [quality_rule] quality_rule).
  - vm_compute. reflexivity.
  - reflexivity.
  - now left.
Defined.

(** A rule whose category is the list of quality and bonus keeps its
    [case_add] action and the [user] parameter. *)
Example listed_category_keeps_case_add :
  _load_processing_rules [listed_file]
  = Ok {[ "OBI_DE" := [(content listed_file
                         ++ [("name", Plain (CStr "obi_listed.yaml"))])%list] ]}.
Proof. vm_compute. reflexivity. Qed.

End CreatorFacts.

(** ** Existing notifications of a document *)

Module NotificationFacts.
Import Notifications.

Section Search.
Variable find_notifications : Va03.document -> result (list Z).
Variable set_order : list Z -> list Z.
Hypothesis set_order_perm : forall l, set_order l ≡ₚ remove_dups l.

Lemma find_all_spec (make : cval -> result Va03.document) (nums : list cval)
  (acc notifs : list Z) :
  find_all find_notifications make nums acc = Ok notifs ->
  forall n, In n notifs <-> In n acc \/ found_for find_notifications make nums n.
Proof.
  revert acc. induction nums as [|num nums IH]; intros acc H n.
  - injection H as <-. split; [now left |].
    intros [Hn | (x & _ & _ & [] & _)]. exact Hn.
  - cbn [find_all] in H.
    destruct (make num) as [doc|e] eqn:Hm; cbn [mbind result_bind] in H;
      [|discriminate H].
    destruct (find_notifications doc) as [found|e] eqn:Hf; cbn [mbind result_bind] in H;
      [|discriminate H]. rewrite (IH _ H n), in_app_iff. split.
    + intros [[Hn | Hn] | (x & d & l & Hx & Hd & Hl & Hn)].
      * now left.
      * right. exists num, doc, found. split; [now left | auto].
      * right. exists x, d, l. split; [now right | auto].
    + intros [Hn | (x & d & l & [<- | Hx] & Hd & Hl & Hn)].
      * left. now left.
      * left. right. congruence.
      * right. exists x, d, l. auto.
Qed.

(** The notifications [_exists_qm_notification] returns are pairwise
    different, and they are exactly the notifications the ERP holds for
    one of the invoice numbers or one of the delivery numbers of the
    claim. *)
Theorem found_notifications_are_distinct (inv_nums deliv_nums : list cval)
  (notifs : list Z) :
  _exists_qm_notification find_notifications set_order inv_nums deliv_nums
    = Ok notifs ->
  List.NoDup notifs /\
  forall n, In n notifs <->
    found_for find_notifications Va03.make_Invoice inv_nums n \/
    found_for find_notifications Va03.make_Delivery deliv_nums n.
Proof.
  unfold _exists_qm_notification. intros H.
  destruct (length inv_nums + length deliv_nums =? 0)%nat eqn:Hlen.
  - injection H as <-. split; [constructor |].
    apply Nat.eqb_eq in Hlen.
    destruct inv_nums; [|cbn in Hlen; lia]. destruct deliv_nums; [|cbn in Hlen; lia].
    intros n. split; [intros [] |].
    intros [(x & _ & _ & [] & _) | (x & _ & _ & [] & _)].
  - destruct (find_all find_notifications Va03.make_Invoice inv_nums [])
      as [inv_notifs|e] eqn:Hi; cbn [mbind result_bind] in H; [|discriminate H].
    destruct (find_all find_notifications Va03.make_Delivery deliv_nums [])
      as [deliv_notifs|e] eqn:Hd; cbn [mbind result_bind] in H; [|discriminate H].
    assert (Hall : forall n, In n (inv_notifs ++ deliv_notifs)%list <->
              found_for find_notifications Va03.make_Invoice inv_nums n \/
              found_for find_notifications Va03.make_Delivery deliv_nums n).
    { intros n. rewrite in_app_iff, (find_all_spec _ _ _ _ Hi n),
        (find_all_spec _ _ _ _ Hd n). cbn. tauto. }
    destruct (length (inv_notifs ++ deliv_notifs) =? 0)%nat eqn:Hz.
    + injection H as <-. split; [constructor |].
      apply Nat.eqb_eq in Hz. intros n. rewrite <- Hall.
      destruct (inv_notifs ++ deliv_notifs)%list; [reflexivity | discriminate Hz].
    + injection H as <-.
      pose proof (set_order_perm (inv_notifs ++ deliv_notifs)%list) as Hp.
      split.
      * apply (Permutation_NoDup (Permutation_sym Hp)).
        apply NoDup_ListNoDup, NoDup_remove_dups.
      * intros n. rewrite <- Hall, <- !list_elem_of_In, Hp. apply elem_of_remove_dups.
Qed.

End Search.

Lemma found_notifications_are_distinct_witness :
  List.NoDup [4001; 4002] /\
  forall n, In n [4001; 4002] <->
    found_for sample_find Va03.make_Invoice [CInt 900000001] n \/
    found_for sample_find Va03.make_Delivery [CInt 310000001] n.
Proof.
  apply (found_notifications_are_distinct sample_find remove_dups
           (fun l => reflexivity (remove_dups l))
           [CInt 900000001] [CInt 310000001] [4001; 4002]).
  vm_compute. reflexivity.
Defined.

End NotificationFacts.
